(** * The performance binding of the runtime: src/node_perf.cc

    A shallow embedding of the native half of the performance
    instrumentation: the shared state region (milestones and observer
    counters), the garbage-collection cycle tracker, notification
    dispatch, the idle-time query and the creation of the event-loop
    delay histogram.

    Conventions.
    - [uint64_t] values are integers of [Z] in the range [0, 2^64); the one
      subtraction the code performs on them wraps around ([u64_sub]).
    - [double] values are IEEE 754 binary64 numbers, computed with the
      standard library's executable specification ([SpecFloat]) at
      precision 53 and maximal exponent 1024, rounding to nearest even.
    - A binding call either returns, throws a script exception, or faults
      ([Outcome]).
    - The monotonic clock [PERFORMANCE_NOW()] is an input: every operation
      that may read it receives the reading as its argument [now].
    - The TRACE_EVENT and TRACE_COUNTER macros write to the tracing agent,
      which owns no state of this file; they are left out. *)

From Stdlib Require Import ZArith Lia Bool.
From Stdlib Require Import Floats.SpecFloat.
From stdpp Require Import base list strings.

Local Open Scope Z_scope.

(** ** Machine numbers *)

(** Unsigned 64-bit subtraction. *)
Definition u64_sub (a b : Z) : Z := (a - b) mod 2 ^ 64.

Definition is_u64 (n : Z) : Prop := 0 <= n < 2 ^ 64.

Definition prec : Z := 53.
Definition emax : Z := 1024.

Definition double : Type := spec_float.

(** [static_cast<double>(n)] for an unsigned 64-bit [n]. *)
Definition f64_of_u64 (n : Z) : double := binary_normalize prec emax n 0 false.

Definition f64_div : double -> double -> double := SFdiv prec emax.
Definition f64_sub : double -> double -> double := SFsub prec emax.
Definition f64_mul : double -> double -> double := SFmul prec emax.
Definition f64_leb : double -> double -> bool := SFleb.
Definition f64_eqb : double -> double -> bool := SFeqb.

(** The literals of the file. *)
Definition f64_one : double := S754_finite false 4503599627370496 (-52).
Definition f64_minus_one : double := S754_finite true 4503599627370496 (-52).

(** Nanoseconds in a millisecond, as a float: [#define NANOS_PER_MILLIS 1e6]. *)
Definition NANOS_PER_MILLIS : double := S754_finite false 8589934592000000 (-33).

(** ** Auxiliary notions for reasoning about rounding

    A non-negative rational [a / (2 b)] is carried through the rounding
    pipeline as its "sticky floor": the integer part doubled, with the
    low bit recording whether anything was cut off. *)

Definition lcode (l : location) : Z :=
  match l with
  | loc_Exact => 0
  | loc_Inexact Lt => 1
  | loc_Inexact Eq => 2
  | loc_Inexact Gt => 3
  end.

Definition urec (mrs : shr_record) : Z :=
  4 * shr_m mrs + 2 * Z.b2z (shr_r mrs) + Z.b2z (shr_s mrs).

Definition sfloor (a b : Z) : Z :=
  2 * (a / b) + (if a mod b =? 0 then 0 else 1).

Definition sticky_shift (u : Z) : Z :=
  2 * (u / 4) + (if u mod 4 =? 0 then 0 else 1).

Definition rne4 (u : Z) : Z := (u + 1 + (u / 4) mod 2) / 4.

Definition fnorm (M E : Z) : double :=
  if M =? 2 ^ 53 then S754_finite false (Z.to_pos (2 ^ 52)) (E + 1)
  else S754_finite false (Z.to_pos M) E.

(** The double nearest to [a / (2 b) * 2 ^ e]. *)
Definition rnd (a b e : Z) : double :=
  let d := Zdigits2 (a / (2 * b)) in
  fnorm (rne4 (sfloor a (b * 2 ^ (d - 53)))) (e + d - 53).

(** The value of a non-negative finite double, scaled by [2 ^ 1074]. *)
Definition f64_scaled (x : double) : Z :=
  match x with
  | S754_finite false m e => Zpos m * 2 ^ (e + 1074)
  | _ => 0
  end.

(** Positive normal doubles with exponent between [lo] and [hi]. *)
Definition normal_in (lo hi : Z) (x : double) : Prop :=
  match x with
  | S754_finite false m e => 2 ^ 52 <= Zpos m < 2 ^ 53 /\ lo <= e <= hi
  | _ => False
  end.

(** Neither NaN nor carrying a sign bit. *)
Definition sign_clear (x : double) : Prop :=
  match x with
  | S754_nan => False
  | S754_zero s | S754_infinity s | S754_finite s _ _ => s = false
  end.

(** [n] nanoseconds in milliseconds: [n / NANOS_PER_MILLIS]. *)
Definition millis_of_nanos (n : Z) : double :=
  f64_div (f64_of_u64 n) NANOS_PER_MILLIS.

(** ** Outcomes of a call *)

Inductive Fault : Type :=
  | CheckFailed   (* a CHECK macro fails: the process reports and aborts *)
  | OutOfBounds   (* an AliasedBuffer is accessed past its length *)
  | EmptyHandle.  (* a member is called through an empty handle *)

Inductive Outcome (A : Type) : Type :=
  | Returns (a : A)
  | Throws (code : string)
  | Faults (f : Fault).

Arguments Returns {A} a.
Arguments Throws {A} code.
Arguments Faults {A} f.

#[global] Instance Outcome_ret : MRet Outcome := @Returns.

#[global] Instance Outcome_bind : MBind Outcome := fun A B k o =>
  match o with
  | Returns a => k a
  | Throws c => Throws c
  | Faults f => Faults f
  end.

(** [CHECK(b)], [CHECK_EQ(a, b)], [CHECK_GT(a, b)].  The macros come from
    a header outside this file; they are the assertions of the code base:
    go on when the condition holds, report and abort the process
    otherwise. *)
Definition CHECK (b : bool) : Outcome unit :=
  if b then Returns tt else Faults CheckFailed.

(** ** Script values handed through the binding *)

Inductive Value : Type :=
  | Undefined
  | Object (id : nat)
  | Function (id : nat).

Definition IsFunction (v : Value) : bool :=
  match v with Function _ => true | _ => false end.

Inductive RealmKind : Type := kPrincipal | kShadowRealm.

Definition RealmKind_eqb (a b : RealmKind) : bool :=
  match a, b with
  | kPrincipal, kPrincipal | kShadowRealm, kShadowRealm => true
  | _, _ => false
  end.

(** ** The generated enumerations

    The milestone and entry-type enumerations are generated from tables
    that live in a header outside this file.  Each enumeration ends with
    its [INVALID] member, which is also the number of valid members. *)

Class PerformanceEnums : Type := {
  NODE_PERFORMANCE_MILESTONE_INVALID : nat;
  NODE_PERFORMANCE_MILESTONE_BOOTSTRAP_COMPLETE : nat;
  NODE_PERFORMANCE_ENTRY_TYPE_INVALID : nat;
  NODE_PERFORMANCE_ENTRY_TYPE_GC : nat;
  ToPerformanceEntryTypeEnum : string -> nat;
  bootstrap_complete_valid :
    (NODE_PERFORMANCE_MILESTONE_BOOTSTRAP_COMPLETE < NODE_PERFORMANCE_MILESTONE_INVALID)%nat;
  gc_entry_type_valid :
    (NODE_PERFORMANCE_ENTRY_TYPE_GC < NODE_PERFORMANCE_ENTRY_TYPE_INVALID)%nat;
  entry_type_enum_range :
    forall type, (ToPerformanceEntryTypeEnum type <= NODE_PERFORMANCE_ENTRY_TYPE_INVALID)%nat
}.

(** ** Data *)

(** Indices of the three views in the snapshot. *)
Record SerializeInfo : Type := {
  info_root : nat;
  info_milestones : nat;
  info_observers : nat
}.

(** The block behind [root]: [performance_state_internal]. *)
Record performance_state_internal : Type := {
  block_milestones : list double;
  block_observers : list Z
}.

(** [PerformanceState].  [milestones] (doubles, in nanoseconds, [-1] for
    "not set") and [observers] (unsigned counters) are the two views into
    the block [root]; [index_] is set while the state waits to be
    deserialized.  [performance_last_gc_start_mark] is a [uint64_t]
    reading of the clock; [current_gc_type] holds the kind the collector
    gave, and zero when no cycle is in progress. *)
Record PerformanceState : Type := {
  milestones : list double;
  observers : list Z;
  performance_last_gc_start_mark : Z;
  current_gc_type : Z;
  index_ : option SerializeInfo
}.

(** [GCPerformanceEntry]: name, start time, duration, details. *)
Record GCPerformanceEntry : Type := {
  entry_name : string;
  entry_start_time : double;
  entry_duration : double;
  details_kind : Z;
  details_flags : Z
}.

Inductive CallbackFlags : Type := kUnrefed | kRefed.

(** A task of the native immediate queue: here always the closure that
    calls [entry->Notify(env)] on the entry it captured. *)
Record NativeImmediate : Type := {
  immediate_entry : GCPerformanceEntry;
  immediate_flags : CallbackFlags
}.

Record IntervalHistogram : Type := {
  histogram_interval : Z;
  histogram_lowest : Z
}.

(** What the file uses of the environment: the performance state; the
    time origin ([uint64_t], nanoseconds); the callback slot of the
    principal realm, empty until one is registered; the queue of native
    immediates and the number of them that keep the loop alive; the calls
    made so far into the scripting layer, each with the function called
    and its argument; the idle time the event loop reports
    ([uv_metrics_idle_time], a [uint64_t] count of nanoseconds); the
    histograms created so far. *)
Record Environment : Type := {
  performance_state : PerformanceState;
  time_origin : Z;
  performance_entry_callback : option nat;
  native_immediates : list NativeImmediate;
  immediate_ref_count : nat;
  callback_calls : list (nat * Value);
  idle_time : Z;
  histograms : list IntervalHistogram
}.

(** Field updates. *)
Definition set_milestones (st : PerformanceState) (ms : list double) : PerformanceState :=
  {| milestones := ms;
     observers := observers st;
     performance_last_gc_start_mark := performance_last_gc_start_mark st;
     current_gc_type := current_gc_type st;
     index_ := index_ st |}.

Definition set_gc (st : PerformanceState) (mark type : Z) : PerformanceState :=
  {| milestones := milestones st;
     observers := observers st;
     performance_last_gc_start_mark := mark;
     current_gc_type := type;
     index_ := index_ st |}.

Definition set_performance_state (env : Environment) (st : PerformanceState) : Environment :=
  {| performance_state := st;
     time_origin := time_origin env;
     performance_entry_callback := performance_entry_callback env;
     native_immediates := native_immediates env;
     immediate_ref_count := immediate_ref_count env;
     callback_calls := callback_calls env;
     idle_time := idle_time env;
     histograms := histograms env |}.

Definition set_performance_entry_callback (env : Environment) (f : nat) : Environment :=
  {| performance_state := performance_state env;
     time_origin := time_origin env;
     performance_entry_callback := Some f;
     native_immediates := native_immediates env;
     immediate_ref_count := immediate_ref_count env;
     callback_calls := callback_calls env;
     idle_time := idle_time env;
     histograms := histograms env |}.

Definition set_immediates (env : Environment) (q : list NativeImmediate) (refs : nat)
  : Environment :=
  {| performance_state := performance_state env;
     time_origin := time_origin env;
     performance_entry_callback := performance_entry_callback env;
     native_immediates := q;
     immediate_ref_count := refs;
     callback_calls := callback_calls env;
     idle_time := idle_time env;
     histograms := histograms env |}.

Definition set_callback_calls (env : Environment) (calls : list (nat * Value)) : Environment :=
  {| performance_state := performance_state env;
     time_origin := time_origin env;
     performance_entry_callback := performance_entry_callback env;
     native_immediates := native_immediates env;
     immediate_ref_count := immediate_ref_count env;
     callback_calls := calls;
     idle_time := idle_time env;
     histograms := histograms env |}.

Definition set_histograms (env : Environment) (hs : list IntervalHistogram) : Environment :=
  {| performance_state := performance_state env;
     time_origin := time_origin env;
     performance_entry_callback := performance_entry_callback env;
     native_immediates := native_immediates env;
     immediate_ref_count := immediate_ref_count env;
     callback_calls := callback_calls env;
     idle_time := idle_time env;
     histograms := hs |}.

Definition set_idle_time (env : Environment) (idle : Z) : Environment :=
  {| performance_state := performance_state env;
     time_origin := time_origin env;
     performance_entry_callback := performance_entry_callback env;
     native_immediates := native_immediates env;
     immediate_ref_count := immediate_ref_count env;
     callback_calls := callback_calls env;
     idle_time := idle;
     histograms := histograms env |}.

(** ** Element access of an AliasedBuffer

    The buffer class is declared in a header outside this file.  Its
    [operator[]] is read as C++ array indexing: inside the buffer the
    element is read or written; an index outside the buffer is not
    handled by the callers below and is reported as a fault. *)

Definition aref {A : Type} (buf : list A) (i : nat) : Outcome A :=
  match buf !! i with
  | Some x => Returns x
  | None => Faults OutOfBounds
  end.

Definition aset {A : Type} (buf : list A) (i : Z) (x : A) : Outcome (list A) :=
  if (0 <=? i) && (i <? Z.of_nat (length buf))
  then Returns (<[Z.to_nat i := x]> buf)
  else Faults OutOfBounds.

(** [for (size_t i = 0; i < milestones.Length(); i++) milestones[i] = -1.;] *)
Definition reset_milestones (ms : list double) : list double :=
  foldl (fun acc i => <[i := f64_minus_one]> acc) ms (seq 0 (length ms)).

(** Modelled from the spec: [Environment::SetImmediate], the host's
    deferred-callback mechanism, which is defined outside this file.  The
    task joins the end of the host's queue, to run after the current call
    has returned; only a referenced task counts towards keeping the
    runtime alive. *)
Definition SetImmediate (env : Environment) (entry : GCPerformanceEntry)
    (flags : CallbackFlags) : Environment :=
  set_immediates env
    (native_immediates env ++ [{| immediate_entry := entry; immediate_flags := flags |}])
    (match flags with
     | kRefed => S (immediate_ref_count env)
     | kUnrefed => immediate_ref_count env
     end).

(** Modelled from the spec: [IntervalHistogram::Create], defined outside
    this file.  It creates the sampler for the given interval and hands
    back its handle. *)
Definition IntervalHistogram_Create (env : Environment) (interval lowest : Z)
  : Environment * nat :=
  (set_histograms env
     (histograms env ++ [{| histogram_interval := interval; histogram_lowest := lowest |}]),
   length (histograms env)).

(** Modelled from the spec: [AliasedBuffer::Serialize], defined outside
    this file.  The view is added to the snapshot, which keeps the raw
    block behind it, and its index in the snapshot is returned. *)
Definition AliasedBuffer_Serialize (block : performance_state_internal)
    (creator : list performance_state_internal)
  : nat * list performance_state_internal :=
  (length creator, creator ++ [block]).

(** Modelled from the spec: [AliasedBuffer::Deserialize], defined outside
    this file.  The view is taken back from the snapshot at its index,
    with the raw block behind it as it was saved. *)
Definition AliasedBuffer_Deserialize (context : list performance_state_internal)
    (index : option nat) : Outcome performance_state_internal :=
  match index with
  | None => Faults CheckFailed
  | Some i =>
      match context !! i with
      | Some block => Returns block
      | None => Faults EmptyHandle
      end
  end.

(** Modelled from the spec: the reinitialize step that the owner runs
    after [Deserialize]; it is not part of this file.  Every milestone
    slot goes back to the sentinel. *)
Definition reinitialize (st : PerformanceState) : PerformanceState :=
  set_milestones st (reset_milestones (milestones st)).

(** ** The operations of node_perf.cc *)

Section Operations.
Context `{PerformanceEnums}.

(** [PerformanceState::PerformanceState(isolate, info)].  Without
    [info] the buffers are allocated, zero-filled, and the milestones
    are set to the sentinel; with [info] the buffers are left to
    [Deserialize]. *)
Definition PerformanceState_new (info : option SerializeInfo) : PerformanceState :=
  match info with
  | None =>
      {| milestones :=
           reset_milestones (replicate NODE_PERFORMANCE_MILESTONE_INVALID (S754_zero false));
         observers := replicate NODE_PERFORMANCE_ENTRY_TYPE_INVALID 0;
         performance_last_gc_start_mark := 0;
         current_gc_type := 0;
         index_ := None |}
  | Some i =>
      {| milestones := [];
         observers := [];
         performance_last_gc_start_mark := 0;
         current_gc_type := 0;
         index_ := Some i |}
  end.

(** [PerformanceState::Serialize(context, creator)] *)
Definition Serialize (st : PerformanceState) (creator : list performance_state_internal)
  : SerializeInfo * list performance_state_internal :=
  let block :=
    {| block_milestones := milestones st; block_observers := observers st |} in
  let '(r, creator) := AliasedBuffer_Serialize block creator in
  let '(m, creator) := AliasedBuffer_Serialize block creator in
  let '(o, creator) := AliasedBuffer_Serialize block creator in
  ({| info_root := r; info_milestones := m; info_observers := o |}, creator).

(** [PerformanceState::Deserialize(context)] *)
Definition Deserialize (st : PerformanceState) (context : list performance_state_internal)
  : Outcome PerformanceState :=
  _ ← AliasedBuffer_Deserialize context (info_root <$> index_ st);
  m ← AliasedBuffer_Deserialize context (info_milestones <$> index_ st);
  o ← AliasedBuffer_Deserialize context (info_observers <$> index_ st);
  mret {| milestones := block_milestones m;
          observers := block_observers o;
          performance_last_gc_start_mark := performance_last_gc_start_mark st;
          current_gc_type := current_gc_type st;
          index_ := None |}.

(** [PerformanceState::Mark(milestone, ts)] *)
Definition Mark (st : PerformanceState) (milestone : Z) (ts : Z)
  : Outcome PerformanceState :=
  ms ← aset (milestones st) milestone (f64_of_u64 ts);
  mret (set_milestones st ms).

(** [MarkMilestone(args)], with [args[0]] read as an [Int32]. *)
Definition MarkMilestone (env : Environment) (realm : RealmKind) (arg0 : Z) (now : Z)
  : Outcome Environment :=
  CHECK (RealmKind_eqb realm kPrincipal);;
  let milestone := arg0 in
  if negb (milestone =? Z.of_nat NODE_PERFORMANCE_MILESTONE_INVALID) then
    st ← Mark (performance_state env) milestone now;
    mret (set_performance_state env st)
  else mret env.

(** [MarkBootstrapComplete(args)] *)
Definition MarkBootstrapComplete (env : Environment) (realm : RealmKind) (now : Z)
  : Outcome Environment :=
  CHECK (RealmKind_eqb realm kPrincipal);;
  st ← Mark (performance_state env)
         (Z.of_nat NODE_PERFORMANCE_MILESTONE_BOOTSTRAP_COMPLETE) now;
  mret (set_performance_state env st).

(** [SetupPerformanceObservers(args)] *)
Definition SetupPerformanceObservers (env : Environment) (realm : RealmKind) (arg0 : Value)
  : Outcome Environment :=
  CHECK (RealmKind_eqb realm kPrincipal);;
  CHECK (IsFunction arg0);;
  match arg0 with
  | Function f => mret (set_performance_entry_callback env f)
  | _ => Faults CheckFailed
  end.

(** [MarkGarbageCollectionStart(isolate, type, flags, data)] *)
Definition MarkGarbageCollectionStart (env : Environment) (type flags now : Z)
  : Outcome Environment :=
  let state := performance_state env in
  if negb (current_gc_type state =? 0) then mret env
  else mret (set_performance_state env (set_gc state now type)).

(** [MarkGarbageCollectionEnd(isolate, type, flags, data)] *)
Definition MarkGarbageCollectionEnd (env : Environment) (type flags now : Z)
  : Outcome Environment :=
  let state := performance_state env in
  if negb (type =? current_gc_type state) then mret env
  else
    let mark := performance_last_gc_start_mark state in
    let env := set_performance_state env (set_gc state mark 0) in
    n ← aref (observers state) NODE_PERFORMANCE_ENTRY_TYPE_GC;
    if n =? 0 then mret env
    else
      let start_time :=
        f64_div (f64_of_u64 (u64_sub mark (time_origin env))) NANOS_PER_MILLIS in
      let duration :=
        f64_sub (f64_div (f64_of_u64 now) NANOS_PER_MILLIS)
                (f64_div (f64_of_u64 mark) NANOS_PER_MILLIS) in
      let entry :=
        {| entry_name := "gc";
           entry_start_time := start_time;
           entry_duration := duration;
           details_kind := type;
           details_flags := flags |} in
      mret (SetImmediate env entry kUnrefed).

(** [Notify(args)]: [args[0]] is the type name, [args[1]] the entry. *)
Definition Notify (env : Environment) (type : string) (entry : Value)
  : Outcome Environment :=
  let entry_type := ToPerformanceEntryTypeEnum type in
  if negb (entry_type =? NODE_PERFORMANCE_ENTRY_TYPE_INVALID)%nat then
    n ← aref (observers (performance_state env)) entry_type;
    if negb (n =? 0) then
      match performance_entry_callback env with
      | Some f => mret (set_callback_calls env (callback_calls env ++ [(f, entry)]))
      | None => Faults EmptyHandle
      end
    else mret env
  else mret env.

(** [LoopIdleTime(args)]: [1.0 * idle_time / 1e6] *)
Definition LoopIdleTime (env : Environment) : Outcome (Environment * double) :=
  let idle_time := idle_time env in
  mret (env, f64_div (f64_mul f64_one (f64_of_u64 idle_time)) NANOS_PER_MILLIS).

(** [CreateELDHistogram(args)], with [args[0]] read as an [int64_t]. *)
Definition CreateELDHistogram (env : Environment) (interval : Z)
  : Outcome (Environment * nat) :=
  CHECK (0 <? interval);;
  mret (IntervalHistogram_Create env interval 1000).

(** [GetTimeOrigin(args)] *)
Definition GetTimeOrigin (env : Environment) : Outcome (Environment * double) :=
  mret (env, f64_div (f64_of_u64 (time_origin env)) NANOS_PER_MILLIS).

(** Both buffers have the length of their enumeration. *)
Definition wf_state (st : PerformanceState) : Prop :=
  length (milestones st) = NODE_PERFORMANCE_MILESTONE_INVALID /\
  length (observers st) = NODE_PERFORMANCE_ENTRY_TYPE_INVALID.

(** The type name maps to a valid entry type whose observer counter is
    not zero. *)
Definition interested (env : Environment) (type : string) : Prop :=
  ToPerformanceEntryTypeEnum type <> NODE_PERFORMANCE_ENTRY_TYPE_INVALID /\
  exists n, observers (performance_state env) !! ToPerformanceEntryTypeEnum type = Some n /\
            n <> 0.

End Operations.

(** ** Collector signals *)

(** The environment right after a prologue of kind [k] was accepted at
    time [t]. *)
Definition started (env : Environment) (k t : Z) : Environment :=
  set_performance_state env (set_gc (performance_state env) t k).

(** The environment right after a matched epilogue cleared the kind. *)
Definition cleared (env : Environment) : Environment :=
  set_performance_state env
    (set_gc (performance_state env)
            (performance_last_gc_start_mark (performance_state env)) 0).

(** The entry an epilogue of kind [type] builds at time [now]. *)
Definition gc_entry (env : Environment) (type flags now : Z) : GCPerformanceEntry :=
  {| entry_name := "gc";
     entry_start_time :=
       f64_div (f64_of_u64 (u64_sub (performance_last_gc_start_mark (performance_state env))
                                    (time_origin env)))
               NANOS_PER_MILLIS;
     entry_duration :=
       f64_sub (millis_of_nanos now)
               (millis_of_nanos (performance_last_gc_start_mark (performance_state env)));
     details_kind := type;
     details_flags := flags |}.

(** What the collector sends: a prologue or an epilogue, each with the
    kind and flags of the cycle; [now] is the clock at that moment.  The
    kinds of the collector are flag values, none of them zero; zero is
    what [current_gc_type] holds between cycles.  The statements that
    depend on it say so. *)
Inductive GCSignal : Type :=
  | Prologue (type flags now : Z)
  | Epilogue (type flags now : Z).

Definition signal_clock (s : GCSignal) : Z :=
  match s with
  | Prologue _ _ now | Epilogue _ _ now => now
  end.

Definition is_epilogue_of (k : Z) (s : GCSignal) : Prop :=
  match s with
  | Epilogue type _ _ => type = k
  | Prologue _ _ _ => False
  end.

Section Signals.
Context `{PerformanceEnums}.

Definition deliver (env : Environment) (s : GCSignal) : Outcome Environment :=
  match s with
  | Prologue type flags now => MarkGarbageCollectionStart env type flags now
  | Epilogue type flags now => MarkGarbageCollectionEnd env type flags now
  end.

Fixpoint run (env : Environment) (sigs : list GCSignal) : Outcome Environment :=
  match sigs with
  | [] => mret env
  | s :: sigs => env ← deliver env s; run env sigs
  end.

(** A sequence of [Mark] calls, each with a milestone and a timestamp. *)
Fixpoint run_marks (st : PerformanceState) (marks : list (Z * Z))
  : Outcome PerformanceState :=
  match marks with
  | [] => mret st
  | (milestone, ts) :: marks => st ← Mark st milestone ts; run_marks st marks
  end.

End Signals.

(** Readings of a monotonic clock, none before [t]. *)
Fixpoint monotonic_from (t : Z) (readings : list Z) : Prop :=
  match readings with
  | [] => True
  | r :: readings => t <= r /\ monotonic_from r readings
  end.

(** Every slot holds the sentinel or a past reading of the clock. *)
Definition slots_below (t : Z) (ms : list double) : Prop :=
  Forall (fun x => x = f64_minus_one \/ exists t', 0 <= t' <= t /\ x = f64_of_u64 t') ms.

(** ** What the specification says, for comparison *)

(** The specification's reading of the idle-time query: seconds, the host
    loop counting in nanoseconds. *)
Definition spec_idle_seconds (idle_ns : Z) : double :=
  f64_div (f64_of_u64 idle_ns) (f64_of_u64 1000000000).

(** ** A sample instance of the enumerations and a fresh environment *)

Definition sample_entry_type (type : string) : nat :=
  if String.eqb type "gc" then 0%nat
  else if String.eqb type "http" then 1%nat
  else if String.eqb type "http2" then 2%nat
  else if String.eqb type "net" then 3%nat
  else if String.eqb type "dns" then 4%nat
  else 5%nat.

Definition sample_enums : PerformanceEnums.
Proof.
  refine {| NODE_PERFORMANCE_MILESTONE_INVALID := 8;
            NODE_PERFORMANCE_MILESTONE_BOOTSTRAP_COMPLETE := 7;
            NODE_PERFORMANCE_ENTRY_TYPE_INVALID := 5;
            NODE_PERFORMANCE_ENTRY_TYPE_GC := 0;
            ToPerformanceEntryTypeEnum := sample_entry_type |}.
  - lia.
  - lia.
  - intros type. unfold sample_entry_type.
    repeat match goal with |- context [if ?b then _ else _] => destruct b end; lia.
Defined.

Definition fresh_env `{PerformanceEnums} (origin : Z) : Environment :=
  {| performance_state := PerformanceState_new None;
     time_origin := origin;
     performance_entry_callback := None;
     native_immediates := [];
     immediate_ref_count := 0;
     callback_calls := [];
     idle_time := 0;
     histograms := [] |}.

(** The same environment with one observer counter written by the
    scripting layer, which shares the region. *)
Definition with_observer_count (env : Environment) (entry_type : nat) (n : Z) : Environment :=
  set_performance_state env
    {| milestones := milestones (performance_state env);
       observers := <[entry_type := n]> (observers (performance_state env));
       performance_last_gc_start_mark :=
         performance_last_gc_start_mark (performance_state env);
       current_gc_type := current_gc_type (performance_state env);
       index_ := index_ (performance_state env) |}.

(** ** The rest of the file *)

(** *** Installing and removing the tracker

    The isolate's lists of collector callbacks and the environment's set
    of cleanup hooks belong to the engine and to the host.  They are taken
    as they come: a state [Hooks] and six operations, each for the one
    callback and the one environment this file passes, each free to
    fail. *)
Class HostHooks : Type := {
  Hooks : Type;
  AddGCPrologueCallback : Hooks -> Outcome Hooks;
  AddGCEpilogueCallback : Hooks -> Outcome Hooks;
  RemoveGCPrologueCallback : Hooks -> Outcome Hooks;
  RemoveGCEpilogueCallback : Hooks -> Outcome Hooks;
  AddCleanupHook : Hooks -> Outcome Hooks;
  RemoveCleanupHook : Hooks -> Outcome Hooks
}.

(** [GarbageCollectionCleanupHook(data)] *)
Definition GarbageCollectionCleanupHook `{HostHooks} (env : Environment) (hooks : Hooks)
  : Outcome (Environment * Hooks) :=
  let env :=
    set_performance_state env
      (set_gc (performance_state env)
              (performance_last_gc_start_mark (performance_state env)) 0) in
  hooks ← RemoveGCPrologueCallback hooks;
  hooks ← RemoveGCEpilogueCallback hooks;
  mret (env, hooks).

(** [InstallGarbageCollectionTracking(args)] *)
Definition InstallGarbageCollectionTracking `{HostHooks} (env : Environment) (hooks : Hooks)
  : Outcome (Environment * Hooks) :=
  let env :=
    set_performance_state env
      (set_gc (performance_state env)
              (performance_last_gc_start_mark (performance_state env)) 0) in
  hooks ← AddGCPrologueCallback hooks;
  hooks ← AddGCEpilogueCallback hooks;
  hooks ← AddCleanupHook hooks;
  mret (env, hooks).

(** [RemoveGarbageCollectionTracking(args)] *)
Definition RemoveGarbageCollectionTracking `{HostHooks} (env : Environment) (hooks : Hooks)
  : Outcome (Environment * Hooks) :=
  hooks ← RemoveCleanupHook hooks;
  GarbageCollectionCleanupHook env hooks.

(** *** The name of a function

    What [GetName] sees of a script function: its debug name, which may
    be an empty handle, undefined, or a string, and, for a bound
    function, the function it is bound to. *)
Inductive DebugName : Type :=
  | NameEmpty
  | NameUndefined
  | NameString (s : string).

Inductive ScriptFunction : Type :=
  | PlainFunction (debug_name : DebugName)
  | BoundFunction (debug_name : DebugName) (bound_function : ScriptFunction).

Definition is_name (n : DebugName) : bool :=
  match n with NameString _ => true | _ => false end.

(** [GetName(fn)] *)
Fixpoint GetName (fn : ScriptFunction) : DebugName :=
  match fn with
  | PlainFunction val => val
  | BoundFunction val boundFunction =>
      if negb (is_name val) then GetName boundFunction else val
  end.

(** The debug names along the chain of bound functions, nearest first. *)
Fixpoint bound_chain (fn : ScriptFunction) : list DebugName :=
  match fn with
  | PlainFunction val => [val]
  | BoundFunction val boundFunction => val :: bound_chain boundFunction
  end.

(** *** Calls in sequence *)

(** A call from the scripting layer into the binding, or a signal from
    the collector. *)
Inductive Call : Type :=
  | CallMarkMilestone (realm : RealmKind) (arg0 now : Z)
  | CallMarkBootstrapComplete (realm : RealmKind) (now : Z)
  | CallSetupPerformanceObservers (realm : RealmKind) (arg0 : Value)
  | CallNotify (type : string) (entry : Value)
  | CallLoopIdleTime
  | CallGetTimeOrigin
  | CallCreateELDHistogram (interval : Z)
  | CallSignal (s : GCSignal).

Section Calls.
Context `{PerformanceEnums}.

Definition perform (env : Environment) (c : Call) : Outcome Environment :=
  match c with
  | CallMarkMilestone realm arg0 now => MarkMilestone env realm arg0 now
  | CallMarkBootstrapComplete realm now => MarkBootstrapComplete env realm now
  | CallSetupPerformanceObservers realm arg0 => SetupPerformanceObservers env realm arg0
  | CallNotify type entry => Notify env type entry
  | CallLoopIdleTime => r ← LoopIdleTime env; mret (fst r)
  | CallGetTimeOrigin => r ← GetTimeOrigin env; mret (fst r)
  | CallCreateELDHistogram interval => r ← CreateELDHistogram env interval; mret (fst r)
  | CallSignal s => deliver env s
  end.

Fixpoint perform_all (env : Environment) (calls : list Call) : Outcome Environment :=
  match calls with
  | [] => mret env
  | c :: calls => env ← perform env c; perform_all env calls
  end.

End Calls.

(** The collector's signals among the calls, in their order. *)
Definition signals_of (calls : list Call) : list GCSignal :=
  omap (fun c => match c with CallSignal s => Some s | _ => None end) calls.

(** Two environments that the tracker cannot tell apart. *)
Definition same_tracker (a b : Environment) : Prop :=
  current_gc_type (performance_state a) = current_gc_type (performance_state b) /\
  performance_last_gc_start_mark (performance_state a) =
    performance_last_gc_start_mark (performance_state b) /\
  observers (performance_state a) = observers (performance_state b) /\
  time_origin a = time_origin b /\
  native_immediates a = native_immediates b /\
  immediate_ref_count a = immediate_ref_count b.

Definition is_prologue (s : GCSignal) : bool :=
  match s with Prologue _ _ _ => true | Epilogue _ _ _ => false end.

(** No epilogue carries the kind zero. *)
Definition epilogue_kinds_nonzero (sigs : list GCSignal) : Prop :=
  Forall (fun s => ~ is_epilogue_of 0 s) sigs.

(** One when a cycle is in progress, zero when idle. *)
Definition cycles_open (env : Environment) : nat :=
  if current_gc_type (performance_state env) =? 0 then 0%nat else 1%nat.

(** A task as the tracker queues them. *)
Definition tracker_task (t : NativeImmediate) : Prop :=
  immediate_flags t = kUnrefed /\ entry_name (immediate_entry t) = "gc".

(** A sample of the host's hooks: three counters. *)
Definition sample_hooks : HostHooks :=
  {| Hooks := nat * nat * nat;
     AddGCPrologueCallback := fun '(p, e, c) => Returns (S p, e, c);
     AddGCEpilogueCallback := fun '(p, e, c) => Returns (p, S e, c);
     RemoveGCPrologueCallback := fun '(p, e, c) => Returns (pred p, e, c);
     RemoveGCEpilogueCallback := fun '(p, e, c) => Returns (p, pred e, c);
     AddCleanupHook := fun '(p, e, c) => Returns (p, e, S c);
     RemoveCleanupHook := fun '(p, e, c) => Returns (p, e, pred c) |}.

(** * Properties *)

(** ** Rounding to binary64 *)

(** *** Shifting right with a round and a sticky bit

    A record [(m, r, s)] of the shifting loop is read as the integer
    [4 m + 2 r + s].  One step of the loop is a "sticky shift" of that
    integer, and if the integer is the sticky floor of [a / b], the step
    leads to the sticky floor of [a / (2 b)]. *)

Lemma urec_of_loc m l : urec (shr_record_of_loc m l) = 4 * m + lcode l.
Proof. destruct l as [|[]]; unfold urec; simpl; lia. Qed.

Lemma urec_shr_1 mrs : 0 <= shr_m mrs -> urec (shr_1 mrs) = sticky_shift (urec mrs).
Proof.
  destruct mrs as [m r s]; simpl; intros Hm.
  unfold urec, sticky_shift.
  destruct m as [|p|p]; [| |lia].
  - destruct r, s; reflexivity.
  - destruct p as [p|p|]; destruct r, s; cbn [shr_1 shr_m shr_r shr_s orb Z.b2z];
      repeat match goal with |- context [?x =? 0] => destruct (Z.eqb_spec x 0) end;
      Z.div_mod_to_equations; lia.
Qed.

Lemma sticky_shift_sfloor a b : 0 < b -> sticky_shift (sfloor a b) = sfloor a (2 * b).
Proof.
  intros Hb. unfold sticky_shift, sfloor.
  pose proof (Z.div_mod a b ltac:(lia)) as E.
  pose proof (Z.mod_pos_bound a b Hb) as B.
  set (q := a / b) in *. set (r := a mod b) in *.
  pose proof (Z.div_mod q 2 ltac:(lia)) as E2.
  pose proof (Z.mod_pos_bound q 2 ltac:(lia)) as B2.
  set (q2 := q / 2) in *. set (q0 := q mod 2) in *.
  assert (Hd : a / (2 * b) = q2).
  { symmetry. apply (Z.div_unique a (2 * b) q2 (b * q0 + r)); nia. }
  assert (Hm : a mod (2 * b) = b * q0 + r).
  { symmetry. apply (Z.mod_unique a (2 * b) q2 (b * q0 + r)); nia. }
  rewrite Hd, Hm.
  assert (Hu4 : (2 * q + (if r =? 0 then 0 else 1)) / 4 = q2).
  { destruct (Z.eqb_spec r 0); Z.div_mod_to_equations; lia. }
  rewrite Hu4. f_equal.
  destruct (Z.eqb_spec r 0), (Z.eqb_spec (b * q0 + r) 0);
    repeat match goal with |- context [?x =? 0] => destruct (Z.eqb_spec x 0) end;
    try lia; Z.div_mod_to_equations; nia.
Qed.

Lemma sfloor_nonneg a b : 0 <= a -> 0 < b -> 0 <= sfloor a b.
Proof.
  intros Ha Hb. unfold sfloor.
  pose proof (Z.div_pos a b Ha Hb) as H. set (q := a / b) in *.
  destruct (a mod b =? 0); lia.
Qed.

Lemma urec_nonneg mrs : 0 <= urec mrs -> 0 <= shr_m mrs.
Proof.
  destruct mrs as [m r s]; unfold urec; cbn [shr_m shr_r shr_s].
  destruct r, s; cbn [Z.b2z]; lia.
Qed.

Lemma urec_iter_shr_1 p : forall mrs a b,
  0 <= a -> 0 < b -> urec mrs = sfloor a b ->
  urec (SpecFloat.iter_pos shr_1 p mrs) = sfloor a (b * 2 ^ Zpos p).
Proof.
  assert (step : forall mrs a b, 0 <= a -> 0 < b -> urec mrs = sfloor a b ->
                 urec (shr_1 mrs) = sfloor a (2 * b)).
  { intros mrs a b Ha Hb E. rewrite urec_shr_1, E; [now apply sticky_shift_sfloor|].
    apply urec_nonneg. rewrite E. now apply sfloor_nonneg. }
  induction p as [p IH|p IH|]; intros mrs a b Ha Hb E; cbn [SpecFloat.iter_pos].
  - rewrite (IH _ a (2 * b * 2 ^ Zpos p)); [| lia | lia |].
    + f_equal. replace (Zpos p~1) with (Zpos p + Zpos p + 1) by lia.
      rewrite !Z.pow_add_r by lia. change (2 ^ 1) with 2. ring.
    + apply IH; [lia | lia |]. now apply step.
  - rewrite (IH _ a (b * 2 ^ Zpos p)); [| lia | lia |].
    + f_equal. replace (Zpos p~0) with (Zpos p + Zpos p) by lia.
      rewrite Z.pow_add_r by lia. ring.
    + now apply IH.
  - rewrite (step mrs a b) by assumption. f_equal. change (2 ^ 1) with 2. ring.
Qed.

(** *** Rounding to nearest, ties to even, is monotone *)

Lemma round_nearest_even_rne4 mrs :
  round_nearest_even (shr_m mrs) (loc_of_shr_record mrs) = rne4 (urec mrs).
Proof.
  destruct mrs as [m r s]. unfold urec, rne4. cbn [shr_m shr_r shr_s].
  destruct r, s; cbn [loc_of_shr_record round_nearest_even Z.b2z];
    rewrite ?Z.even_spec; try (Z.div_mod_to_equations; lia).
  destruct (Z.even m) eqn:E.
  - apply Z.even_spec in E. destruct E as [k ->]. Z.div_mod_to_equations; lia.
  - assert (O : Z.odd m = true) by (rewrite <- Z.negb_even, E; reflexivity).
    apply Z.odd_spec in O. destruct O as [k ->]. Z.div_mod_to_equations; lia.
Qed.

Lemma rne4_mono u v : u <= v -> rne4 u <= rne4 v.
Proof. unfold rne4. intros H. Z.div_mod_to_equations; lia. Qed.

Lemma rne4_bounds u lo hi : lo <= u / 4 < hi -> lo <= rne4 u <= hi.
Proof. unfold rne4. intros H. Z.div_mod_to_equations; lia. Qed.

Lemma sfloor_mono a1 a2 b : 0 < b -> a1 <= a2 -> sfloor a1 b <= sfloor a2 b.
Proof.
  intros Hb H. unfold sfloor.
  destruct (Z.eqb_spec (a1 mod b) 0), (Z.eqb_spec (a2 mod b) 0);
    Z.div_mod_to_equations; nia.
Qed.

Lemma sfloor_div4 a b : 0 < b -> sfloor a b / 4 = a / (2 * b).
Proof.
  intros Hb. unfold sfloor.
  rewrite (Z.mul_comm 2 b), <- Z.div_div by lia.
  set (q := a / b). destruct (a mod b =? 0); Z.div_mod_to_equations; lia.
Qed.

Lemma sfloor_scale a b c : 0 < b -> 0 < c -> sfloor (c * a) (c * b) = sfloor a b.
Proof.
  intros Hb Hc. unfold sfloor.
  rewrite Z.div_mul_cancel_l by lia.
  rewrite Zmult_mod_distr_l.
  destruct (Z.eqb_spec (a mod b) 0), (Z.eqb_spec (c * (a mod b)) 0); nia.
Qed.

(** *** The number of binary digits *)

Lemma digits2_bounds p :
  2 ^ (Zpos (digits2_pos p) - 1) <= Zpos p < 2 ^ Zpos (digits2_pos p).
Proof.
  induction p as [p IH|p IH|]; cbn [digits2_pos].
  - rewrite Pos2Z.inj_succ.
    replace (Z.succ (Zpos (digits2_pos p)) - 1) with (Z.succ (Zpos (digits2_pos p) - 1)) by lia.
    rewrite !Z.pow_succ_r by lia. lia.
  - rewrite Pos2Z.inj_succ.
    replace (Z.succ (Zpos (digits2_pos p)) - 1) with (Z.succ (Zpos (digits2_pos p) - 1)) by lia.
    rewrite !Z.pow_succ_r by lia. lia.
  - simpl. lia.
Qed.

Lemma Zdigits2_unique m d : 0 < d -> 2 ^ (d - 1) <= m < 2 ^ d -> Zdigits2 m = d.
Proof.
  intros Hd [Hlo Hhi].
  assert (0 < m) by (pose proof (Z.pow_pos_nonneg 2 (d - 1)); lia).
  destruct m as [|p|p]; try lia. cbn [Zdigits2].
  pose proof (digits2_bounds p) as [Blo Bhi].
  set (k := Zpos (digits2_pos p)) in *.
  destruct (Z.lt_trichotomy k d) as [L|[E|G]]; [|assumption|].
  - pose proof (Z.pow_le_mono_r 2 k (d - 1) ltac:(lia) ltac:(lia)). lia.
  - pose proof (Z.pow_le_mono_r 2 d (k - 1) ltac:(lia) ltac:(lia)). lia.
Qed.

Lemma Zdigits2_bounds m : 0 < m -> 2 ^ (Zdigits2 m - 1) <= m < 2 ^ Zdigits2 m.
Proof. destruct m as [|p|p]; try lia. intros _. apply digits2_bounds. Qed.

(** *** What [binary_round_aux] computes

    On a mantissa of at least 53 digits, away from underflow and
    overflow, the rounding of the standard library is [fnorm] of the
    rounded sticky floor. *)

Lemma shr_sfloor mrs e n a b :
  0 <= a -> 0 < b -> 0 <= n -> urec mrs = sfloor a b ->
  exists mrs', shr mrs e n = (mrs', e + n) /\ urec mrs' = sfloor a (b * 2 ^ n).
Proof.
  intros Ha Hb Hn E. destruct n as [|p|p]; [| |lia].
  - exists mrs. cbn [shr]. split; [f_equal; lia|]. rewrite E. f_equal. change (2 ^ 0) with 1. lia.
  - exists (SpecFloat.iter_pos shr_1 p mrs). cbn [shr]. split; [reflexivity|].
    now apply urec_iter_shr_1.
Qed.

Lemma fexp_normal e : -1074 <= e - 53 -> fexp prec emax e = e - 53.
Proof. intros H. unfold fexp, emin, prec, emax. lia. Qed.

Lemma binary_round_aux_sfloor a b m l e :
  0 <= a -> 0 < b ->
  4 * m + lcode l = sfloor a b ->
  53 <= Zdigits2 m ->
  -1074 <= e + Zdigits2 m - 53 <= 970 ->
  binary_round_aux prec emax false m e l =
    fnorm (rne4 (sfloor a (b * 2 ^ (Zdigits2 m - 53)))) (e + Zdigits2 m - 53).
Proof.
  intros Ha Hb E Hd He.
  set (d := Zdigits2 m) in *.
  assert (Hm : 0 < m).
  { destruct m as [|p|p]; [cbn in d; lia | lia |].
    pose proof (sfloor_nonneg a b Ha Hb). destruct l as [|[]]; cbn [lcode] in E; lia. }
  pose proof (Zdigits2_bounds m Hm) as Bm. fold d in Bm.
  unfold binary_round_aux, shr_fexp. fold d.
  rewrite fexp_normal by lia.
  replace (d + e - 53 - e) with (d - 53) by lia.
  destruct (shr_sfloor (shr_record_of_loc m l) e (d - 53) a b Ha Hb ltac:(lia))
    as (mrs1 & -> & U1); [now rewrite urec_of_loc|].
  rewrite round_nearest_even_rne4, U1.
  set (B := b * 2 ^ (d - 53)) in *.
  assert (HB : 0 < B) by (pose proof (Z.pow_pos_nonneg 2 (d - 53)); nia).
  assert (Hq : sfloor a B / 4 = m / 2 ^ (d - 53)).
  { rewrite sfloor_div4 by assumption. unfold B.
    rewrite Z.mul_assoc, <- Z.div_div by (pose proof (Z.pow_pos_nonneg 2 (d - 53)); lia).
    f_equal. rewrite <- sfloor_div4, <- E by assumption.
    destruct l as [|[]]; cbn [lcode]; Z.div_mod_to_equations; lia. }
  assert (Hr : 2 ^ 52 <= m / 2 ^ (d - 53) < 2 ^ 53).
  { assert (P : 2 ^ (d - 1) = 2 ^ 52 * 2 ^ (d - 53)).
    { rewrite <- Z.pow_add_r by lia. f_equal. lia. }
    assert (Q : 2 ^ d = 2 ^ 53 * 2 ^ (d - 53)).
    { rewrite <- Z.pow_add_r by lia. f_equal. lia. }
    pose proof (Z.pow_pos_nonneg 2 (d - 53) ltac:(lia) ltac:(lia)) as Pp.
    split.
    - apply Z.div_le_lower_bound; lia.
    - apply Z.div_lt_upper_bound; lia. }
  pose proof (rne4_bounds (sfloor a B) (2 ^ 52) (2 ^ 53) ltac:(lia)) as HM.
  set (M := rne4 (sfloor a B)) in *.
  set (e' := e + (d - 53)).
  replace (e + d - 53) with e' by (unfold e'; lia).
  unfold fnorm.
  destruct (Z.eqb_spec M (2 ^ 53)) as [EM|NM].
  - rewrite EM. change (Zdigits2 (2 ^ 53)) with 54.
    rewrite fexp_normal by (unfold e'; lia).
    replace (54 + e' - 53 - e') with 1 by lia.
    cbn [shr_record_of_loc shr SpecFloat.iter_pos].
    change (shr_1 {| shr_m := 2 ^ 53; shr_r := false; shr_s := false |})
      with {| shr_m := 2 ^ 52; shr_r := false; shr_s := false |}.
    cbn [shr_m]. change (2 ^ 52) with (Zpos (Z.to_pos (2 ^ 52))) at 1.
    cbv iota beta.
    replace (e' + 1 <=? emax - prec) with true; [reflexivity|].
    symmetry. apply Z.leb_le. unfold emax, prec, e'. lia.
  - rewrite (Zdigits2_unique M 53) by lia.
    rewrite fexp_normal by (unfold e'; lia).
    replace (53 + e' - 53 - e') with 0 by lia.
    cbn [shr_record_of_loc shr shr_m].
    destruct M as [|p|p]; try lia.
    replace (e' <=? emax - prec) with true; [reflexivity|].
    symmetry. apply Z.leb_le. unfold emax, prec, e'. lia.
Qed.

(** *** Values, order and rescaling of rounded results *)

Lemma fnorm_scaled M E :
  2 ^ 52 <= M <= 2 ^ 53 -> -1074 <= E ->
  f64_scaled (fnorm M E) = M * 2 ^ (E + 1074).
Proof.
  intros HM HE. unfold fnorm.
  destruct (Z.eqb_spec M (2 ^ 53)) as [->|N]; cbn [f64_scaled].
  - rewrite Z2Pos.id by lia.
    replace (E + 1 + 1074) with (Z.succ (E + 1074)) by lia.
    rewrite Z.pow_succ_r by lia. change (2 ^ 53) with (2 ^ 52 * 2). ring.
  - rewrite Z2Pos.id by lia. reflexivity.
Qed.

Lemma fnorm_normal M E lo hi :
  2 ^ 52 <= M <= 2 ^ 53 -> lo <= E -> E + 1 <= hi -> normal_in lo hi (fnorm M E).
Proof.
  intros HM HE HE'. unfold fnorm.
  destruct (Z.eqb_spec M (2 ^ 53)) as [->|N]; cbn [normal_in].
  - rewrite Z2Pos.id by lia. lia.
  - rewrite Z2Pos.id by lia. lia.
Qed.

Lemma rne4_sfloor_bounds a b d :
  0 < b -> 53 <= d -> 2 ^ (d - 1) <= a / (2 * b) < 2 ^ d ->
  2 ^ 52 <= rne4 (sfloor a (b * 2 ^ (d - 53))) <= 2 ^ 53.
Proof.
  intros Hb Hd Ha.
  pose proof (Z.pow_pos_nonneg 2 (d - 53) ltac:(lia) ltac:(lia)) as Pp.
  apply rne4_bounds.
  rewrite sfloor_div4 by nia.
  rewrite Z.mul_assoc, <- Z.div_div by lia.
  assert (P : 2 ^ (d - 1) = 2 ^ 52 * 2 ^ (d - 53)).
  { rewrite <- Z.pow_add_r by lia. f_equal. lia. }
  assert (Q : 2 ^ d = 2 ^ 53 * 2 ^ (d - 53)).
  { rewrite <- Z.pow_add_r by lia. f_equal. lia. }
  split.
  - apply Z.div_le_lower_bound; lia.
  - apply Z.div_lt_upper_bound; lia.
Qed.

Lemma Zdigits2_mono m1 m2 : 0 < m1 <= m2 -> Zdigits2 m1 <= Zdigits2 m2.
Proof.
  intros H.
  pose proof (Zdigits2_bounds m1 ltac:(lia)) as B1.
  pose proof (Zdigits2_bounds m2 ltac:(lia)) as B2.
  destruct (Z.le_gt_cases (Zdigits2 m1) (Zdigits2 m2)) as [L|G]; [assumption|].
  pose proof (Z.pow_le_mono_r 2 (Zdigits2 m2) (Zdigits2 m1 - 1) ltac:(lia) ltac:(lia)). lia.
Qed.

Lemma quot_pos_of_digits a b :
  0 <= a -> 0 < b -> 53 <= Zdigits2 (a / (2 * b)) -> 0 < a / (2 * b).
Proof.
  intros Ha Hb Hd. pose proof (Z.div_pos a (2 * b) Ha ltac:(lia)) as Hq.
  destruct (a / (2 * b)) as [|p|p]; [cbn in Hd; lia | lia | lia].
Qed.

Lemma rnd_scaled a b e :
  0 <= a -> 0 < b ->
  53 <= Zdigits2 (a / (2 * b)) -> -1074 <= e + Zdigits2 (a / (2 * b)) - 53 ->
  2 ^ 52 <= rne4 (sfloor a (b * 2 ^ (Zdigits2 (a / (2 * b)) - 53))) <= 2 ^ 53 /\
  f64_scaled (rnd a b e) =
    rne4 (sfloor a (b * 2 ^ (Zdigits2 (a / (2 * b)) - 53))) *
    2 ^ (e + Zdigits2 (a / (2 * b)) - 53 + 1074).
Proof.
  intros Ha Hb Hd He. unfold rnd.
  pose proof (quot_pos_of_digits a b Ha Hb Hd) as Hq.
  pose proof (Zdigits2_bounds _ Hq) as Bq.
  set (d := Zdigits2 (a / (2 * b))) in *.
  pose proof (rne4_sfloor_bounds a b d Hb Hd Bq) as HM.
  split; [assumption|]. now apply fnorm_scaled.
Qed.

Lemma rnd_normal a b e lo hi :
  0 <= a -> 0 < b ->
  53 <= Zdigits2 (a / (2 * b)) ->
  lo <= e + Zdigits2 (a / (2 * b)) - 53 -> e + Zdigits2 (a / (2 * b)) - 53 + 1 <= hi ->
  normal_in lo hi (rnd a b e).
Proof.
  intros Ha Hb Hd He He'. unfold rnd.
  pose proof (quot_pos_of_digits a b Ha Hb Hd) as Hq.
  pose proof (Zdigits2_bounds _ Hq) as Bq.
  set (d := Zdigits2 (a / (2 * b))) in *.
  pose proof (rne4_sfloor_bounds a b d Hb Hd Bq) as HM.
  now apply fnorm_normal.
Qed.

Lemma rnd_mono a1 a2 b e :
  0 <= a1 <= a2 -> 0 < b ->
  53 <= Zdigits2 (a1 / (2 * b)) -> -1074 <= e + Zdigits2 (a1 / (2 * b)) - 53 ->
  f64_scaled (rnd a1 b e) <= f64_scaled (rnd a2 b e).
Proof.
  intros Ha Hb Hd He.
  pose proof (quot_pos_of_digits a1 b ltac:(lia) Hb Hd) as Hq1.
  assert (Hq : a1 / (2 * b) <= a2 / (2 * b)) by (apply Z.div_le_mono; lia).
  pose proof (Zdigits2_mono _ _ (conj Hq1 Hq)) as Hdd.
  destruct (rnd_scaled a1 b e ltac:(lia) Hb Hd He) as [B1 ->].
  destruct (rnd_scaled a2 b e ltac:(lia) Hb ltac:(lia) ltac:(lia)) as [B2 ->].
  set (d1 := Zdigits2 (a1 / (2 * b))) in *.
  set (d2 := Zdigits2 (a2 / (2 * b))) in *.
  set (M1 := rne4 (sfloor a1 (b * 2 ^ (d1 - 53)))) in *.
  set (M2 := rne4 (sfloor a2 (b * 2 ^ (d2 - 53)))) in *.
  destruct (Z.eq_dec d1 d2) as [E|N].
  - assert (M1 <= M2).
    { unfold M1, M2. rewrite E. apply rne4_mono, sfloor_mono; [|lia].
      pose proof (Z.pow_pos_nonneg 2 (d2 - 53) ltac:(lia) ltac:(lia)). nia. }
    rewrite E. apply Z.mul_le_mono_nonneg_r; [apply Z.pow_nonneg|]; lia.
  - assert (L : e + d1 - 53 + 1074 + 1 <= e + d2 - 53 + 1074) by lia.
    pose proof (Z.pow_le_mono_r 2 _ _ ltac:(lia) L) as P.
    rewrite Z.pow_add_r in P by lia. change (2 ^ 1) with 2 in P.
    pose proof (Z.pow_pos_nonneg 2 (e + d1 - 53 + 1074) ltac:(lia) ltac:(lia)).
    change (2 ^ 53) with (2 ^ 52 * 2) in B1. nia.
Qed.

Lemma rnd_rescale a b e k :
  0 <= a -> 0 < b -> 0 <= k -> 53 <= Zdigits2 (a / (2 * b)) ->
  rnd (2 ^ k * a) b e = rnd a b (e + k).
Proof.
  intros Ha Hb Hk L53.
  pose proof (quot_pos_of_digits a b Ha Hb L53) as Hq. unfold rnd.
  pose proof (Zdigits2_bounds _ Hq) as Bq.
  set (d := Zdigits2 (a / (2 * b))) in *.
  pose proof (Z.pow_pos_nonneg 2 k ltac:(lia) Hk) as Pk.
  assert (D : Zdigits2 (2 ^ k * a / (2 * b)) = d + k).
  { apply Zdigits2_unique; [lia|].
    pose proof (Z.pow_pos_nonneg 2 (d - 1) ltac:(lia) ltac:(lia)) as Pd.
    replace (d + k - 1) with (k + (d - 1)) by lia.
    replace (d + k) with (k + d) by lia.
    rewrite !Z.pow_add_r by lia.
    assert (L : 2 ^ (d - 1) * (2 * b) <= a).
    { pose proof (Z.mul_div_le a (2 * b) ltac:(lia)). nia. }
    assert (U : a < 2 ^ d * (2 * b)).
    { pose proof (Z.mod_pos_bound a (2 * b) ltac:(lia)).
      pose proof (Z.div_mod a (2 * b) ltac:(lia)). nia. }
    split.
    - apply Z.div_le_lower_bound; [lia|]. nia.
    - apply Z.div_lt_upper_bound; [lia|]. nia. }
  rewrite D. f_equal; [|lia]. f_equal.
  replace (d + k - 53) with (k + (d - 53)) by lia.
  rewrite Z.pow_add_r by lia.
  replace (b * (2 ^ k * 2 ^ (d - 53))) with (2 ^ k * (b * 2 ^ (d - 53))) by ring.
  apply sfloor_scale; [|lia].
  pose proof (Z.pow_pos_nonneg 2 (d - 53) ltac:(lia) ltac:(lia)). nia.
Qed.

(** *** Conversion of an unsigned 64-bit integer *)

Lemma Pos_iter_xO m k : Zpos (Pos.iter xO m k) = Zpos m * 2 ^ Zpos k.
Proof.
  induction k as [|k IH] using Pos.peano_ind.
  - cbn [Pos.iter]. change (2 ^ 1) with 2. lia.
  - rewrite Pos.iter_succ, Pos2Z.inj_xO, IH, Pos2Z.inj_succ, Z.pow_succ_r by lia. ring.
Qed.

Lemma shl_align_ge mx ex ex' : ex <= ex' -> shl_align mx ex ex' = (mx, ex).
Proof. intros H. unfold shl_align. destruct (ex' - ex) eqn:E; try reflexivity. lia. Qed.

Lemma shl_align_lt mx ex ex' :
  ex' < ex -> shl_align mx ex ex' = (Pos.iter xO mx (Z.to_pos (ex - ex')), ex').
Proof.
  intros H. unfold shl_align. destruct (ex' - ex) as [|k|k] eqn:E; try lia.
  do 2 f_equal. lia.
Qed.

Lemma shl_align_fst mx ex ex' :
  ex' <= ex -> Zpos (fst (shl_align mx ex ex')) = Zpos mx * 2 ^ (ex - ex').
Proof.
  intros H. destruct (Z.eq_dec ex ex') as [->|N].
  - rewrite shl_align_ge by lia. rewrite Z.sub_diag. cbn [fst]. change (2 ^ 0) with 1. lia.
  - rewrite shl_align_lt by lia. cbn [fst]. rewrite Pos_iter_xO. rewrite Z2Pos.id by lia. reflexivity.
Qed.

Lemma f64_of_u64_large n :
  2 ^ 52 <= n < 2 ^ 64 -> f64_of_u64 n = rnd (2 * n) 1 0.
Proof.
  intros Hn. destruct n as [|p|p]; try lia.
  unfold f64_of_u64, binary_normalize, binary_round.
  pose proof (digits2_bounds p) as Bd.
  set (d := Zpos (digits2_pos p)) in *.
  assert (Hd : 53 <= d <= 64).
  { split.
    - destruct (Z.le_gt_cases 53 d); [assumption|].
      pose proof (Z.pow_le_mono_r 2 d 52 ltac:(lia) ltac:(lia)). lia.
    - destruct (Z.le_gt_cases d 64); [assumption|].
      pose proof (Z.pow_le_mono_r 2 64 (d - 1) ltac:(lia) ltac:(lia)). lia. }
  rewrite fexp_normal by lia.
  rewrite shl_align_ge by lia.
  rewrite (binary_round_aux_sfloor (2 * Zpos p) 1).
  - unfold rnd.
    assert (Q : 2 * Zpos p / (2 * 1) = Zpos p).
    { rewrite Z.div_mul_cancel_l by lia. apply Z.div_1_r. }
    rewrite Q. reflexivity.
  - lia.
  - lia.
  - unfold sfloor. rewrite Z.div_1_r, Z.mod_1_r. cbn [lcode Z.eqb]. lia.
  - change (Zdigits2 (Zpos p)) with d. lia.
  - change (Zdigits2 (Zpos p)) with d. lia.
Qed.

Lemma f64_of_u64_small n :
  0 < n < 2 ^ 52 ->
  f64_of_u64 n =
    S754_finite false (Z.to_pos (n * 2 ^ (53 - Zdigits2 n))) (Zdigits2 n - 53).
Proof.
  intros Hn. destruct n as [|p|p]; try lia.
  unfold f64_of_u64, binary_normalize, binary_round. cbn [Zdigits2].
  pose proof (digits2_bounds p) as Bd.
  set (d := Zpos (digits2_pos p)) in *.
  assert (Hd : 0 < d <= 52).
  { split; [unfold d; lia|].
    destruct (Z.le_gt_cases d 52); [assumption|].
    pose proof (Z.pow_le_mono_r 2 52 (d - 1) ltac:(lia) ltac:(lia)). lia. }
  rewrite fexp_normal by lia.
  rewrite shl_align_lt by lia.
  set (mz := Pos.iter xO p (Z.to_pos (0 - (d + 0 - 53)))).
  assert (Hmz : Zpos mz = Zpos p * 2 ^ (53 - d)).
  { unfold mz. rewrite Pos_iter_xO. rewrite Z2Pos.id by lia. do 2 f_equal. lia. }
  assert (Bmz : 2 ^ 52 <= Zpos mz < 2 ^ 53).
  { rewrite Hmz.
    assert (P : 2 ^ 52 = 2 ^ (d - 1) * 2 ^ (53 - d)).
    { rewrite <- Z.pow_add_r by lia. f_equal. lia. }
    assert (Q : 2 ^ 53 = 2 ^ d * 2 ^ (53 - d)).
    { rewrite <- Z.pow_add_r by lia. f_equal. lia. }
    pose proof (Z.pow_pos_nonneg 2 (53 - d) ltac:(lia) ltac:(lia)). nia. }
  assert (Dmz : Zdigits2 (Zpos mz) = 53) by (apply Zdigits2_unique; lia).
  rewrite (binary_round_aux_sfloor (2 * Zpos mz) 1).
  - rewrite Dmz. change (2 ^ (53 - 53)) with 1.
    assert (R : rne4 (sfloor (2 * Zpos mz) (1 * 1)) = Zpos mz).
    { unfold sfloor, rne4. rewrite Z.div_1_r, Z.mod_1_r. cbn [Z.eqb].
      Z.div_mod_to_equations; lia. }
    rewrite R. unfold fnorm.
    destruct (Z.eqb_spec (Zpos mz) (2 ^ 53)); [lia|].
    rewrite <- Hmz. cbn [Z.to_pos]. f_equal. lia.
  - lia.
  - lia.
  - unfold sfloor. rewrite Z.div_1_r, Z.mod_1_r. cbn [lcode Z.eqb]. lia.
  - lia.
  - rewrite Dmz. lia.
Qed.

Lemma digits_range n lo hi :
  0 <= lo -> 2 ^ lo <= n < 2 ^ hi -> lo + 1 <= Zdigits2 n <= hi.
Proof.
  intros Hlo [L U].
  assert (Hn : 0 < n) by (pose proof (Z.pow_pos_nonneg 2 lo); lia).
  pose proof (Zdigits2_bounds n Hn) as [Bl Bu].
  set (d := Zdigits2 n) in *.
  assert (0 < d).
  { destruct n as [|p|p]; try lia. unfold d. cbn. lia. }
  split.
  - destruct (Z.le_gt_cases (lo + 1) d); [assumption|].
    pose proof (Z.pow_le_mono_r 2 d lo ltac:(lia) ltac:(lia)). lia.
  - destruct (Z.le_gt_cases d hi); [assumption|].
    destruct (Z.le_gt_cases 0 hi).
    + pose proof (Z.pow_le_mono_r 2 hi (d - 1) ltac:(lia) ltac:(lia)). lia.
    + rewrite Z.pow_neg_r in U by lia. lia.
Qed.

Lemma f64_of_u64_zero : f64_of_u64 0 = S754_zero false.
Proof. reflexivity. Qed.

Lemma f64_of_u64_normal n :
  0 < n < 2 ^ 64 -> normal_in (-52) 12 (f64_of_u64 n).
Proof.
  intros Hn. destruct (Z.lt_ge_cases n (2 ^ 52)) as [S|L].
  - rewrite f64_of_u64_small by lia.
    assert (Hd : 0 + 1 <= Zdigits2 n <= 52) by (apply digits_range; [lia|]; change (2 ^ 0) with 1; lia).
    pose proof (Zdigits2_bounds n ltac:(lia)) as Bd.
    set (d := Zdigits2 n) in *. cbn [normal_in].
    assert (P : 2 ^ 52 = 2 ^ (d - 1) * 2 ^ (53 - d)).
    { rewrite <- Z.pow_add_r by lia. f_equal. lia. }
    assert (Q : 2 ^ 53 = 2 ^ d * 2 ^ (53 - d)).
    { rewrite <- Z.pow_add_r by lia. f_equal. lia. }
    pose proof (Z.pow_pos_nonneg 2 (53 - d) ltac:(lia) ltac:(lia)).
    rewrite Z2Pos.id by nia. split; [nia | lia].
  - rewrite f64_of_u64_large by lia.
    assert (Q : 2 * n / (2 * 1) = n).
    { rewrite Z.div_mul_cancel_l by lia. apply Z.div_1_r. }
    assert (Hd : 52 + 1 <= Zdigits2 n <= 64) by (apply digits_range; lia).
    apply rnd_normal; rewrite ?Q; lia.
Qed.

Lemma f64_of_u64_scaled_small n :
  0 <= n < 2 ^ 52 -> f64_scaled (f64_of_u64 n) = n * 2 ^ 1074.
Proof.
  intros Hn. destruct (Z.eq_dec n 0) as [->|N]; [reflexivity|].
  rewrite f64_of_u64_small by lia.
  assert (Hd : 0 + 1 <= Zdigits2 n <= 52) by (apply digits_range; [lia|]; change (2 ^ 0) with 1; lia).
  set (d := Zdigits2 n) in *. cbn [f64_scaled].
  pose proof (Z.pow_pos_nonneg 2 (53 - d) ltac:(lia) ltac:(lia)).
  rewrite Z2Pos.id by nia.
  assert (E : 2 ^ 1074 = 2 ^ (53 - d) * 2 ^ (d - 53 + 1074)).
  { rewrite <- Z.pow_add_r by lia. f_equal. lia. }
  rewrite E. ring.
Qed.

Lemma f64_scaled_nonneg x : 0 <= f64_scaled x.
Proof.
  destruct x as [s|s| |[] m e]; cbn [f64_scaled]; try lia.
Qed.

Lemma f64_of_u64_scaled_large n :
  2 ^ 52 <= n < 2 ^ 64 -> 2 ^ 52 * 2 ^ 1074 <= f64_scaled (f64_of_u64 n).
Proof.
  intros Hn. rewrite f64_of_u64_large by lia.
  assert (Q : 2 * n / (2 * 1) = n).
  { rewrite Z.div_mul_cancel_l by lia. apply Z.div_1_r. }
  assert (Hd : 52 + 1 <= Zdigits2 n <= 64) by (apply digits_range; lia).
  destruct (rnd_scaled (2 * n) 1 0) as [B E]; rewrite ?Q; try lia.
  rewrite E, Q in *. clear E.
  set (M := rne4 _) in *.
  pose proof (Z.pow_le_mono_r 2 1074 (0 + Zdigits2 n - 53 + 1074) ltac:(lia) ltac:(lia)).
  pose proof (Z.pow_pos_nonneg 2 1074 ltac:(lia) ltac:(lia)). nia.
Qed.

Lemma f64_of_u64_mono n1 n2 :
  0 <= n1 <= n2 -> n2 < 2 ^ 64 ->
  f64_scaled (f64_of_u64 n1) <= f64_scaled (f64_of_u64 n2).
Proof.
  intros Hn H2.
  destruct (Z.lt_ge_cases n1 (2 ^ 52)) as [S1|L1].
  - rewrite (f64_of_u64_scaled_small n1) by lia.
    destruct (Z.lt_ge_cases n2 (2 ^ 52)) as [S2|L2].
    + rewrite (f64_of_u64_scaled_small n2) by lia.
      apply Z.mul_le_mono_nonneg_r; [apply Z.pow_nonneg|]; lia.
    + pose proof (f64_of_u64_scaled_large n2 ltac:(lia)).
      pose proof (Z.pow_pos_nonneg 2 1074 ltac:(lia) ltac:(lia)). nia.
  - rewrite !f64_of_u64_large by lia.
    assert (Q : 2 * n1 / (2 * 1) = n1).
    { rewrite Z.div_mul_cancel_l by lia. apply Z.div_1_r. }
    assert (Hd : 52 + 1 <= Zdigits2 n1 <= 64) by (apply digits_range; lia).
    apply rnd_mono; rewrite ?Q; lia.
Qed.

(** *** Division by a positive normal number *)

Lemma new_location_sfloor b q r :
  0 < b -> 0 <= r < b ->
  4 * q + lcode (new_location b r) = sfloor (2 * (b * q + r)) b.
Proof.
  intros Hb Hr. unfold sfloor.
  assert (D : forall k r', 0 <= r' < b -> 2 * (b * q + r) = b * k + r' ->
              2 * (b * q + r) / b = k /\ (2 * (b * q + r)) mod b = r').
  { intros k r' Hr' E. split.
    - symmetry. apply (Z.div_unique _ b k r'); [lia|exact E].
    - symmetry. apply (Z.mod_unique _ b k r'); [lia|exact E]. }
  unfold new_location.
  destruct (Z.even b) eqn:Eb; [unfold new_location_even | unfold new_location_odd];
    destruct (Z.eqb_spec r 0) as [->|Nr].
  - destruct (D (2 * q) 0 ltac:(lia) ltac:(lia)) as [-> ->]. cbn [lcode Z.eqb]. lia.
  - destruct (Z.compare_spec (2 * r) b) as [E|L|G]; cbn [lcode].
    + destruct (D (2 * q + 1) 0 ltac:(lia) ltac:(lia)) as [-> ->]. cbn [Z.eqb]. lia.
    + destruct (D (2 * q) (2 * r) ltac:(lia) ltac:(lia)) as [-> ->].
      destruct (Z.eqb_spec (2 * r) 0); lia.
    + destruct (D (2 * q + 1) (2 * r - b) ltac:(lia) ltac:(lia)) as [-> ->].
      destruct (Z.eqb_spec (2 * r - b) 0); lia.
  - destruct (D (2 * q) 0 ltac:(lia) ltac:(lia)) as [-> ->]. cbn [lcode Z.eqb]. lia.
  - assert (Ob : Z.odd b = true) by (rewrite <- Z.negb_even, Eb; reflexivity).
    apply Z.odd_spec in Ob. destruct Ob as [h Hh].
    destruct (Z.compare_spec (2 * r + 1) b) as [E|L|G]; cbn [lcode].
    + destruct (D (2 * q) (2 * r) ltac:(lia) ltac:(lia)) as [-> ->].
      destruct (Z.eqb_spec (2 * r) 0); lia.
    + destruct (D (2 * q) (2 * r) ltac:(lia) ltac:(lia)) as [-> ->].
      destruct (Z.eqb_spec (2 * r) 0); lia.
    + destruct (D (2 * q + 1) (2 * r - b) ltac:(lia) ltac:(lia)) as [-> ->].
      destruct (Z.eqb_spec (2 * r - b) 0); lia.
Qed.

Lemma f64_div_rnd mx ex my ey :
  2 ^ 52 <= Zpos mx < 2 ^ 53 -> 2 ^ 52 <= Zpos my < 2 ^ 53 ->
  -1000 <= ex - ey <= 1000 ->
  f64_div (S754_finite false mx ex) (S754_finite false my ey) =
    rnd (2 * (Zpos mx * 2 ^ 53)) (Zpos my) (ex - ey - 53).
Proof.
  intros Hx Hy He. unfold f64_div, SFdiv, SFdiv_core_binary.
  rewrite (Zdigits2_unique (Zpos mx) 53), (Zdigits2_unique (Zpos my) 53) by lia.
  rewrite fexp_normal by lia.
  rewrite Z.min_l by lia.
  replace (ex - ey - (53 + ex - (53 + ey) - 53)) with 53 by lia.
  cbv iota beta. rewrite Z.shiftl_mul_pow2 by lia.
  set (m' := Zpos mx * 2 ^ 53).
  pose proof (Z.div_mod m' (Zpos my) ltac:(lia)) as Edm.
  pose proof (Z.mod_pos_bound m' (Zpos my) ltac:(lia)) as Bm.
  unfold Z.div, Z.modulo in Edm, Bm.
  destruct (Z.div_eucl m' (Zpos my)) as [q r] eqn:E.
  cbn [xorb].
  assert (Hq : 2 ^ 52 <= q < 2 ^ 54).
  { unfold m' in Edm. change (2 ^ 54) with (2 ^ 53 * 2). change (2 ^ 53) with (2 ^ 52 * 2) in *. nia. }
  assert (Dq : 52 + 1 <= Zdigits2 q <= 54) by (apply digits_range; lia).
  assert (Q : 2 * m' / (2 * Zpos my) = q).
  { rewrite Z.div_mul_cancel_l by lia. unfold Z.div. now rewrite E. }
  rewrite (binary_round_aux_sfloor (2 * m') (Zpos my)).
  - unfold rnd. rewrite Q. f_equal. lia.
  - unfold m'. lia.
  - lia.
  - rewrite Edm. apply new_location_sfloor; lia.
  - lia.
  - lia.
Qed.

Lemma div_quot_digits mx my :
  2 ^ 52 <= mx < 2 ^ 53 -> 2 ^ 52 <= my < 2 ^ 53 ->
  53 <= Zdigits2 (2 * (mx * 2 ^ 53) / (2 * my)) <= 54.
Proof.
  intros Hx Hy. rewrite Z.div_mul_cancel_l by lia.
  assert (Hq : 2 ^ 52 <= mx * 2 ^ 53 / my < 2 ^ 54).
  { split.
    - apply Z.div_le_lower_bound; [lia|]. nia.
    - apply Z.div_lt_upper_bound; [lia|].
      change (2 ^ 54) with (2 ^ 53 * 2). change (2 ^ 53) with (2 ^ 52 * 2) in *. nia. }
  pose proof (digits_range _ 52 54 ltac:(lia) Hq). lia.
Qed.

Lemma normal_order m1 e1 m2 e2 :
  2 ^ 52 <= Zpos m1 < 2 ^ 53 -> 2 ^ 52 <= Zpos m2 < 2 ^ 53 ->
  -1074 <= e1 -> -1074 <= e2 ->
  f64_scaled (S754_finite false m1 e1) <= f64_scaled (S754_finite false m2 e2) ->
  e1 < e2 \/ (e1 = e2 /\ Zpos m1 <= Zpos m2).
Proof.
  intros H1 H2 He1 He2. cbn [f64_scaled]. intros H.
  destruct (Z.lt_trichotomy e1 e2) as [L|[E|G]]; [now left| |].
  - right. split; [assumption|]. subst e2.
    pose proof (Z.pow_pos_nonneg 2 (e1 + 1074) ltac:(lia) ltac:(lia)). nia.
  - exfalso.
    pose proof (Z.pow_le_mono_r 2 (e2 + 1074 + 1) (e1 + 1074) ltac:(lia) ltac:(lia)) as P.
    rewrite Z.pow_add_r in P by lia. change (2 ^ 1) with 2 in P.
    pose proof (Z.pow_pos_nonneg 2 (e2 + 1074) ltac:(lia) ltac:(lia)).
    change (2 ^ 53) with (2 ^ 52 * 2) in *. nia.
Qed.

Lemma f64_div_mono x1 x2 my ey :
  normal_in (-500) 500 x1 -> normal_in (-500) 500 x2 ->
  2 ^ 52 <= Zpos my < 2 ^ 53 -> -500 <= ey <= 500 ->
  f64_scaled x1 <= f64_scaled x2 ->
  f64_scaled (f64_div x1 (S754_finite false my ey)) <=
  f64_scaled (f64_div x2 (S754_finite false my ey)).
Proof.
  intros N1 N2 Hy Hey H.
  destruct x1 as [| | |[] m1 e1]; try contradiction.
  destruct x2 as [| | |[] m2 e2]; try contradiction.
  cbn [normal_in] in N1, N2. destruct N1 as [M1 E1], N2 as [M2 E2].
  rewrite !f64_div_rnd by lia.
  pose proof (div_quot_digits _ _ M1 Hy) as D1.
  pose proof (div_quot_digits _ _ M2 Hy) as D2.
  destruct (normal_order m1 e1 m2 e2 M1 M2 ltac:(lia) ltac:(lia) H) as [L|[-> Le]].
  - set (k := e2 - e1).
    replace (e2 - ey - 53) with ((e1 - ey - 53) + k) by (unfold k; lia).
    rewrite <- rnd_rescale by lia.
    apply rnd_mono; try lia.
    pose proof (Z.pow_le_mono_r 2 1 k ltac:(lia) ltac:(unfold k; lia)) as P.
    change (2 ^ 1) with 2 in P. set (X := 2 ^ k) in *.
    assert (Zpos m1 <= X * Zpos m2) by nia. nia.
  - apply rnd_mono; try lia.
Qed.

Lemma f64_div_normal x my ey :
  normal_in (-500) 500 x -> 2 ^ 52 <= Zpos my < 2 ^ 53 -> -500 <= ey <= 500 ->
  normal_in (-1074) 971 (f64_div x (S754_finite false my ey)).
Proof.
  intros N Hy Hey.
  destruct x as [| | |[] m e]; try contradiction.
  cbn [normal_in] in N. destruct N as [M E].
  rewrite f64_div_rnd by lia.
  pose proof (div_quot_digits _ _ M Hy) as D.
  apply rnd_normal; lia.
Qed.

(** *** Signs, subtraction and comparison *)

Lemma shr_1_nonneg mrs : 0 <= shr_m mrs -> 0 <= shr_m (shr_1 mrs).
Proof.
  destruct mrs as [m r s]. cbn [shr_m]. intros H.
  destruct m as [|[p|p|]|p]; cbn [shr_1 shr_m]; lia.
Qed.

Lemma iter_shr_1_nonneg p : forall mrs, 0 <= shr_m mrs -> 0 <= shr_m (SpecFloat.iter_pos shr_1 p mrs).
Proof.
  induction p as [p IH|p IH|]; intros mrs H; cbn [SpecFloat.iter_pos].
  - apply IH, IH, shr_1_nonneg, H.
  - apply IH, IH, H.
  - apply shr_1_nonneg, H.
Qed.

Lemma shr_nonneg mrs e n : 0 <= shr_m mrs -> 0 <= shr_m (fst (shr mrs e n)).
Proof.
  intros H. destruct n as [|p|p]; cbn [shr fst]; try assumption.
  now apply iter_shr_1_nonneg.
Qed.

Lemma shr_record_of_loc_m m l : shr_m (shr_record_of_loc m l) = m.
Proof. destruct l as [|[]]; reflexivity. Qed.

Lemma round_nearest_even_nonneg m l : 0 <= m -> 0 <= round_nearest_even m l.
Proof.
  intros H. destruct l as [|[]]; cbn [round_nearest_even]; try lia.
  destruct (Z.even m); lia.
Qed.

Lemma binary_round_aux_sign m e l :
  0 <= m -> sign_clear (binary_round_aux prec emax false m e l).
Proof.
  intros Hm. unfold binary_round_aux, shr_fexp.
  set (n1 := fexp prec emax (Zdigits2 m + e) - e).
  pose proof (shr_nonneg (shr_record_of_loc m l) e n1) as H1.
  rewrite shr_record_of_loc_m in H1. specialize (H1 Hm).
  destruct (shr (shr_record_of_loc m l) e n1) as [mrs' e'].
  cbn [fst] in H1.
  set (m2 := round_nearest_even (shr_m mrs') (loc_of_shr_record mrs')).
  assert (H2 : 0 <= m2) by now apply round_nearest_even_nonneg.
  set (n2 := fexp prec emax (Zdigits2 m2 + e') - e').
  pose proof (shr_nonneg (shr_record_of_loc m2 loc_Exact) e' n2) as H3.
  rewrite shr_record_of_loc_m in H3. specialize (H3 H2).
  destruct (shr (shr_record_of_loc m2 loc_Exact) e' n2) as [mrs'' e''].
  cbn [fst] in H3.
  destruct (shr_m mrs'') as [|p|p]; cbn [sign_clear]; try reflexivity; try lia.
  destruct (e'' <=? emax - prec); reflexivity.
Qed.

Lemma binary_normalize_sign m e : 0 <= m -> sign_clear (binary_normalize prec emax m e false).
Proof.
  intros Hm. destruct m as [|p|p]; cbn [binary_normalize]; [reflexivity| |lia].
  unfold binary_round.
  destruct (shl_align p e _) as [mz ez]. apply binary_round_aux_sign. lia.
Qed.

Lemma sign_clear_leb x : sign_clear x -> f64_leb (S754_zero false) x = true.
Proof.
  destruct x as [s|s| |s m e]; cbn [sign_clear]; intros H; try contradiction; subst;
    reflexivity.
Qed.

Lemma f64_sub_sign x y :
  normal_in (-1074) 971 x -> normal_in (-1074) 971 y ->
  f64_scaled y <= f64_scaled x -> sign_clear (f64_sub x y).
Proof.
  intros Nx Ny H.
  destruct x as [| | |[] mx ex]; try contradiction.
  destruct y as [| | |[] my ey]; try contradiction.
  cbn [normal_in] in Nx, Ny. cbn [f64_scaled] in H.
  unfold f64_sub, SFsub. cbn [cond_Zopp].
  apply binary_normalize_sign.
  set (ez := Z.min ex ey).
  rewrite !shl_align_fst by (unfold ez; lia).
  assert (Px : 2 ^ (ex + 1074) = 2 ^ (ex - ez) * 2 ^ (ez + 1074)).
  { rewrite <- Z.pow_add_r by (unfold ez; lia). f_equal. lia. }
  assert (Py : 2 ^ (ey + 1074) = 2 ^ (ey - ez) * 2 ^ (ez + 1074)).
  { rewrite <- Z.pow_add_r by (unfold ez; lia). f_equal. lia. }
  pose proof (Z.pow_pos_nonneg 2 (ez + 1074) ltac:(lia) ltac:(unfold ez; lia)).
  rewrite Px, Py in H. nia.
Qed.

Lemma normal_leb x y :
  normal_in (-1074) 971 x -> normal_in (-1074) 971 y ->
  f64_scaled x <= f64_scaled y -> f64_leb x y = true.
Proof.
  intros Nx Ny H.
  destruct x as [| | |[] mx ex]; try contradiction.
  destruct y as [| | |[] my ey]; try contradiction.
  cbn [normal_in] in Nx, Ny.
  destruct (normal_order mx ex my ey) as [L|[-> Le]]; try lia; try assumption.
  - unfold f64_leb, SFleb, SFcompare. rewrite (proj2 (Z.compare_lt_iff ex ey) L). reflexivity.
  - unfold f64_leb, SFleb, SFcompare. rewrite Z.compare_refl.
    change (Pos.compare_cont Eq mx my) with (Pos.compare mx my).
    destruct (Pos.compare_spec mx my); try reflexivity. lia.
Qed.

(** ** The arithmetic of the file: milliseconds from nanoseconds *)

Lemma f64_one_value : f64_one = f64_of_u64 1.
Proof. vm_compute. reflexivity. Qed.

Lemma f64_minus_one_value : f64_minus_one = SFopp (f64_of_u64 1).
Proof. vm_compute. reflexivity. Qed.

Lemma NANOS_PER_MILLIS_value : NANOS_PER_MILLIS = f64_of_u64 1000000.
Proof. vm_compute. reflexivity. Qed.

Lemma NANOS_PER_MILLIS_scaled : f64_scaled NANOS_PER_MILLIS = 1000000 * 2 ^ 1074.
Proof. vm_compute. reflexivity. Qed.

Lemma f64_of_u64_shape n :
  is_u64 n ->
  (n = 0 /\ f64_of_u64 n = S754_zero false) \/
  (0 < n /\ normal_in (-52) 12 (f64_of_u64 n)).
Proof.
  intros [Hlo Hhi]. destruct (Z.eq_dec n 0) as [->|N].
  - left. split; reflexivity.
  - right. split; [lia|]. apply f64_of_u64_normal. lia.
Qed.

Lemma normal_in_weaken lo hi lo' hi' x :
  lo' <= lo -> hi <= hi' -> normal_in lo hi x -> normal_in lo' hi' x.
Proof.
  intros Hlo Hhi. destruct x as [s|s| |[] m e]; cbn [normal_in]; try tauto. lia.
Qed.

Lemma millis_of_nanos_shape n :
  is_u64 n ->
  (n = 0 /\ millis_of_nanos n = S754_zero false) \/
  (0 < n /\ normal_in (-1074) 971 (millis_of_nanos n)).
Proof.
  intros Hn. destruct (f64_of_u64_shape n Hn) as [[-> E]|[Hp N]].
  - left. split; reflexivity.
  - right. split; [assumption|]. unfold millis_of_nanos, NANOS_PER_MILLIS.
    apply f64_div_normal; [|lia|lia].
    eapply normal_in_weaken; [| |exact N]; lia.
Qed.

Lemma millis_of_nanos_mono n1 n2 :
  0 <= n1 <= n2 -> n2 < 2 ^ 64 ->
  f64_scaled (millis_of_nanos n1) <= f64_scaled (millis_of_nanos n2).
Proof.
  intros Hn H2.
  destruct (f64_of_u64_shape n1 ltac:(unfold is_u64; lia)) as [[-> E1]|[P1 N1]].
  - change (millis_of_nanos 0) with (S754_zero false). apply f64_scaled_nonneg.
  - destruct (f64_of_u64_shape n2 ltac:(unfold is_u64; lia)) as [[-> E2]|[P2 N2]]; [lia|].
    unfold millis_of_nanos, NANOS_PER_MILLIS.
    apply f64_div_mono; try lia.
    + eapply normal_in_weaken; [| |exact N1]; lia.
    + eapply normal_in_weaken; [| |exact N2]; lia.
    + apply f64_of_u64_mono; lia.
Qed.

(** A difference of two readings of a monotonic clock, taken in
    milliseconds, is never negative. *)
Lemma duration_nonneg mark now :
  0 <= mark <= now -> now < 2 ^ 64 ->
  f64_leb (S754_zero false) (f64_sub (millis_of_nanos now) (millis_of_nanos mark)) = true.
Proof.
  intros Hm Hn. apply sign_clear_leb.
  pose proof (millis_of_nanos_mono mark now Hm Hn) as Hle.
  destruct (millis_of_nanos_shape mark ltac:(unfold is_u64; lia)) as [[-> E1]|[P1 N1]].
  - destruct (millis_of_nanos_shape now ltac:(unfold is_u64; lia)) as [[-> E2]|[P2 N2]].
    + vm_compute. reflexivity.
    + rewrite E1.
      destruct (millis_of_nanos now) as [s|s| |[] m e]; try contradiction. reflexivity.
  - destruct (millis_of_nanos_shape now ltac:(unfold is_u64; lia)) as [[-> E2]|[P2 N2]]; [lia|].
    now apply f64_sub_sign.
Qed.

Lemma f64_of_u64_leb n1 n2 :
  0 <= n1 <= n2 -> n2 < 2 ^ 64 -> f64_leb (f64_of_u64 n1) (f64_of_u64 n2) = true.
Proof.
  intros Hn H2.
  pose proof (f64_of_u64_mono n1 n2 Hn H2) as Hle.
  destruct (f64_of_u64_shape n1 ltac:(unfold is_u64; lia)) as [[-> E1]|[P1 N1]].
  - destruct (f64_of_u64_shape n2 ltac:(unfold is_u64; lia)) as [[-> E2]|[P2 N2]].
    + reflexivity.
    + rewrite E1.
      destruct (f64_of_u64 n2) as [s|s| |[] m e]; try contradiction. reflexivity.
  - destruct (f64_of_u64_shape n2 ltac:(unfold is_u64; lia)) as [[-> E2]|[P2 N2]]; [lia|].
    apply normal_leb; try assumption.
    + eapply normal_in_weaken; [| |exact N1]; lia.
    + eapply normal_in_weaken; [| |exact N2]; lia.
Qed.

(** A converted timestamp is never the sentinel, and never below it. *)
Lemma f64_of_u64_above_sentinel n :
  is_u64 n ->
  f64_eqb (f64_of_u64 n) f64_minus_one = false /\
  f64_leb f64_minus_one (f64_of_u64 n) = true.
Proof.
  intros Hn. destruct (f64_of_u64_shape n Hn) as [[-> E]|[P N]].
  - split; reflexivity.
  - destruct (f64_of_u64 n) as [s|s| |[] m e]; try contradiction. split; reflexivity.
Qed.

(** Multiplying by [1.0] changes nothing. *)
Lemma f64_mul_one_normal x :
  normal_in (-52) 12 x -> f64_mul f64_one x = x.
Proof.
  intros N. destruct x as [s|s| |[] m e]; try contradiction.
  cbn [normal_in] in N. destruct N as [Hm He].
  unfold f64_mul, f64_one, SFmul. cbn [xorb].
  set (p := (4503599627370496 * m)%positive).
  assert (Hp : Zpos p = 2 ^ 52 * Zpos m) by (unfold p; rewrite Pos2Z.inj_mul; reflexivity).
  assert (Dp : Zdigits2 (Zpos p) = 105).
  { apply Zdigits2_unique; [lia|]. rewrite Hp.
    change (2 ^ (105 - 1)) with (2 ^ 52 * 2 ^ 52).
    change (2 ^ 105) with (2 ^ 52 * 2 ^ 53). lia. }
  rewrite (binary_round_aux_sfloor (2 * Zpos p) 1); rewrite ?Dp; try lia.
  - change (2 ^ (105 - 53)) with (2 ^ 52). rewrite Hp.
    replace (2 * (2 ^ 52 * Zpos m)) with (2 ^ 52 * (2 * Zpos m)) by ring.
    replace (1 * 2 ^ 52) with (2 ^ 52 * 1) by ring.
    rewrite sfloor_scale by lia.
    assert (R : rne4 (sfloor (2 * Zpos m) 1) = Zpos m).
    { unfold sfloor, rne4. rewrite Z.div_1_r, Z.mod_1_r. cbn [Z.eqb].
      Z.div_mod_to_equations; lia. }
    rewrite R. unfold fnorm.
    destruct (Z.eqb_spec (Zpos m) (2 ^ 53)); [lia|].
    cbn [Z.to_pos]. f_equal. lia.
  - unfold sfloor. rewrite Z.div_1_r, Z.mod_1_r. cbn [lcode Z.eqb]. lia.
Qed.

Lemma f64_mul_one_of_u64 n : is_u64 n -> f64_mul f64_one (f64_of_u64 n) = f64_of_u64 n.
Proof.
  intros Hn. destruct (f64_of_u64_shape n Hn) as [[-> E]|[P N]].
  - reflexivity.
  - now apply f64_mul_one_normal.
Qed.

(** A quotient that needs no rounding. *)
Lemma rnd_exact b M j e :
  0 < b -> 2 ^ 52 <= M < 2 ^ 53 -> 0 <= j ->
  rnd (2 * b * (M * 2 ^ j)) b e = S754_finite false (Z.to_pos M) (e + j).
Proof.
  intros Hb HM Hj. unfold rnd.
  pose proof (Z.pow_pos_nonneg 2 j ltac:(lia) Hj) as Pj.
  assert (Q : 2 * b * (M * 2 ^ j) / (2 * b) = M * 2 ^ j).
  { rewrite Z.mul_comm, Z.div_mul by lia. reflexivity. }
  rewrite Q.
  assert (D : Zdigits2 (M * 2 ^ j) = 53 + j).
  { apply Zdigits2_unique; [lia|].
    replace (53 + j - 1) with (52 + j) by lia.
    rewrite !Z.pow_add_r by lia. nia. }
  rewrite D. replace (53 + j - 53) with j by lia.
  assert (S : sfloor (2 * b * (M * 2 ^ j)) (b * 2 ^ j) = 4 * M).
  { unfold sfloor.
    replace (2 * b * (M * 2 ^ j)) with ((2 * M) * (b * 2 ^ j)) by ring.
    rewrite Z.div_mul, Z.mod_mul by nia. cbn [Z.eqb]. lia. }
  rewrite S.
  assert (R : rne4 (4 * M) = M) by (unfold rne4; Z.div_mod_to_equations; lia).
  rewrite R. unfold fnorm.
  destruct (Z.eqb_spec M (2 ^ 53)); [lia|]. f_equal. lia.
Qed.

Lemma f64_of_u64_exact n :
  0 < n < 2 ^ 53 ->
  f64_of_u64 n =
    S754_finite false (Z.to_pos (n * 2 ^ (53 - Zdigits2 n))) (Zdigits2 n - 53).
Proof.
  intros Hn. destruct (Z.lt_ge_cases n (2 ^ 52)) as [S|L].
  - apply f64_of_u64_small. lia.
  - rewrite f64_of_u64_large by lia.
    assert (D : Zdigits2 n = 53) by (apply Zdigits2_unique; lia).
    rewrite D. change (2 ^ (53 - 53)) with 1. rewrite Z.mul_1_r.
    replace (2 * n) with (2 * 1 * (n * 2 ^ 0)) by (change (2 ^ 0) with 1; ring).
    rewrite rnd_exact by lia. f_equal.
Qed.

(** Whole milliseconds come out exactly. *)
Lemma millis_of_nanos_whole k :
  0 <= k -> k * 1000000 < 2 ^ 53 ->
  millis_of_nanos (k * 1000000) = f64_of_u64 k.
Proof.
  intros Hk Hn. destruct (Z.eq_dec k 0) as [->|Nk]; [vm_compute; reflexivity|].
  set (n := k * 1000000) in *.
  assert (Hk53 : 0 < k < 2 ^ 53) by (unfold n in Hn; lia).
  unfold millis_of_nanos, NANOS_PER_MILLIS.
  rewrite (f64_of_u64_exact n), (f64_of_u64_exact k) by lia.
  pose proof (Zdigits2_bounds n ltac:(lia)) as Bn.
  pose proof (Zdigits2_bounds k ltac:(lia)) as Bk.
  assert (Dn : 1 <= Zdigits2 n <= 53) by (pose proof (digits_range n 0 53 ltac:(lia)); change (2 ^ 0) with 1 in *; lia).
  assert (Dk : 1 <= Zdigits2 k <= 53) by (pose proof (digits_range k 0 53 ltac:(lia)); change (2 ^ 0) with 1 in *; lia).
  set (d := Zdigits2 n) in *. set (dk := Zdigits2 k) in *.
  (* the digits of n and k are 19 or 20 apart *)
  assert (Hd : dk + 19 <= d <= dk + 20).
  { split.
    - destruct (Z.le_gt_cases (dk + 19) d) as [?|G]; [assumption|].
      assert (P : 2 ^ d <= 2 ^ (dk - 1 + 19)) by (apply Z.pow_le_mono_r; lia).
      rewrite Z.pow_add_r in P by lia. change (2 ^ 19) with 524288 in P.
      unfold n in Bn. lia.
    - destruct (Z.le_gt_cases d (dk + 20)) as [?|G]; [assumption|].
      assert (P : 2 ^ (dk + 20) <= 2 ^ (d - 1)) by (apply Z.pow_le_mono_r; lia).
      rewrite Z.pow_add_r in P by lia. change (2 ^ 20) with 1048576 in P.
      unfold n in Bn. lia. }
  pose proof (Z.pow_pos_nonneg 2 (53 - d) ltac:(lia) ltac:(lia)) as Pd.
  pose proof (Z.pow_pos_nonneg 2 (53 - dk) ltac:(lia) ltac:(lia)) as Pdk.
  assert (Mn : 2 ^ 52 <= n * 2 ^ (53 - d) < 2 ^ 53).
  { assert (P : 2 ^ 52 = 2 ^ (d - 1) * 2 ^ (53 - d)).
    { rewrite <- Z.pow_add_r by lia. f_equal. lia. }
    assert (Q : 2 ^ 53 = 2 ^ d * 2 ^ (53 - d)).
    { rewrite <- Z.pow_add_r by lia. f_equal. lia. }
    nia. }
  assert (Mk : 2 ^ 52 <= k * 2 ^ (53 - dk) < 2 ^ 53).
  { assert (P : 2 ^ 52 = 2 ^ (dk - 1) * 2 ^ (53 - dk)).
    { rewrite <- Z.pow_add_r by lia. f_equal. lia. }
    assert (Q : 2 ^ 53 = 2 ^ dk * 2 ^ (53 - dk)).
    { rewrite <- Z.pow_add_r by lia. f_equal. lia. }
    nia. }
  rewrite f64_div_rnd by (rewrite ?Z2Pos.id by lia; lia).
  rewrite Z2Pos.id by lia.
  set (j := dk + 20 - d).
  assert (E : 2 * (n * 2 ^ (53 - d) * 2 ^ 53) =
              2 * 8589934592000000 * (k * 2 ^ (53 - dk) * 2 ^ j)).
  { unfold n, j.
    assert (P : 2 ^ (53 - d) * 2 ^ 53 = 2 ^ 33 * (2 ^ (53 - dk) * 2 ^ (dk + 20 - d))).
    { rewrite <- !Z.pow_add_r by lia. f_equal. lia. }
    change 8589934592000000 with (1000000 * 2 ^ 33).
    set (A := 2 ^ (53 - d)) in *. set (B := 2 ^ 53) in *. set (C := 2 ^ 33) in *.
    set (D := 2 ^ (53 - dk)) in *. set (F := 2 ^ (dk + 20 - d)) in *.
    replace (2 * (k * 1000000 * A * B)) with (2 * k * 1000000 * (A * B)) by ring.
    rewrite P. ring. }
  rewrite E. rewrite rnd_exact by (unfold j; lia).
  f_equal. unfold j. lia.
Qed.

(** ** The garbage-collection cycle tracker *)

Section CycleTracker.
Context `{PerformanceEnums}.

Implicit Types (env : Environment) (sigs : list GCSignal).

Lemma set_performance_state_same env :
  set_performance_state env (performance_state env) = env.
Proof. destruct env; reflexivity. Qed.

Lemma start_busy env type flags now :
  current_gc_type (performance_state env) <> 0 ->
  MarkGarbageCollectionStart env type flags now = Returns env.
Proof.
  intros Hb. unfold MarkGarbageCollectionStart.
  destruct (Z.eqb_spec (current_gc_type (performance_state env)) 0); [lia|reflexivity].
Qed.

Lemma start_idle env type flags now :
  current_gc_type (performance_state env) = 0 ->
  MarkGarbageCollectionStart env type flags now = Returns (started env type now).
Proof.
  intros Hi. unfold MarkGarbageCollectionStart. rewrite Hi. reflexivity.
Qed.

Lemma end_mismatch env type flags now :
  type <> current_gc_type (performance_state env) ->
  MarkGarbageCollectionEnd env type flags now = Returns env.
Proof.
  intros Hm. unfold MarkGarbageCollectionEnd.
  destruct (Z.eqb_spec type (current_gc_type (performance_state env))); [lia|reflexivity].
Qed.

Lemma end_match env type flags now n :
  type = current_gc_type (performance_state env) ->
  observers (performance_state env) !! NODE_PERFORMANCE_ENTRY_TYPE_GC = Some n ->
  MarkGarbageCollectionEnd env type flags now =
    if n =? 0 then Returns (cleared env)
    else Returns
      (SetImmediate (cleared env)
         {| entry_name := "gc";
            entry_start_time :=
              f64_div (f64_of_u64 (u64_sub
                         (performance_last_gc_start_mark (performance_state env))
                         (time_origin env))) NANOS_PER_MILLIS;
            entry_duration :=
              f64_sub (millis_of_nanos now)
                      (millis_of_nanos
                         (performance_last_gc_start_mark (performance_state env)));
            details_kind := type;
            details_flags := flags |}
         kUnrefed).
Proof.
  intros Hm Hn. unfold MarkGarbageCollectionEnd.
  rewrite <- Hm, Z.eqb_refl. cbn [negb].
  unfold aref. rewrite Hn. cbn [mbind Outcome_bind].
  destruct (n =? 0); reflexivity.
Qed.

Lemma observers_gc_lookup st :
  wf_state st -> exists n, observers st !! NODE_PERFORMANCE_ENTRY_TYPE_GC = Some n.
Proof.
  intros [_ Ho]. apply lookup_lt_is_Some. rewrite Ho. apply gc_entry_type_valid.
Qed.

(** Signals touch neither the buffers nor the time origin. *)
Lemma deliver_frame env s env' :
  deliver env s = Returns env' ->
  milestones (performance_state env') = milestones (performance_state env) /\
  observers (performance_state env') = observers (performance_state env) /\
  time_origin env' = time_origin env /\
  callback_calls env' = callback_calls env /\
  performance_entry_callback env' = performance_entry_callback env.
Proof.
  destruct s as [type flags now|type flags now]; cbn [deliver].
  - unfold MarkGarbageCollectionStart.
    destruct (negb _); intros [= <-]; repeat split; reflexivity.
  - unfold MarkGarbageCollectionEnd.
    destruct (negb _); [intros [= <-]; repeat split; reflexivity|].
    unfold aref. destruct (_ !! _) as [n|]; cbn [mbind Outcome_bind]; [|discriminate].
    destruct (n =? 0); intros [= <-]; repeat split; reflexivity.
Qed.

Lemma deliver_total env s :
  wf_state (performance_state env) ->
  exists env', deliver env s = Returns env' /\ wf_state (performance_state env').
Proof.
  intros Hwf.
  assert (exists env', deliver env s = Returns env') as [env' E].
  { destruct s as [type flags now|type flags now]; cbn [deliver].
    - unfold MarkGarbageCollectionStart. destruct (negb _); eauto.
    - destruct (observers_gc_lookup _ Hwf) as [n Hn].
      destruct (Z.eq_dec type (current_gc_type (performance_state env))) as [E|N].
      + rewrite (end_match env type flags now n E Hn). destruct (n =? 0); eauto.
      + rewrite end_mismatch by assumption. eauto. }
  exists env'. split; [assumption|].
  destruct (deliver_frame _ _ _ E) as (Em & Eo & _).
  unfold wf_state. rewrite Em, Eo. exact Hwf.
Qed.

Lemma run_app env l1 l2 :
  run env (l1 ++ l2) = (env' ← run env l1; run env' l2).
Proof.
  revert env. induction l1 as [|s l1 IH]; intros env; [reflexivity|].
  cbn [app run]. destruct (deliver env s) as [e|c|f]; cbn [mbind Outcome_bind];
    [apply IH|reflexivity|reflexivity].
Qed.

Lemma run_total env sigs :
  wf_state (performance_state env) ->
  exists env', run env sigs = Returns env' /\ wf_state (performance_state env').
Proof.
  revert env. induction sigs as [|s sigs IH]; intros env Hwf.
  - exists env. split; [reflexivity|assumption].
  - destruct (deliver_total env s Hwf) as (e & E & We).
    cbn [run]. rewrite E. cbn [mbind Outcome_bind]. now apply IH.
Qed.

Lemma run_snoc env sigs s env1 :
  run env sigs = Returns env1 -> run env (sigs ++ [s]) = deliver env1 s.
Proof.
  intros E. rewrite run_app, E. cbn [mbind Outcome_bind run].
  destruct (deliver env1 s); reflexivity.
Qed.

Lemma run_snoc_inv env sigs s env2 :
  run env (sigs ++ [s]) = Returns env2 ->
  exists env1, run env sigs = Returns env1 /\ deliver env1 s = Returns env2.
Proof.
  rewrite run_app. destruct (run env sigs) as [e|c|f]; cbn [mbind Outcome_bind];
    try discriminate.
  intros E. exists e. split; [reflexivity|]. cbn [run] in E.
  destruct (deliver e s); cbn in E; unfold mret, Outcome_ret in E; congruence.
Qed.

(** While a cycle of kind [k] is open, everything but its epilogue is
    ignored. *)
Lemma run_ignored env k post :
  current_gc_type (performance_state env) = k -> k <> 0 ->
  Forall (fun s => ~ is_epilogue_of k s) post ->
  run env post = Returns env.
Proof.
  intros Hk Hnz Hpost. induction Hpost as [|s post Hs _ IH]; [reflexivity|].
  cbn [run].
  assert (E : deliver env s = Returns env).
  { destruct s as [type flags now|type flags now]; cbn [deliver].
    - apply start_busy. lia.
    - apply end_mismatch. cbn [is_epilogue_of] in Hs. congruence. }
  rewrite E. exact IH.
Qed.

(** A kind is in progress only since a prologue of that kind that was
    accepted in an idle state, with no epilogue of that kind since;
    the state is still the one that prologue left. *)
Lemma busy_decompose env sigs env1 :
  current_gc_type (performance_state env) = 0 ->
  run env sigs = Returns env1 ->
  current_gc_type (performance_state env1) <> 0 ->
  exists pre flags t post env_idle,
    sigs = pre ++ Prologue (current_gc_type (performance_state env1)) flags t :: post /\
    run env pre = Returns env_idle /\
    current_gc_type (performance_state env_idle) = 0 /\
    env1 = started env_idle (current_gc_type (performance_state env1)) t /\
    Forall (fun s => ~ is_epilogue_of (current_gc_type (performance_state env1)) s) post.
Proof.
  intros Hidle. revert env1.
  induction sigs as [|s sigs IH] using rev_ind; intros env1 Hrun Hbusy.
  - cbn in Hrun. injection Hrun as <-. contradiction.
  - destruct (run_snoc_inv _ _ _ _ Hrun) as (env0 & Hrun0 & Hs).
    destruct (Z.eq_dec (current_gc_type (performance_state env0)) 0) as [Hz|Hnz].
    + (* idle before [s]: only an accepted prologue makes it busy *)
      destruct s as [type flags now|type flags now]; cbn [deliver] in Hs.
      * rewrite start_idle in Hs by assumption. injection Hs as <-.
        exists sigs, flags, now, [], env0.
        split; [reflexivity|]. split; [assumption|]. split; [assumption|].
        split; [reflexivity|constructor].
      * exfalso. destruct (Z.eq_dec type 0) as [->|Nt].
        -- unfold MarkGarbageCollectionEnd in Hs. rewrite Hz in Hs. cbn in Hs.
           unfold aref in Hs. destruct (_ !! _) as [n|]; cbn in Hs; [|discriminate].
           destruct (n =? 0); injection Hs as <-; apply Hbusy; reflexivity.
        -- rewrite end_mismatch in Hs by (rewrite Hz; exact Nt).
           injection Hs as <-. contradiction.
    + (* busy before [s] *)
      destruct s as [type flags now|type flags now]; cbn [deliver] in Hs.
      * rewrite start_busy in Hs by assumption. injection Hs as <-.
        destruct (IH env0 Hrun0 Hnz) as (pre & fl & t & post & ei & -> & Hp & Hi & He & Hf).
        exists pre, fl, t, (post ++ [Prologue type flags now]), ei.
        split; [rewrite <- app_assoc; reflexivity|].
        split; [assumption|]. split; [assumption|]. split; [assumption|].
        apply Forall_app. split; [assumption|]. constructor; [|constructor].
        cbn. tauto.
      * destruct (Z.eq_dec type (current_gc_type (performance_state env0))) as [Em|Nm].
        -- exfalso. unfold MarkGarbageCollectionEnd in Hs.
           rewrite <- Em, Z.eqb_refl in Hs. cbn [negb] in Hs.
           unfold aref in Hs. destruct (_ !! _) as [n|]; cbn in Hs; [|discriminate].
           destruct (n =? 0); injection Hs as <-; apply Hbusy; reflexivity.
        -- rewrite end_mismatch in Hs by assumption. injection Hs as <-.
           destruct (IH env0 Hrun0 Hnz) as (pre & fl & t & post & ei & -> & Hp & Hi & He & Hf).
           exists pre, fl, t, (post ++ [Epilogue type flags now]), ei.
           split; [rewrite <- app_assoc; reflexivity|].
           split; [assumption|]. split; [assumption|]. split; [assumption|].
           apply Forall_app. split; [assumption|]. constructor; [|constructor].
           cbn. assumption.
Qed.

(** Under a monotonic clock the stored start mark is a past reading. *)
Lemma monotonic_from_weaken t t' l :
  t <= t' -> monotonic_from t' l -> monotonic_from t l.
Proof.
  destruct l as [|r l]; cbn; [tauto|]. intros Ht [Hr Hl]. split; [lia|assumption].
Qed.

Lemma run_mark_bound sigs : forall env env1 now,
  0 <= performance_last_gc_start_mark (performance_state env) ->
  monotonic_from (performance_last_gc_start_mark (performance_state env))
                 (map signal_clock sigs ++ [now]) ->
  run env sigs = Returns env1 ->
  0 <= performance_last_gc_start_mark (performance_state env1) <= now.
Proof.
  induction sigs as [|s sigs IH]; intros env env1 now H0 Hm Hrun.
  - cbn in Hrun. injection Hrun as <-. cbn in Hm. lia.
  - cbn [run] in Hrun. destruct (deliver env s) as [e|c|f] eqn:E;
      cbn [mbind Outcome_bind] in Hrun; try discriminate.
    cbn [map app monotonic_from] in Hm. destruct Hm as [Hle Hm].
    apply (IH e env1 now); [| |assumption].
    + destruct s as [type flags t|type flags t]; cbn [deliver] in E.
      * unfold MarkGarbageCollectionStart in E.
        destruct (negb _); injection E as <-; cbn; cbn in Hle; lia.
      * unfold MarkGarbageCollectionEnd in E.
        destruct (negb _); [injection E as <-; assumption|].
        unfold aref in E. destruct (_ !! _) as [n|]; cbn in E; [|discriminate].
        destruct (n =? 0); injection E as <-; cbn; assumption.
    + destruct s as [type flags t|type flags t]; cbn [deliver] in E.
      * unfold MarkGarbageCollectionStart in E.
        destruct (negb _); injection E as <-; cbn [signal_clock] in *.
        -- eapply monotonic_from_weaken; [|exact Hm]. lia.
        -- cbn. exact Hm.
      * assert (performance_last_gc_start_mark (performance_state e) =
                performance_last_gc_start_mark (performance_state env)) as ->.
        { unfold MarkGarbageCollectionEnd in E.
          destruct (negb _); [injection E as <-; reflexivity|].
          unfold aref in E. destruct (_ !! _) as [n|]; cbn in E; [|discriminate].
          destruct (n =? 0); injection E as <-; reflexivity. }
        eapply monotonic_from_weaken; [|exact Hm]. cbn [signal_clock] in *. lia.
Qed.

Lemma run_frame sigs : forall env env1,
  run env sigs = Returns env1 ->
  milestones (performance_state env1) = milestones (performance_state env) /\
  observers (performance_state env1) = observers (performance_state env) /\
  time_origin env1 = time_origin env /\
  callback_calls env1 = callback_calls env /\
  performance_entry_callback env1 = performance_entry_callback env.
Proof.
  induction sigs as [|s sigs IH]; intros env env1 Hrun.
  - cbn in Hrun. injection Hrun as <-. repeat split; reflexivity.
  - cbn [run] in Hrun. destruct (deliver env s) as [e|c|f] eqn:E;
      cbn [mbind Outcome_bind] in Hrun; try discriminate.
    destruct (deliver_frame _ _ _ E) as (A1 & A2 & A3 & A4 & A5).
    destruct (IH _ _ Hrun) as (B1 & B2 & B3 & B4 & B5).
    repeat split; congruence.
Qed.

(** An epilogue that lengthens the queue was a matched one, heard by an
    observer, and queued the entry built from the stored mark. *)
Lemma end_entry_inv env type flags now env2 task :
  MarkGarbageCollectionEnd env type flags now = Returns env2 ->
  native_immediates env2 = native_immediates env ++ [task] ->
  type = current_gc_type (performance_state env) /\
  (exists n, observers (performance_state env) !! NODE_PERFORMANCE_ENTRY_TYPE_GC = Some n /\
             n <> 0) /\
  env2 = SetImmediate (cleared env) (gc_entry env type flags now) kUnrefed /\
  task = {| immediate_entry := gc_entry env type flags now; immediate_flags := kUnrefed |}.
Proof.
  intros Hend Hq.
  assert (Hno : native_immediates env <> native_immediates env ++ [task]).
  { intros E. apply (f_equal length) in E. rewrite length_app in E. cbn in E. lia. }
  destruct (Z.eq_dec type (current_gc_type (performance_state env))) as [Em|Nm].
  - split; [assumption|].
    destruct (observers (performance_state env) !! NODE_PERFORMANCE_ENTRY_TYPE_GC)
      as [n|] eqn:Hn.
    + rewrite (end_match env type flags now n Em Hn) in Hend.
      destruct (Z.eqb_spec n 0) as [E0|Nn]; injection Hend as <-.
      * exfalso. apply Hno. exact Hq.
      * split; [exists n; split; [reflexivity|assumption]|]. split; [reflexivity|].
        cbn in Hq. apply app_inj_tail in Hq. destruct Hq as [_ <-]. reflexivity.
    + exfalso. unfold MarkGarbageCollectionEnd in Hend.
      rewrite <- Em, Z.eqb_refl in Hend. cbn [negb] in Hend.
      unfold aref in Hend. rewrite Em, Hn in Hend. discriminate.
  - exfalso. rewrite end_mismatch in Hend by assumption. injection Hend as <-.
    apply Hno. exact Hq.
Qed.

(** A second prologue, of whatever kind, does not disturb the first. *)
Lemma nested_start_ignored env a b flags_a flags_b t_a t_b :
  current_gc_type (performance_state env) = 0 ->
  a <> 0 ->
  run env [Prologue a flags_a t_a; Prologue b flags_b t_b] = Returns (started env a t_a).
Proof.
  intros Hidle Ha. cbn [run deliver].
  rewrite start_idle by assumption. cbn [mbind Outcome_bind].
  rewrite start_busy by (cbn; assumption). reflexivity.
Qed.

(** The comparison in [MarkGarbageCollectionEnd] does not by itself tell
    an idle tracker from a cycle of kind zero: were the collector to send
    an epilogue of kind zero between cycles, it would be taken as a
    matched one.  Hence the condition on the kind in the statements that
    trace an entry back to its prologue. *)
Remark end_kind_zero_while_idle env flags now n :
  current_gc_type (performance_state env) = 0 ->
  observers (performance_state env) !! NODE_PERFORMANCE_ENTRY_TYPE_GC = Some n ->
  n <> 0 ->
  MarkGarbageCollectionEnd env 0 flags now =
    Returns (SetImmediate (cleared env) (gc_entry env 0 flags now) kUnrefed).
Proof.
  intros Hidle Hn Nn. rewrite (end_match env 0 flags now n) by (assumption || congruence).
  destruct (Z.eqb_spec n 0); [contradiction|reflexivity].
Qed.

(** C1.  The cycle state machine.  From an idle state, every sequence of
    collector signals is processed without a fault, and in the state it
    leads to: a prologue arriving while a kind is in progress changes
    nothing; an epilogue of another kind than the one in progress changes
    nothing; an epilogue of the kind in progress clears it to zero; and a
    nonzero kind [k] is in progress exactly when the sequence contains a
    prologue of kind [k] that arrived in an idle state and no epilogue of
    kind [k] has arrived since. *)
Theorem gc_cycle_state_machine env sigs :
  wf_state (performance_state env) ->
  current_gc_type (performance_state env) = 0 ->
  exists env',
    run env sigs = Returns env' /\
    (forall type flags now,
        current_gc_type (performance_state env') <> 0 ->
        MarkGarbageCollectionStart env' type flags now = Returns env') /\
    (forall type flags now,
        type <> current_gc_type (performance_state env') ->
        MarkGarbageCollectionEnd env' type flags now = Returns env') /\
    (forall type flags now,
        type = current_gc_type (performance_state env') ->
        exists env'',
          MarkGarbageCollectionEnd env' type flags now = Returns env'' /\
          current_gc_type (performance_state env'') = 0) /\
    (forall k, k <> 0 ->
        current_gc_type (performance_state env') = k <->
        exists pre flags now post env_idle,
          sigs = pre ++ Prologue k flags now :: post /\
          run env pre = Returns env_idle /\
          current_gc_type (performance_state env_idle) = 0 /\
          Forall (fun s => ~ is_epilogue_of k s) post).
Proof.
  intros Hwf Hidle.
  destruct (run_total env sigs Hwf) as (env' & Hrun & Hwf').
  exists env'. split; [assumption|].
  split; [intros; now apply start_busy|].
  split; [intros; now apply end_mismatch|].
  split.
  - intros type flags now Em.
    destruct (observers_gc_lookup _ Hwf') as [n Hn].
    rewrite (end_match env' type flags now n Em Hn).
    destruct (n =? 0); eexists; (split; [reflexivity|]); reflexivity.
  - intros k Hk. split.
    + intros Ek.
      destruct (busy_decompose env sigs env' Hidle Hrun ltac:(lia))
        as (pre & fl & t & post & ei & E & Hp & Hi & _ & Hf).
      rewrite Ek in E, Hf. exists pre, fl, t, post, ei. tauto.
    + intros (pre & fl & t & post & ei & E & Hp & Hi & Hf).
      subst sigs. rewrite run_app, Hp in Hrun. cbn [mbind Outcome_bind run deliver] in Hrun.
      rewrite (start_idle ei k fl t Hi) in Hrun. cbn [mbind Outcome_bind] in Hrun.
      rewrite (run_ignored (started ei k t) k post) in Hrun by (assumption || reflexivity).
      injection Hrun as <-. reflexivity.
Qed.

(** C10.  Every entry that is built uses the mark of the matching start.
    Whenever an epilogue of a (nonzero) kind queues an entry, the signals
    so far contain a prologue of that same kind which was accepted in an
    idle state at some time [t0], no epilogue of that kind has arrived
    since, the stored mark is [t0], and the start time and the duration
    of the entry are computed from [t0]. *)
Theorem gc_entry_uses_matching_start env sigs env1 type flags now env2 task :
  current_gc_type (performance_state env) = 0 ->
  run env sigs = Returns env1 ->
  type <> 0 ->
  MarkGarbageCollectionEnd env1 type flags now = Returns env2 ->
  native_immediates env2 = native_immediates env1 ++ [task] ->
  exists pre flags0 t0 post env_idle,
    sigs = pre ++ Prologue type flags0 t0 :: post /\
    run env pre = Returns env_idle /\
    current_gc_type (performance_state env_idle) = 0 /\
    Forall (fun s => ~ is_epilogue_of type s) post /\
    performance_last_gc_start_mark (performance_state env1) = t0 /\
    entry_start_time (immediate_entry task) =
      f64_div (f64_of_u64 (u64_sub t0 (time_origin env))) NANOS_PER_MILLIS /\
    entry_duration (immediate_entry task) =
      f64_sub (millis_of_nanos now) (millis_of_nanos t0).
Proof.
  intros Hidle Hrun Hnz Hend Hq.
  destruct (end_entry_inv _ _ _ _ _ _ Hend Hq) as (Em & _ & _ & ->).
  destruct (busy_decompose env sigs env1 Hidle Hrun ltac:(lia))
    as (pre & fl & t & post & ei & E & Hp & Hi & He & Hf).
  rewrite <- Em in E, Hf, He.
  exists pre, fl, t, post, ei.
  destruct (run_frame _ _ _ Hrun) as (_ & _ & Ho & _).
  assert (Hmark : performance_last_gc_start_mark (performance_state env1) = t)
    by (rewrite He; reflexivity).
  repeat split; try assumption.
  - cbn. rewrite Hmark, Ho. reflexivity.
  - cbn. rewrite Hmark. reflexivity.
Qed.

(** C2.  A matched epilogue and the observers.  Under a monotonic clock,
    an epilogue of the kind in progress never calls into the scripting
    layer itself and never takes a reference on the runtime; with an
    observer counter of zero it queues nothing; with a nonzero counter it
    queues exactly one task, unreferenced, at the end of the host's
    queue, and the duration of the "gc" entry it carries is not
    negative. *)
Theorem gc_end_delivery env sigs env1 type flags now :
  wf_state (performance_state env) ->
  0 <= performance_last_gc_start_mark (performance_state env) ->
  monotonic_from (performance_last_gc_start_mark (performance_state env))
                 (map signal_clock sigs ++ [now]) ->
  now < 2 ^ 64 ->
  run env sigs = Returns env1 ->
  type = current_gc_type (performance_state env1) ->
  exists n env2,
    observers (performance_state env1) !! NODE_PERFORMANCE_ENTRY_TYPE_GC = Some n /\
    MarkGarbageCollectionEnd env1 type flags now = Returns env2 /\
    callback_calls env2 = callback_calls env1 /\
    immediate_ref_count env2 = immediate_ref_count env1 /\
    (n = 0 -> native_immediates env2 = native_immediates env1) /\
    (n <> 0 ->
     exists entry,
       native_immediates env2 =
         native_immediates env1 ++
           [{| immediate_entry := entry; immediate_flags := kUnrefed |}] /\
       entry_name entry = "gc" /\
       details_kind entry = type /\
       details_flags entry = flags /\
       f64_leb (S754_zero false) (entry_duration entry) = true).
Proof.
  intros Hwf H0 Hclock Hnow Hrun Em.
  destruct (run_total env sigs Hwf) as (e & He & Hwf1).
  rewrite Hrun in He. injection He as <-.
  destruct (observers_gc_lookup _ Hwf1) as [n Hn].
  pose proof (run_mark_bound sigs env env1 now H0 Hclock Hrun) as Hmark.
  rewrite (end_match env1 type flags now n Em Hn).
  destruct (Z.eqb_spec n 0) as [->|Nn].
  - exists 0, (cleared env1). repeat split; try reflexivity; try assumption.
    intros C. contradiction.
  - exists n, (SetImmediate (cleared env1) (gc_entry env1 type flags now) kUnrefed).
    repeat split; try reflexivity; try assumption.
    + intros C. contradiction.
    + intros _. exists (gc_entry env1 type flags now).
      repeat split; try reflexivity.
      cbn [gc_entry entry_duration]. apply duration_nonneg; lia.
Qed.

(** C3.  The times of an entry.  Whenever an epilogue queues an entry,
    its start time is the stored mark minus the time origin (a 64-bit
    unsigned difference, the plain difference when the origin is not
    after the mark) divided by [1e6], and its duration is [now / 1e6]
    minus the stored mark divided by [1e6]; the divisor is exactly the
    number of nanoseconds in a millisecond, so that a start [k] whole
    milliseconds after the origin comes out as exactly [k]. *)
Theorem gc_entry_times env type flags now env2 task :
  is_u64 (performance_last_gc_start_mark (performance_state env)) ->
  is_u64 (time_origin env) ->
  MarkGarbageCollectionEnd env type flags now = Returns env2 ->
  native_immediates env2 = native_immediates env ++ [task] ->
  let mark := performance_last_gc_start_mark (performance_state env) in
  let origin := time_origin env in
  entry_start_time (immediate_entry task) =
    f64_div (f64_of_u64 (u64_sub mark origin)) NANOS_PER_MILLIS /\
  (origin <= mark ->
   entry_start_time (immediate_entry task) = millis_of_nanos (mark - origin)) /\
  entry_duration (immediate_entry task) =
    f64_sub (f64_div (f64_of_u64 now) NANOS_PER_MILLIS)
            (f64_div (f64_of_u64 mark) NANOS_PER_MILLIS) /\
  NANOS_PER_MILLIS = f64_of_u64 1000000 /\
  (forall k, 0 <= k -> k * 1000000 < 2 ^ 53 -> mark = origin + k * 1000000 ->
     entry_start_time (immediate_entry task) = f64_of_u64 k).
Proof.
  intros Hmark Horigin Hend Hq mark origin.
  destruct (end_entry_inv _ _ _ _ _ _ Hend Hq) as (_ & _ & _ & ->).
  cbn [immediate_entry gc_entry entry_start_time entry_duration].
  fold mark origin.
  assert (Hplain : origin <= mark ->
                   f64_div (f64_of_u64 (u64_sub mark origin)) NANOS_PER_MILLIS =
                   millis_of_nanos (mark - origin)).
  { intros Hle. unfold millis_of_nanos, u64_sub.
    unfold is_u64 in *. rewrite Z.mod_small by (fold mark origin in Hmark, Horigin; lia).
    reflexivity. }
  split; [reflexivity|]. split; [exact Hplain|]. split; [reflexivity|].
  split; [apply NANOS_PER_MILLIS_value|].
  intros k Hk Hk53 Ek. rewrite Hplain by lia.
  replace (mark - origin) with (k * 1000000) by lia.
  now apply millis_of_nanos_whole.
Qed.

End CycleTracker.


(** ** Notification dispatch *)

Section Dispatch.
Context `{PerformanceEnums}.

Implicit Types (env : Environment).

Lemma interested_dec env type :
  wf_state (performance_state env) ->
  interested env type \/ ~ interested env type.
Proof.
  intros [_ Ho]. unfold interested.
  destruct (Nat.eq_dec (ToPerformanceEntryTypeEnum type) NODE_PERFORMANCE_ENTRY_TYPE_INVALID)
    as [E|N]; [right; tauto|].
  destruct (observers (performance_state env) !! ToPerformanceEntryTypeEnum type)
    as [n|] eqn:Hn.
  - destruct (Z.eq_dec n 0) as [->|Nn].
    + right. intros [_ (m & [= <-] & Hm)]. contradiction.
    + left. split; [assumption|]. exists n. split; [reflexivity|assumption].
  - right. intros [_ (m & Hm & _)]. discriminate.
Qed.

Lemma notify_interested env type entry :
  interested env type ->
  Notify env type entry =
    match performance_entry_callback env with
    | Some f => Returns (set_callback_calls env (callback_calls env ++ [(f, entry)]))
    | None => Faults EmptyHandle
    end.
Proof.
  intros [Hv (n & Hn & Nn)]. unfold Notify.
  destruct (Nat.eqb_spec (ToPerformanceEntryTypeEnum type) NODE_PERFORMANCE_ENTRY_TYPE_INVALID)
    as [E|_]; [contradiction|]. cbn [negb].
  unfold aref. rewrite Hn. cbn [mbind Outcome_bind].
  destruct (Z.eqb_spec n 0) as [E|_]; [contradiction|]. cbn [negb].
  destruct (performance_entry_callback env); reflexivity.
Qed.

Lemma notify_not_interested env type entry :
  wf_state (performance_state env) ->
  ~ interested env type ->
  Notify env type entry = Returns env.
Proof.
  intros [_ Ho] Hni. unfold Notify.
  destruct (Nat.eqb_spec (ToPerformanceEntryTypeEnum type) NODE_PERFORMANCE_ENTRY_TYPE_INVALID)
    as [E|N]; [reflexivity|]. cbn [negb].
  assert (Hlt : (ToPerformanceEntryTypeEnum type < length (observers (performance_state env)))%nat).
  { rewrite Ho. pose proof (entry_type_enum_range type). lia. }
  apply lookup_lt_is_Some in Hlt. destruct Hlt as [n Hn].
  unfold aref. rewrite Hn. cbn [mbind Outcome_bind].
  destruct (Z.eqb_spec n 0) as [E|Nn]; [reflexivity|].
  exfalso. apply Hni. split; [assumption|]. exists n. split; assumption.
Qed.

(** C4, as the code has it.  With a callback registered, [Notify]
    returns, and it has called the callback, once and with the entry it
    was given, exactly when the type name maps to a valid entry type
    whose observer counter is nonzero; otherwise it has changed nothing.
    With no callback registered, [Notify] changes nothing and keeps
    nothing when the type is invalid or its counter is zero. *)
Theorem notify_dispatch env type entry :
  wf_state (performance_state env) ->
  (forall f, performance_entry_callback env = Some f ->
     exists env',
       Notify env type entry = Returns env' /\
       (interested env type ->
        env' = set_callback_calls env (callback_calls env ++ [(f, entry)])) /\
       (~ interested env type -> env' = env) /\
       (callback_calls env' = callback_calls env ++ [(f, entry)] <-> interested env type)) /\
  (performance_entry_callback env = None ->
   ~ interested env type ->
   Notify env type entry = Returns env).
Proof.
  intros Hwf. split.
  - intros f Hf.
    destruct (interested_dec env type Hwf) as [Hi|Hni].
    + rewrite (notify_interested env type entry Hi), Hf.
      eexists. split; [reflexivity|]. split; [reflexivity|].
      split; [contradiction|]. cbn. tauto.
    + rewrite (notify_not_interested env type entry Hwf Hni).
      exists env. split; [reflexivity|]. split; [contradiction|].
      split; [reflexivity|]. split; [|contradiction].
      intros E. exfalso. apply (f_equal length) in E. rewrite length_app in E.
      cbn in E. lia.
  - intros _ Hni. now apply notify_not_interested.
Qed.

(** [SetupPerformanceObservers] replaces the callback: the last one wins. *)
Lemma setup_observers_last_wins env f g env1 env2 :
  SetupPerformanceObservers env kPrincipal (Function f) = Returns env1 ->
  SetupPerformanceObservers env1 kPrincipal (Function g) = Returns env2 ->
  performance_entry_callback env2 = Some g.
Proof. cbn. intros [= <-] [= <-]. reflexivity. Qed.

End Dispatch.

(** ** Milestones *)

Section Milestones.
Context `{PerformanceEnums}.

Implicit Types (env : Environment) (st : PerformanceState).

(** C5, as the code has it.  Called from the principal realm with the
    invalid sentinel, [MarkMilestone] returns and leaves the whole
    environment, and so every milestone slot and observer counter, as it
    was. *)
Theorem mark_milestone_sentinel env now :
  MarkMilestone env kPrincipal (Z.of_nat NODE_PERFORMANCE_MILESTONE_INVALID) now =
    Returns env.
Proof.
  unfold MarkMilestone. cbn [CHECK RealmKind_eqb mbind Outcome_bind].
  rewrite Z.eqb_refl. reflexivity.
Qed.


Lemma reset_milestones_replicate ms :
  reset_milestones ms = replicate (length ms) f64_minus_one.
Proof.
  unfold reset_milestones.
  assert (G : forall k pre post,
             length pre = k ->
             foldl (fun acc i => <[i := f64_minus_one]> acc) (pre ++ post)
                   (seq k (length post)) =
             pre ++ replicate (length post) f64_minus_one).
  { intros k pre post. revert k pre.
    induction post as [|x post IH]; intros k pre Hk; [reflexivity|].
    cbn [length seq foldl replicate].
    rewrite <- Hk at 1.
    replace (<[length pre := f64_minus_one]> (pre ++ x :: post))
      with ((pre ++ [f64_minus_one]) ++ post).
    - rewrite (IH (S k) (pre ++ [f64_minus_one])).
      + rewrite <- app_assoc. reflexivity.
      + rewrite length_app. cbn. lia.
    - rewrite <- app_assoc. cbn [app].
      replace (length pre) with (length pre + 0)%nat by lia.
      rewrite insert_app_r. reflexivity. }
  apply (G 0%nat [] ms). reflexivity.
Qed.

Lemma fresh_state_wf : wf_state (PerformanceState_new None).
Proof.
  split; cbn.
  - rewrite reset_milestones_replicate, !length_replicate. reflexivity.
  - apply length_replicate.
Qed.

Lemma slots_below_weaken t t' ms : t <= t' -> slots_below t ms -> slots_below t' ms.
Proof.
  intros Hle Hs. unfold slots_below in *. eapply Forall_impl; [exact Hs|].
  intros x [->|(u & Hu & ->)]; [now left|]. right. exists u. split; [lia|reflexivity].
Qed.

Lemma mark_inv st milestone ts st' :
  Mark st milestone ts = Returns st' ->
  0 <= milestone < Z.of_nat (length (milestones st)) /\
  milestones st' = <[Z.to_nat milestone := f64_of_u64 ts]> (milestones st).
Proof.
  unfold Mark, aset.
  destruct (Z.leb_spec 0 milestone), (Z.ltb_spec milestone (Z.of_nat (length (milestones st))));
    cbn; try discriminate.
  intros [= <-]. split; [lia|reflexivity].
Qed.

Lemma mark_valid st milestone ts :
  0 <= milestone < Z.of_nat (length (milestones st)) ->
  Mark st milestone ts =
    Returns (set_milestones st (<[Z.to_nat milestone := f64_of_u64 ts]> (milestones st))).
Proof.
  intros Hr. unfold Mark, aset.
  destruct (Z.leb_spec 0 milestone), (Z.ltb_spec milestone (Z.of_nat (length (milestones st))));
    try lia. reflexivity.
Qed.

Lemma run_marks_slots marks : forall st t now st1,
  0 <= t ->
  slots_below t (milestones st) ->
  monotonic_from t (map snd marks ++ [now]) ->
  run_marks st marks = Returns st1 ->
  slots_below now (milestones st1) /\ length (milestones st1) = length (milestones st).
Proof.
  induction marks as [|[m ts] marks IH]; intros st t now st1 Ht Hs Hm Hrun.
  - cbn in Hrun. injection Hrun as <-. cbn in Hm. split; [|reflexivity].
    eapply slots_below_weaken; [|exact Hs]. lia.
  - cbn [run_marks] in Hrun. destruct (Mark st m ts) as [s'|c|f] eqn:E;
      cbn [mbind Outcome_bind] in Hrun; try discriminate.
    cbn [map app snd monotonic_from] in Hm. destruct Hm as [Hle Hm].
    destruct (mark_inv _ _ _ _ E) as [Hr Es].
    destruct (IH s' ts now st1) as [A B]; try assumption; [lia| |].
    + rewrite Es. apply Forall_insert.
      * eapply slots_below_weaken; [|exact Hs]. assumption.
      * right. exists ts. split; [lia|reflexivity].
    + split; [assumption|]. rewrite B, Es. apply length_insert.
Qed.

Lemma monotonic_from_last l : forall t now, monotonic_from t (l ++ [now]) -> t <= now.
Proof.
  induction l as [|r l IH]; intros t now; cbn.
  - lia.
  - intros [Hr Hm]. specialize (IH r now Hm). lia.
Qed.

(** Marking the end of bootstrap always finds its slot. *)
Lemma mark_bootstrap_complete_ok env now :
  wf_state (performance_state env) ->
  exists env',
    MarkBootstrapComplete env kPrincipal now = Returns env' /\
    milestones (performance_state env') !! NODE_PERFORMANCE_MILESTONE_BOOTSTRAP_COMPLETE =
      Some (f64_of_u64 now).
Proof.
  intros [Hm _]. unfold MarkBootstrapComplete. cbn [CHECK RealmKind_eqb mbind Outcome_bind].
  pose proof bootstrap_complete_valid as Hv.
  rewrite mark_valid by (rewrite Hm; lia). cbn [mbind Outcome_bind].
  eexists. split; [reflexivity|]. cbn. rewrite Nat2Z.id.
  apply list_lookup_insert_eq. rewrite Hm. exact Hv.
Qed.

(** C8.  Marking is monotonic per milestone.  Start from a freshly
    created state and let milestones be marked at the readings of a
    monotonic clock.  Then marking a valid milestone once more succeeds,
    the slot read back holds the new timestamp, that timestamp is not
    below the value the slot held before, and it is not the sentinel. *)
Theorem mark_read_monotonic marks st1 milestone now :
  monotonic_from 0 (map snd marks ++ [now]) ->
  now < 2 ^ 64 ->
  0 <= milestone < Z.of_nat NODE_PERFORMANCE_MILESTONE_INVALID ->
  run_marks (PerformanceState_new None) marks = Returns st1 ->
  exists previous st2,
    milestones st1 !! Z.to_nat milestone = Some previous /\
    Mark st1 milestone now = Returns st2 /\
    milestones st2 !! Z.to_nat milestone = Some (f64_of_u64 now) /\
    f64_leb previous (f64_of_u64 now) = true /\
    f64_eqb (f64_of_u64 now) f64_minus_one = false.
Proof.
  intros Hclock Hnow Hvalid Hrun.
  destruct fresh_state_wf as [Hlen _].
  assert (H0 : slots_below 0 (milestones (PerformanceState_new None))).
  { cbn. rewrite reset_milestones_replicate. apply Forall_replicate. now left. }
  destruct (run_marks_slots marks _ 0 now st1 ltac:(lia) H0 Hclock Hrun) as [Hs Hl].
  rewrite Hlen in Hl.
  pose proof (monotonic_from_last _ _ _ Hclock) as Hnow0.
  assert (Hlt : (Z.to_nat milestone < length (milestones st1))%nat) by lia.
  destruct (lookup_lt_is_Some_2 _ _ Hlt) as [previous Hp].
  exists previous, (set_milestones st1 (<[Z.to_nat milestone := f64_of_u64 now]> (milestones st1))).
  split; [assumption|].
  split; [apply mark_valid; lia|].
  split; [cbn; now apply list_lookup_insert_eq|].
  destruct (f64_of_u64_above_sentinel now ltac:(unfold is_u64; lia)) as [Hne Hge].
  split; [|assumption].
  unfold slots_below in Hs. rewrite Forall_lookup in Hs.
  destruct (Hs _ _ Hp) as [->|(t' & Ht' & ->)]; [assumption|].
  apply f64_of_u64_leb; lia.
Qed.

(** C9.  The region survives a snapshot.  After [Serialize], a state
    built from the serialized indices and deserialized from the snapshot
    has the observer counters (and the raw milestone values) of the
    original; after the reinitialize step every milestone slot holds the
    sentinel, whatever it held before. *)
Theorem serialize_deserialize_roundtrip st creator :
  exists st',
    Deserialize (PerformanceState_new (Some (fst (Serialize st creator))))
                (snd (Serialize st creator)) = Returns st' /\
    observers st' = observers st /\
    milestones st' = milestones st /\
    milestones (reinitialize st') = replicate (length (milestones st)) f64_minus_one /\
    observers (reinitialize st') = observers st.
Proof.
  unfold Serialize, AliasedBuffer_Serialize, Deserialize. cbn [fst snd].
  cbn [PerformanceState_new index_ fmap option_fmap option_map info_root info_milestones
       info_observers AliasedBuffer_Deserialize].
  set (block := {| block_milestones := milestones st; block_observers := observers st |}).
  assert (L0 : ((creator ++ [block]) ++ [block]) ++ [block] =
               creator ++ [block; block; block]).
  { rewrite <- !app_assoc. reflexivity. }
  rewrite L0.
  assert (E0 : (creator ++ [block; block; block]) !! length creator = Some block).
  { rewrite lookup_app_r by lia. rewrite Nat.sub_diag. reflexivity. }
  assert (E1 : (creator ++ [block; block; block]) !! length (creator ++ [block]) = Some block).
  { rewrite length_app. cbn [length]. rewrite lookup_app_r by lia.
    replace (length creator + 1 - length creator)%nat with 1%nat by lia. reflexivity. }
  assert (E2 : (creator ++ [block; block; block]) !! length ((creator ++ [block]) ++ [block])
               = Some block).
  { rewrite !length_app. cbn [length]. rewrite lookup_app_r by lia.
    replace (length creator + 1 + 1 - length creator)%nat with 2%nat by lia. reflexivity. }
  rewrite E0, E1, E2. cbn [mbind Outcome_bind].
  eexists. split; [reflexivity|]. cbn.
  split; [reflexivity|]. split; [reflexivity|]. split; [|reflexivity].
  apply reset_milestones_replicate.
Qed.

End Milestones.

(** ** Idle time and the delay histogram *)

Section Queries.
Context `{PerformanceEnums}.

Implicit Types (env : Environment).

(** C7, as the code has it.  [LoopIdleTime] returns the environment as
    it was, with the idle time of the loop, a count of nanoseconds,
    divided by [1e6]: milliseconds.  An idle time of [k] whole
    milliseconds comes out as exactly [k]. *)
Theorem loop_idle_time_millis env :
  is_u64 (idle_time env) ->
  LoopIdleTime env = Returns (env, millis_of_nanos (idle_time env)) /\
  (forall k, 0 <= k -> k * 1000000 < 2 ^ 53 -> idle_time env = k * 1000000 ->
     LoopIdleTime env = Returns (env, f64_of_u64 k)).
Proof.
  intros Hi.
  assert (E : LoopIdleTime env = Returns (env, millis_of_nanos (idle_time env))).
  { unfold LoopIdleTime, millis_of_nanos.
    rewrite f64_mul_one_of_u64 by assumption. reflexivity. }
  split; [exact E|].
  intros k Hk Hk53 Ek. rewrite E, Ek, millis_of_nanos_whole by assumption. reflexivity.
Qed.

(** C6, as the code has it.  With an interval that is not positive,
    [CreateELDHistogram] stops at its CHECK, before any histogram is
    created: the call does not come back to its caller. *)
Theorem create_eld_histogram_check env interval :
  interval <= 0 ->
  CreateELDHistogram env interval = Faults CheckFailed.
Proof.
  intros Hi. unfold CreateELDHistogram.
  destruct (Z.ltb_spec 0 interval); [lia|reflexivity].
Qed.

Lemma create_eld_histogram_ok env interval :
  0 < interval ->
  CreateELDHistogram env interval =
    Returns (set_histograms env
               (histograms env ++ [{| histogram_interval := interval;
                                      histogram_lowest := 1000 |}]),
             length (histograms env)).
Proof.
  intros Hi. unfold CreateELDHistogram.
  destruct (Z.ltb_spec 0 interval); [reflexivity|lia].
Qed.

End Queries.


(** ** More on the arithmetic *)

(** Below [2 ^ 53] the conversion loses nothing. *)
Lemma f64_of_u64_scaled_exact n :
  0 <= n < 2 ^ 53 -> f64_scaled (f64_of_u64 n) = n * 2 ^ 1074.
Proof.
  intros Hn. destruct (Z.eq_dec n 0) as [->|N]; [reflexivity|].
  rewrite f64_of_u64_exact by lia.
  assert (Hd : 0 + 1 <= Zdigits2 n <= 53)
    by (apply digits_range; [lia|]; change (2 ^ 0) with 1; lia).
  set (d := Zdigits2 n) in *. cbn [f64_scaled].
  pose proof (Z.pow_pos_nonneg 2 (53 - d) ltac:(lia) ltac:(lia)).
  rewrite Z2Pos.id by nia.
  assert (E : 2 ^ 1074 = 2 ^ (53 - d) * 2 ^ (d - 53 + 1074)).
  { rewrite <- Z.pow_add_r by lia. f_equal. lia. }
  rewrite E. ring.
Qed.

Lemma f64_of_u64_inj n1 n2 :
  0 <= n1 < 2 ^ 53 -> 0 <= n2 < 2 ^ 53 ->
  f64_of_u64 n1 = f64_of_u64 n2 -> n1 = n2.
Proof.
  intros H1 H2 E. apply (f_equal f64_scaled) in E.
  rewrite !f64_of_u64_scaled_exact in E by assumption.
  pose proof (Z.pow_pos_nonneg 2 1074 ltac:(lia) ltac:(lia)). nia.
Qed.

(** Rounding a mantissa that already fits changes nothing. *)
Lemma binary_round_aux_exact M j e :
  2 ^ 52 <= M < 2 ^ 53 -> 0 <= j -> -1074 <= e + j <= 970 ->
  binary_round_aux prec emax false (M * 2 ^ j) e loc_Exact =
    S754_finite false (Z.to_pos M) (e + j).
Proof.
  intros HM Hj He.
  pose proof (Z.pow_pos_nonneg 2 j ltac:(lia) Hj) as Pj.
  assert (D : Zdigits2 (M * 2 ^ j) = 53 + j).
  { apply Zdigits2_unique; [lia|].
    replace (53 + j - 1) with (52 + j) by lia.
    rewrite !Z.pow_add_r by lia. nia. }
  rewrite (binary_round_aux_sfloor (2 * (M * 2 ^ j)) 1); rewrite ?D; try lia.
  - replace (53 + j - 53) with j by lia.
    assert (S : sfloor (2 * (M * 2 ^ j)) (1 * 2 ^ j) = 4 * M).
    { unfold sfloor.
      replace (2 * (M * 2 ^ j)) with ((2 * M) * (1 * 2 ^ j)) by ring.
      rewrite Z.div_mul, Z.mod_mul by nia. cbn [Z.eqb]. lia. }
    rewrite S.
    assert (R : rne4 (4 * M) = M) by (unfold rne4; Z.div_mod_to_equations; lia).
    rewrite R. unfold fnorm.
    destruct (Z.eqb_spec M (2 ^ 53)); [lia|]. f_equal. lia.
  - unfold sfloor. rewrite Z.div_1_r, Z.mod_1_r. cbn [lcode Z.eqb]. lia.
Qed.

(** An integer below [2 ^ 53], however it is scaled, normalizes to its
    conversion. *)
Lemma binary_normalize_exact c s :
  0 < c < 2 ^ 53 -> 0 <= s <= 200 ->
  binary_normalize prec emax (c * 2 ^ s) (- s) false = f64_of_u64 c.
Proof.
  intros Hc Hs.
  pose proof (Z.pow_pos_nonneg 2 s ltac:(lia) ltac:(lia)) as Ps.
  assert (Dc : 0 + 1 <= Zdigits2 c <= 53)
    by (apply digits_range; [lia|]; change (2 ^ 0) with 1; lia).
  pose proof (Zdigits2_bounds c ltac:(lia)) as Bc.
  set (dc := Zdigits2 c) in *.
  rewrite (f64_of_u64_exact c) by lia. fold dc.
  pose proof (Z.pow_pos_nonneg 2 (53 - dc) ltac:(lia) ltac:(lia)) as Pc.
  assert (MB : 2 ^ 52 <= c * 2 ^ (53 - dc) < 2 ^ 53).
  { assert (P : 2 ^ 52 = 2 ^ (dc - 1) * 2 ^ (53 - dc)).
    { rewrite <- Z.pow_add_r by lia. f_equal. lia. }
    assert (Q : 2 ^ 53 = 2 ^ dc * 2 ^ (53 - dc)).
    { rewrite <- Z.pow_add_r by lia. f_equal. lia. }
    nia. }
  assert (DD : Zdigits2 (c * 2 ^ s) = dc + s).
  { apply Zdigits2_unique; [lia|].
    replace (dc + s - 1) with ((dc - 1) + s) by lia.
    rewrite !Z.pow_add_r by lia. nia. }
  destruct (c * 2 ^ s) as [|p|p] eqn:Ep; try lia.
  cbn [binary_normalize]. unfold binary_round.
  change (Zpos (digits2_pos p)) with (Zdigits2 (Zpos p)). rewrite DD.
  rewrite fexp_normal by lia.
  destruct (Z.le_gt_cases (- s) (dc + s + - s - 53)) as [L|G].
  - rewrite shl_align_ge by lia.
    assert (E : Zpos p = (c * 2 ^ (53 - dc)) * 2 ^ (s - (53 - dc))).
    { rewrite <- Ep, <- Z.mul_assoc, <- Z.pow_add_r by lia. do 2 f_equal. lia. }
    rewrite E, binary_round_aux_exact by lia. f_equal. lia.
  - rewrite shl_align_lt by lia.
    assert (E : Zpos (Pos.iter xO p (Z.to_pos (- s - (dc + s + - s - 53)))) =
                (c * 2 ^ (53 - dc)) * 2 ^ 0).
    { rewrite Pos_iter_xO, Z2Pos.id by lia. rewrite <- Ep.
      change (2 ^ 0) with 1. rewrite Z.mul_1_r, <- !Z.mul_assoc, <- Z.pow_add_r by lia.
      do 2 f_equal. lia. }
    rewrite E, binary_round_aux_exact by lia. f_equal. lia.
Qed.

(** Integers below [2 ^ 53] subtract exactly. *)
Lemma f64_sub_exact a b :
  0 <= a <= b -> b < 2 ^ 53 ->
  f64_sub (f64_of_u64 b) (f64_of_u64 a) = f64_of_u64 (b - a).
Proof.
  intros Ha Hb.
  destruct (Z.eq_dec a 0) as [->|Na].
  - rewrite Z.sub_0_r. change (f64_of_u64 0) with (S754_zero false).
    destruct (Z.eq_dec b 0) as [->|Nb]; [reflexivity|].
    rewrite (f64_of_u64_exact b) by lia. reflexivity.
  - rewrite (f64_of_u64_exact b), (f64_of_u64_exact a) by lia.
    assert (Da : 0 + 1 <= Zdigits2 a <= 53)
      by (apply digits_range; [lia|]; change (2 ^ 0) with 1; lia).
    assert (Db : 0 + 1 <= Zdigits2 b <= 53)
      by (apply digits_range; [lia|]; change (2 ^ 0) with 1; lia).
    pose proof (Zdigits2_mono a b ltac:(lia)) as Dab.
    set (da := Zdigits2 a) in *. set (db := Zdigits2 b) in *.
    pose proof (Z.pow_pos_nonneg 2 (53 - da) ltac:(lia) ltac:(lia)) as Pa.
    pose proof (Z.pow_pos_nonneg 2 (53 - db) ltac:(lia) ltac:(lia)) as Pb.
    unfold f64_sub, SFsub. cbn [cond_Zopp].
    rewrite Z.min_r by lia.
    rewrite !shl_align_fst by lia.
    rewrite !Z2Pos.id by nia.
    rewrite Z.sub_diag. change (2 ^ 0) with 1. rewrite Z.mul_1_r.
    replace (b * 2 ^ (53 - db) * 2 ^ (db - 53 - (da - 53)))
      with (b * 2 ^ (53 - da)).
    2:{ rewrite <- Z.mul_assoc, <- Z.pow_add_r by lia. do 2 f_equal. lia. }
    rewrite <- Z.mul_sub_distr_r.
    destruct (Z.eq_dec a b) as [->|Nab].
    + rewrite Z.sub_diag. reflexivity.
    + replace (da - 53) with (- (53 - da)) by lia.
      apply binary_normalize_exact; lia.
Qed.

(** Milliseconds keep the order of nanoseconds. *)
Lemma millis_of_nanos_leb n1 n2 :
  0 <= n1 <= n2 -> n2 < 2 ^ 64 ->
  f64_leb (millis_of_nanos n1) (millis_of_nanos n2) = true.
Proof.
  intros Hn H2.
  pose proof (millis_of_nanos_mono n1 n2 Hn H2) as Hle.
  destruct (millis_of_nanos_shape n1 ltac:(unfold is_u64; lia)) as [[-> E1]|[P1 N1]].
  - destruct (millis_of_nanos_shape n2 ltac:(unfold is_u64; lia)) as [[-> E2]|[P2 N2]].
    + reflexivity.
    + rewrite E1.
      destruct (millis_of_nanos n2) as [s|s| |[] m e]; try contradiction. reflexivity.
  - destruct (millis_of_nanos_shape n2 ltac:(unfold is_u64; lia)) as [[-> E2]|[P2 N2]]; [lia|].
    now apply normal_leb.
Qed.

Lemma millis_of_nanos_sign n : is_u64 n -> sign_clear (millis_of_nanos n).
Proof.
  intros Hn. destruct (millis_of_nanos_shape n Hn) as [[-> E]|[P N]].
  - reflexivity.
  - destruct (millis_of_nanos n) as [s|s| |[] m e]; try contradiction. reflexivity.
Qed.

(** ** The milestone store *)

Section MilestoneStore.
Context `{PerformanceEnums}.

Implicit Types (env : Environment) (st : PerformanceState).

Lemma mark_milestone_valid env arg0 now :
  wf_state (performance_state env) ->
  0 <= arg0 < Z.of_nat NODE_PERFORMANCE_MILESTONE_INVALID ->
  MarkMilestone env kPrincipal arg0 now =
    Returns (set_performance_state env
               (set_milestones (performance_state env)
                  (<[Z.to_nat arg0 := f64_of_u64 now]>
                     (milestones (performance_state env))))).
Proof.
  intros [Hm _] Ha. unfold MarkMilestone. cbn [RealmKind_eqb CHECK mbind Outcome_bind].
  destruct (Z.eqb_spec arg0 (Z.of_nat NODE_PERFORMANCE_MILESTONE_INVALID)) as [E|_]; [lia|].
  cbn [negb]. rewrite mark_valid by lia. reflexivity.
Qed.

(** X1.  A state constructed without a snapshot: every milestone slot
    holds the sentinel [-1], every observer counter is zero, both
    buffers have the length of their enumeration, and no collection is
    in progress. *)
Theorem fresh_state_contents :
  milestones (PerformanceState_new None) =
    replicate NODE_PERFORMANCE_MILESTONE_INVALID f64_minus_one /\
  observers (PerformanceState_new None) =
    replicate NODE_PERFORMANCE_ENTRY_TYPE_INVALID 0 /\
  (forall i, (i < NODE_PERFORMANCE_MILESTONE_INVALID)%nat ->
     milestones (PerformanceState_new None) !! i = Some f64_minus_one) /\
  (forall i, (i < NODE_PERFORMANCE_ENTRY_TYPE_INVALID)%nat ->
     observers (PerformanceState_new None) !! i = Some 0) /\
  current_gc_type (PerformanceState_new None) = 0 /\
  performance_last_gc_start_mark (PerformanceState_new None) = 0.
Proof.
  assert (E : milestones (PerformanceState_new None) =
              replicate NODE_PERFORMANCE_MILESTONE_INVALID f64_minus_one).
  { cbn [PerformanceState_new milestones].
    now rewrite reset_milestones_replicate, length_replicate. }
  split; [exact E|]. split; [reflexivity|].
  split; [|split; [|split; reflexivity]].
  - intros i Hi. rewrite E. now apply lookup_replicate_2.
  - intros i Hi. cbn [PerformanceState_new observers]. now apply lookup_replicate_2.
Qed.


(** X3.  With a valid identifier, [MarkMilestone] writes the converted
    timestamp to that one slot: the slot reads back the timestamp, every
    other slot reads as before, the buffers keep their lengths, and the
    observer counters, the state of the collection tracker and the rest
    of the environment are as they were. *)
Theorem mark_milestone_writes_one_slot env arg0 now :
  wf_state (performance_state env) ->
  0 <= arg0 < Z.of_nat NODE_PERFORMANCE_MILESTONE_INVALID ->
  exists env',
    MarkMilestone env kPrincipal arg0 now = Returns env' /\
    milestones (performance_state env') !! Z.to_nat arg0 = Some (f64_of_u64 now) /\
    (forall i, i <> Z.to_nat arg0 ->
       milestones (performance_state env') !! i =
       milestones (performance_state env) !! i) /\
    wf_state (performance_state env') /\
    observers (performance_state env') = observers (performance_state env) /\
    current_gc_type (performance_state env') = current_gc_type (performance_state env) /\
    performance_last_gc_start_mark (performance_state env') =
      performance_last_gc_start_mark (performance_state env) /\
    env' = set_performance_state env (performance_state env').
Proof.
  intros Hwf Ha. eexists. split; [now apply mark_milestone_valid|].
  destruct Hwf as [Hm Ho].
  cbn [set_performance_state performance_state set_milestones milestones observers
       current_gc_type performance_last_gc_start_mark].
  split; [apply list_lookup_insert_eq; lia|].
  split; [intros i Hi; now apply list_lookup_insert_ne|].
  split; [split; [cbn; now rewrite length_insert|exact Ho]|].
  repeat split.
Qed.

(** X4.  Marks compose by overwriting.  A second mark of the same
    milestone replaces the first, whatever the two timestamps are: the
    store keeps the last write and compares nothing.  Marks of two
    different milestones can be swapped. *)
Theorem mark_overwrites_and_commutes st i j t1 t2 s1 s12 :
  Mark st i t1 = Returns s1 ->
  Mark s1 j t2 = Returns s12 ->
  (i = j -> Mark st j t2 = Returns s12) /\
  (i <> j ->
   exists s2, Mark st j t2 = Returns s2 /\ Mark s2 i t1 = Returns s12).
Proof.
  intros E1 E2.
  destruct (mark_inv _ _ _ _ E1) as [Hi M1].
  destruct (mark_inv _ _ _ _ E2) as [Hj M2].
  rewrite M1, length_insert in Hj.
  rewrite mark_valid in E1 by assumption. injection E1 as <-.
  cbn [set_milestones milestones] in *.
  rewrite mark_valid in E2 by (cbn [set_milestones milestones]; rewrite length_insert; lia).
  injection E2 as <-. cbn [set_milestones milestones observers
    performance_last_gc_start_mark current_gc_type index_].
  split.
  - intros ->. rewrite mark_valid by assumption. unfold set_milestones.
    now rewrite list_insert_insert_eq.
  - intros N. eexists. split; [now apply mark_valid|].
    rewrite mark_valid by (cbn [set_milestones milestones]; rewrite length_insert; lia).
    unfold set_milestones. cbn [milestones observers
      performance_last_gc_start_mark current_gc_type index_].
    rewrite list_insert_insert_ne; [reflexivity|]. intros E. apply N. lia.
Qed.

(** X5.  [MarkBootstrapComplete] is [MarkMilestone] at the identifier of
    the end of bootstrap.  That identifier is inside the enumeration, so
    from the principal realm the call always comes back, with the
    timestamp in its slot and every other slot as before; from another
    realm it stops at its CHECK. *)
Theorem mark_bootstrap_complete_as_milestone env realm now :
  wf_state (performance_state env) ->
  MarkBootstrapComplete env realm now =
    MarkMilestone env realm (Z.of_nat NODE_PERFORMANCE_MILESTONE_BOOTSTRAP_COMPLETE) now /\
  (realm <> kPrincipal -> MarkBootstrapComplete env realm now = Faults CheckFailed) /\
  (realm = kPrincipal ->
   exists env',
     MarkBootstrapComplete env realm now = Returns env' /\
     milestones (performance_state env') !! NODE_PERFORMANCE_MILESTONE_BOOTSTRAP_COMPLETE =
       Some (f64_of_u64 now) /\
     forall i, i <> NODE_PERFORMANCE_MILESTONE_BOOTSTRAP_COMPLETE ->
       milestones (performance_state env') !! i =
       milestones (performance_state env) !! i).
Proof.
  intros Hwf. pose proof bootstrap_complete_valid as Hb.
  assert (E : MarkBootstrapComplete env realm now =
    MarkMilestone env realm (Z.of_nat NODE_PERFORMANCE_MILESTONE_BOOTSTRAP_COMPLETE) now).
  { unfold MarkBootstrapComplete, MarkMilestone.
    destruct (Z.eqb_spec (Z.of_nat NODE_PERFORMANCE_MILESTONE_BOOTSTRAP_COMPLETE)
                         (Z.of_nat NODE_PERFORMANCE_MILESTONE_INVALID)) as [E|_]; [lia|].
    reflexivity. }
  split; [exact E|]. split.
  - intros N. destruct realm; [contradiction|reflexivity].
  - intros ->. rewrite E, mark_milestone_valid by (assumption || lia).
    eexists. split; [reflexivity|].
    cbn [set_performance_state performance_state set_milestones milestones].
    rewrite Nat2Z.id. destruct Hwf as [Hm _].
    split; [apply list_lookup_insert_eq; lia|].
    intros i Hi. now apply list_lookup_insert_ne.
Qed.

(** X6.  Timestamps below [2 ^ 53] nanoseconds are stored without loss:
    two marks of a slot that read back the same were made with the same
    timestamp.  (From [2 ^ 53] on, neighbouring timestamps share a
    double.) *)
Theorem mark_timestamp_exact st milestone t1 t2 s1 s2 :
  0 <= t1 < 2 ^ 53 -> 0 <= t2 < 2 ^ 53 ->
  Mark st milestone t1 = Returns s1 ->
  Mark st milestone t2 = Returns s2 ->
  milestones s1 !! Z.to_nat milestone = milestones s2 !! Z.to_nat milestone ->
  t1 = t2.
Proof.
  intros H1 H2 E1 E2 E.
  destruct (mark_inv _ _ _ _ E1) as [Hi M1].
  destruct (mark_inv _ _ _ _ E2) as [_ M2].
  rewrite M1, M2, !list_lookup_insert_eq in E by lia.
  injection E as E. now apply f64_of_u64_inj.
Qed.

End MilestoneStore.

(** ** The callback and the calls in sequence *)

Section CallSequences.
Context `{PerformanceEnums}.

Implicit Types (env : Environment) (calls : list Call).

(** X7.  [SetupPerformanceObservers] comes back exactly when it is
    called from the principal realm with a function; it then holds that
    function as the callback and has changed nothing else.  In every
    other case it stops at a CHECK. *)
Theorem setup_observers_returns_iff env realm arg0 :
  ((exists env', SetupPerformanceObservers env realm arg0 = Returns env') <->
   realm = kPrincipal /\ IsFunction arg0 = true) /\
  (forall env', SetupPerformanceObservers env realm arg0 = Returns env' ->
     exists f, arg0 = Function f /\ env' = set_performance_entry_callback env f) /\
  (realm <> kPrincipal \/ IsFunction arg0 = false ->
   SetupPerformanceObservers env realm arg0 = Faults CheckFailed).
Proof.
  split; [|split].
  - split.
    + intros [env' E]. destruct realm; [|discriminate E].
      destruct arg0; try discriminate E. split; reflexivity.
    + intros [-> F]. destruct arg0; try discriminate F. eexists. reflexivity.
  - intros env' E. destruct realm; [|discriminate E].
    destruct arg0; try discriminate E. injection E as <-. eexists. split; reflexivity.
  - intros [N|F].
    + destruct realm; [contradiction|reflexivity].
    + destruct realm; [|reflexivity]. destruct arg0; try discriminate F; reflexivity.
Qed.

(** X8.  Registration and notification compose: after two
    registrations, a notification of a type with observers calls the
    function registered last, once, with the entry it was given, and
    calls nothing else. *)
Theorem notify_calls_last_registered env f g env1 env2 type entry :
  SetupPerformanceObservers env kPrincipal (Function f) = Returns env1 ->
  SetupPerformanceObservers env1 kPrincipal (Function g) = Returns env2 ->
  interested env type ->
  Notify env2 type entry =
    Returns (set_callback_calls env2 (callback_calls env ++ [(g, entry)])).
Proof.
  intros E1 E2 Hi. injection E1 as <-. injection E2 as <-.
  rewrite notify_interested by exact Hi. reflexivity.
Qed.

Lemma mark_returns st milestone ts st' :
  Mark st milestone ts = Returns st' ->
  st' = set_milestones st (<[Z.to_nat milestone := f64_of_u64 ts]> (milestones st)).
Proof.
  intros E. destruct (mark_inv _ _ _ _ E) as [Hi _].
  rewrite mark_valid in E by assumption. now injection E as <-.
Qed.

(** What one call leaves alone, and what it can only extend. *)
Lemma perform_step env c env' :
  perform env c = Returns env' ->
  length (milestones (performance_state env')) =
    length (milestones (performance_state env)) /\
  observers (performance_state env') = observers (performance_state env) /\
  time_origin env' = time_origin env /\
  idle_time env' = idle_time env /\
  callback_calls env `prefix_of` callback_calls env' /\
  native_immediates env `prefix_of` native_immediates env' /\
  histograms env `prefix_of` histograms env' /\
  (is_Some (performance_entry_callback env) ->
   is_Some (performance_entry_callback env')).
Proof.
  assert (Hsame : forall e : Environment,
    length (milestones (performance_state e)) = length (milestones (performance_state e)) /\
    observers (performance_state e) = observers (performance_state e) /\
    time_origin e = time_origin e /\ idle_time e = idle_time e /\
    callback_calls e `prefix_of` callback_calls e /\
    native_immediates e `prefix_of` native_immediates e /\
    histograms e `prefix_of` histograms e /\
    (is_Some (performance_entry_callback e) -> is_Some (performance_entry_callback e))).
  { intros e. repeat split; auto. }
  destruct c as [realm arg0 now|realm now|realm arg0|type entry| | |interval|s];
    cbn [perform]; intros E.
  - unfold MarkMilestone in E. destruct realm; [|discriminate E].
    cbn [RealmKind_eqb CHECK mbind Outcome_bind] in E.
    destruct (negb _).
    + destruct (Mark _ _ _) as [st| |] eqn:EM; try discriminate E.
      cbn in E. injection E as <-. apply mark_returns in EM as ->.
      cbn. rewrite length_insert. repeat split; auto.
    + injection E as <-. apply Hsame.
  - unfold MarkBootstrapComplete in E. destruct realm; [|discriminate E].
    cbn [RealmKind_eqb CHECK mbind Outcome_bind] in E.
    destruct (Mark _ _ _) as [st| |] eqn:EM; try discriminate E.
    cbn in E. injection E as <-. apply mark_returns in EM as ->.
    cbn. rewrite length_insert. repeat split; auto.
  - destruct realm; [|discriminate E]. destruct arg0; try discriminate E.
    injection E as <-. cbn. repeat split; auto.
  - unfold Notify in E. destruct (negb _); [|injection E as <-; apply Hsame].
    destruct (aref _ _) as [n| |]; try discriminate E.
    cbn [mbind Outcome_bind] in E.
    destruct (negb _); [|injection E as <-; apply Hsame].
    destruct (performance_entry_callback env) eqn:Ec; [|discriminate E].
    injection E as <-. cbn. rewrite Ec. repeat split; auto.
    now apply prefix_app_r.
  - injection E as <-. apply Hsame.
  - injection E as <-. apply Hsame.
  - unfold CreateELDHistogram in E. destruct (0 <? interval); [|discriminate E].
    injection E as <-. cbn. repeat split; auto. now apply prefix_app_r.
  - destruct s as [type flags now|type flags now]; cbn [deliver] in E.
    + unfold MarkGarbageCollectionStart in E.
      destruct (negb _); injection E as <-; [apply Hsame|].
      cbn. repeat split; auto.
    + unfold MarkGarbageCollectionEnd in E.
      destruct (negb _); [injection E as <-; apply Hsame|].
      destruct (aref _ _) as [n| |]; try discriminate E.
      cbn [mbind Outcome_bind] in E.
      destruct (n =? 0); injection E as <-; cbn; repeat split; auto.
      now apply prefix_app_r.
Qed.

Lemma calls_keep_ready calls : forall env env',
  perform_all env calls = Returns env' ->
  wf_state (performance_state env) ->
  is_Some (performance_entry_callback env) ->
  wf_state (performance_state env') /\ is_Some (performance_entry_callback env').
Proof.
  induction calls as [|c calls IH]; intros env env' E Hw Hf.
  - injection E as <-. now split.
  - cbn [perform_all] in E. destruct (perform env c) as [env0| |] eqn:Ec; try discriminate E.
    cbn [mbind Outcome_bind] in E.
    destruct (perform_step _ _ _ Ec) as (Hm & Ho & _ & _ & _ & _ & _ & Hf0).
    apply (IH _ _ E); [|auto].
    destruct Hw as [W1 W2]. split; [now rewrite Hm|now rewrite Ho].
Qed.


(** X10.  What calls can only extend.  Over any sequence of calls and
    signals that all come back, the record of calls made into the
    scripting layer and the queue of native immediates each keep what
    they held and grow at the end only, and a registered callback is
    never taken away. *)
Theorem calls_only_extend env calls env' :
  perform_all env calls = Returns env' ->
  callback_calls env `prefix_of` callback_calls env' /\
  native_immediates env `prefix_of` native_immediates env' /\
  (is_Some (performance_entry_callback env) ->
   is_Some (performance_entry_callback env')).
Proof.
  revert env. induction calls as [|c calls IH]; intros env E.
  - injection E as <-. repeat split; auto.
  - cbn [perform_all] in E. destruct (perform env c) as [env0| |] eqn:Ec; try discriminate E.
    cbn [mbind Outcome_bind] in E.
    destruct (perform_step _ _ _ Ec) as (_ & _ & _ & _ & Hc & Hq & _ & Hf).
    destruct (IH _ E) as (Hc' & Hq' & Hf').
    repeat split; try (etrans; eassumption). auto.
Qed.

(** X11.  Once a callback is registered on a state whose buffers have
    their lengths, [Notify] comes back whatever its arguments are, and
    keeps doing so after any further calls and signals: the empty
    callback slot is the only thing it can stumble on. *)
Theorem notify_returns_once_registered env f env0 calls env1 type entry :
  wf_state (performance_state env) ->
  SetupPerformanceObservers env kPrincipal (Function f) = Returns env0 ->
  perform_all env0 calls = Returns env1 ->
  exists env2, Notify env1 type entry = Returns env2.
Proof.
  intros Hwf E0 E1. injection E0 as <-.
  destruct (calls_keep_ready _ _ _ E1 Hwf ltac:(now eexists)) as (Hw & [g Eg]).
  destruct (interested_dec env1 type Hw) as [I|I].
  - rewrite notify_interested, Eg by exact I. now eexists.
  - rewrite notify_not_interested by assumption. now eexists.
Qed.

(** A call from the scripting layer leaves the tracker as it was. *)
Lemma script_call_same_tracker env c env' :
  (forall s, c <> CallSignal s) ->
  perform env c = Returns env' ->
  same_tracker env' env.
Proof.
  intros Hc.
  destruct c as [realm arg0 now|realm now|realm arg0|type entry| | |interval|s];
    cbn [perform]; intros E.
  - unfold MarkMilestone in E. destruct realm; [|discriminate E].
    cbn [RealmKind_eqb CHECK mbind Outcome_bind] in E.
    destruct (negb _).
    + destruct (Mark _ _ _) as [st| |] eqn:EM; try discriminate E.
      cbn in E. injection E as <-. apply mark_returns in EM as ->.
      repeat split.
    + injection E as <-. repeat split.
  - unfold MarkBootstrapComplete in E. destruct realm; [|discriminate E].
    cbn [RealmKind_eqb CHECK mbind Outcome_bind] in E.
    destruct (Mark _ _ _) as [st| |] eqn:EM; try discriminate E.
    cbn in E. injection E as <-. apply mark_returns in EM as ->.
    repeat split.
  - destruct realm; [|discriminate E]. destruct arg0; try discriminate E.
    injection E as <-. repeat split.
  - unfold Notify in E. destruct (negb _); [|injection E as <-; repeat split].
    destruct (aref _ _) as [n| |]; try discriminate E.
    cbn [mbind Outcome_bind] in E.
    destruct (negb _); [|injection E as <-; repeat split].
    destruct (performance_entry_callback env); [|discriminate E].
    injection E as <-. repeat split.
  - injection E as <-. repeat split.
  - injection E as <-. repeat split.
  - unfold CreateELDHistogram in E. destruct (0 <? interval); [|discriminate E].
    injection E as <-. repeat split.
  - now destruct (Hc s).
Qed.

(** The tracker treats alike two environments it cannot tell apart. *)
Lemma deliver_same_tracker env envs s env' :
  same_tracker env envs ->
  deliver env s = Returns env' ->
  exists envs', deliver envs s = Returns envs' /\ same_tracker env' envs'.
Proof.
  intros (Hc & Hm & Ho & Ht & Hq & Hr).
  destruct s as [type flags now|type flags now]; cbn [deliver]; intros E.
  - unfold MarkGarbageCollectionStart in *. rewrite <- Hc.
    destruct (negb _); injection E as <-; (eexists; split; [reflexivity|]);
      repeat split; assumption.
  - unfold MarkGarbageCollectionEnd in *. rewrite <- Hc, <- Ho.
    destruct (negb _).
    + injection E as <-. eexists. split; [reflexivity|]. repeat split; assumption.
    + destruct (aref _ _) as [n| |]; try discriminate E.
      cbn [mbind Outcome_bind] in *.
      destruct (n =? 0); injection E as <-; (eexists; split; [reflexivity|]).
      * repeat split; assumption.
      * unfold same_tracker. cbn. rewrite Hm, Ht, Hq, Hr. repeat split; assumption.
Qed.

(** X22.  Calls from the scripting layer do not disturb the tracking of
    collections.  Whatever marks, registrations, notifications and
    queries arrive between the collector's signals, the tracker ends in
    the state, and the host's queue holds the tasks, that the signals
    alone would have led to. *)
Theorem script_calls_do_not_disturb_tracker env calls env1 :
  perform_all env calls = Returns env1 ->
  exists env2,
    run env (signals_of calls) = Returns env2 /\
    current_gc_type (performance_state env1) = current_gc_type (performance_state env2) /\
    performance_last_gc_start_mark (performance_state env1) =
      performance_last_gc_start_mark (performance_state env2) /\
    native_immediates env1 = native_immediates env2 /\
    immediate_ref_count env1 = immediate_ref_count env2.
Proof.
  assert (G : forall calls env envs env1,
    same_tracker env envs ->
    perform_all env calls = Returns env1 ->
    exists env2, run envs (signals_of calls) = Returns env2 /\ same_tracker env1 env2).
  { clear. intros calls. induction calls as [|c calls IH]; intros env envs env1 R E.
    - injection E as <-. exists envs. split; [reflexivity|exact R].
    - cbn [perform_all] in E.
      destruct (perform env c) as [env0| |] eqn:Ec; try discriminate E.
      cbn [mbind Outcome_bind] in E.
      destruct c as [realm arg0 now|realm now|realm arg0|type entry| | |interval|s];
        try (apply (IH env0 envs env1); [|exact E];
             apply script_call_same_tracker in Ec; [|discriminate];
             destruct Ec as (? & ? & ? & ? & ? & ?), R as (? & ? & ? & ? & ? & ?);
             repeat split; congruence).
      cbn [perform] in Ec.
      destruct (deliver_same_tracker _ _ _ _ R Ec) as (envs0 & Es & R0).
      destruct (IH _ _ _ R0 E) as (env2 & E2 & R2).
      exists env2. split; [|exact R2].
      cbn [signals_of omap list_omap]. fold (signals_of calls).
      cbn [run]. rewrite Es. exact E2. }
  intros E. destruct (G calls env env env1 ltac:(repeat split) E)
    as (env2 & E2 & (Hc & Hm & _ & _ & Hq & Hr)).
  exists env2. repeat split; assumption.
Qed.

End CallSequences.

(** ** The tracker and the host's queue *)

Section TrackerQueue.
Context `{PerformanceEnums}.

Implicit Types (env : Environment) (sigs : list GCSignal).

(** What one signal does to the queue. *)
Lemma deliver_queue env s env' :
  deliver env s = Returns env' ->
  immediate_ref_count env' = immediate_ref_count env /\
  histograms env' = histograms env /\
  idle_time env' = idle_time env /\
  exists new,
    native_immediates env' = native_immediates env ++ new /\
    Forall tracker_task new /\
    (length new <= if is_prologue s then 0 else 1)%nat /\
    (~ is_epilogue_of 0 s ->
     (length new + cycles_open env' <=
      cycles_open env + if is_prologue s then 1 else 0)%nat).
Proof.
  unfold cycles_open.
  destruct s as [type flags now|type flags now]; cbn [deliver is_prologue is_epilogue_of];
    intros E.
  - unfold MarkGarbageCollectionStart in E.
    destruct (negb _); injection E as <-;
      (repeat split; exists []; rewrite app_nil_r;
       repeat split; [constructor|cbn; lia|]; intros _; cbn;
       repeat match goal with |- context [?a =? ?b] => destruct (Z.eqb_spec a b) end; lia).
  - unfold MarkGarbageCollectionEnd in E.
    destruct (Z.eqb_spec type (current_gc_type (performance_state env))) as [Em|Nm];
      cbn [negb] in E.
    + destruct (aref _ _) as [n| |]; try discriminate E.
      cbn [mbind Outcome_bind] in E.
      destruct (n =? 0); injection E as <-.
      * repeat split. exists []. rewrite app_nil_r.
        repeat split; [constructor|cbn; lia|]. intros N0. cbn.
        repeat match goal with |- context [?a =? ?b] => destruct (Z.eqb_spec a b) end; lia.
      * repeat split. eexists. split; [reflexivity|].
        repeat split; [repeat constructor|cbn; lia|]. intros N0. cbn.
        repeat match goal with |- context [?a =? ?b] => destruct (Z.eqb_spec a b) end; lia.
    + injection E as <-. repeat split. exists []. rewrite app_nil_r.
      repeat split; [constructor|cbn; lia|]. intros _. cbn.
      repeat match goal with |- context [?a =? ?b] => destruct (Z.eqb_spec a b) end; lia.
Qed.

(** X12.  What the collector's signals can reach.  No sequence of
    prologues and epilogues calls into the scripting layer, takes a
    reference on the runtime, or touches a milestone, an observer
    counter, the callback, the time origin or a histogram.  All it
    leaves behind, besides the state of the tracker, are tasks at the
    end of the host's queue: unreferenced, each carrying a "gc" entry,
    and no more of them than there were epilogues. *)
Theorem gc_signals_reach env sigs env1 :
  run env sigs = Returns env1 ->
  callback_calls env1 = callback_calls env /\
  immediate_ref_count env1 = immediate_ref_count env /\
  milestones (performance_state env1) = milestones (performance_state env) /\
  observers (performance_state env1) = observers (performance_state env) /\
  performance_entry_callback env1 = performance_entry_callback env /\
  time_origin env1 = time_origin env /\
  histograms env1 = histograms env /\
  exists new,
    native_immediates env1 = native_immediates env ++ new /\
    Forall tracker_task new /\
    (length new <= length (filter (fun s => negb (is_prologue s)) sigs))%nat.
Proof.
  revert env. induction sigs as [|s sigs IH]; intros env E.
  - injection E as <-. repeat split. exists []. rewrite app_nil_r.
    repeat split; [constructor|cbn; lia].
  - cbn [run] in E. destruct (deliver env s) as [env0| |] eqn:Es; try discriminate E.
    cbn [mbind Outcome_bind] in E.
    destruct (deliver_frame _ _ _ Es) as (Fm & Fo & Ft & Fc & Ff).
    destruct (deliver_queue _ _ _ Es) as (Qr & Qh & _ & new0 & Qn & Qt & Ql & _).
    destruct (IH _ E) as (Ic & Ir & Im & Io & If & It & Ih & new1 & In & It' & Il).
    repeat split; try congruence.
    exists (new0 ++ new1). rewrite In, Qn, app_assoc.
    split; [reflexivity|]. split; [now apply Forall_app|].
    rewrite length_app. rewrite filter_cons.
    destruct s; cbn [is_prologue negb] in *.
    + destruct (decide _) as [d|d]; [destruct d|]. lia.
    + destruct (decide _) as [d|d]; [|destruct d; exact I]. cbn [length]. lia.
Qed.

(** X13.  At most one entry for each cycle.  As long as no epilogue
    carries the kind zero, the tasks queued by a sequence of signals,
    together with a cycle still open at its end, are no more than the
    prologues in the sequence, together with a cycle that was open at
    its start. *)
Theorem gc_entries_bounded_by_prologues env sigs env1 :
  epilogue_kinds_nonzero sigs ->
  run env sigs = Returns env1 ->
  (length (native_immediates env1) + cycles_open env1 <=
   length (native_immediates env) + cycles_open env +
   length (filter (fun s => is_prologue s) sigs))%nat.
Proof.
  revert env. induction sigs as [|s sigs IH]; intros env Hk E.
  - injection E as <-. cbn. lia.
  - cbn [run] in E. destruct (deliver env s) as [env0| |] eqn:Es; try discriminate E.
    cbn [mbind Outcome_bind] in E.
    apply Forall_cons in Hk as [Hs Hk].
    destruct (deliver_queue _ _ _ Es) as (_ & _ & _ & new0 & Qn & _ & _ & Qp).
    specialize (Qp Hs). specialize (IH _ Hk E).
    rewrite Qn, length_app in IH. rewrite filter_cons.
    destruct s; cbn [is_prologue] in *.
    + destruct (decide _) as [d|d]; [|destruct d; exact I]. cbn [length]. lia.
    + destruct (decide _) as [d|d]; [destruct d|]. lia.
Qed.

(** X14.  An epilogue delivered twice counts once: after an epilogue of
    a nonzero kind has come back, a second epilogue of that kind changes
    nothing, whatever its flags and its time. *)
Theorem duplicate_epilogue_ignored env type flags now flags' now' env1 :
  type <> 0 ->
  MarkGarbageCollectionEnd env type flags now = Returns env1 ->
  MarkGarbageCollectionEnd env1 type flags' now' = Returns env1.
Proof.
  intros N0 E. apply end_mismatch.
  unfold MarkGarbageCollectionEnd in E.
  destruct (Z.eqb_spec type (current_gc_type (performance_state env))) as [Em|Nm];
    cbn [negb] in E.
  - destruct (aref _ _) as [n| |]; try discriminate E.
    cbn [mbind Outcome_bind] in E.
    destruct (n =? 0); injection E as <-; exact N0.
  - now injection E as <-.
Qed.

(** X15.  What arrives inside a cycle leaves no trace.  A prologue of a
    nonzero kind accepted in an idle state, then any signals other than
    the epilogue of that kind, then that epilogue: the outcome is that
    of the prologue followed at once by the epilogue. *)
Theorem cycle_ignores_what_is_nested env k flags t noise flags' now :
  current_gc_type (performance_state env) = 0 ->
  k <> 0 ->
  Forall (fun s => ~ is_epilogue_of k s) noise ->
  run env (Prologue k flags t :: noise ++ [Epilogue k flags' now]) =
  run env [Prologue k flags t; Epilogue k flags' now].
Proof.
  intros Hi Nk Hn. cbn [run deliver]. rewrite start_idle by exact Hi.
  cbn [mbind Outcome_bind]. rewrite run_app.
  rewrite (run_ignored (started env k t) k noise); [reflexivity|reflexivity|exact Nk|exact Hn].
Qed.

(** X16.  The duration of a cycle that starts and ends on whole
    milliseconds, below [2 ^ 53] nanoseconds, is exact: the number of
    milliseconds between the two, with no rounding error from the two
    divisions and the subtraction. *)
Theorem gc_duration_whole_millis env type flags now env2 task a b :
  MarkGarbageCollectionEnd env type flags now = Returns env2 ->
  native_immediates env2 = native_immediates env ++ [task] ->
  performance_last_gc_start_mark (performance_state env) = a * 1000000 ->
  now = b * 1000000 ->
  0 <= a <= b -> b * 1000000 < 2 ^ 53 ->
  entry_duration (immediate_entry task) = f64_of_u64 (b - a).
Proof.
  intros E Q Ea Eb Hab Hb.
  destruct (end_entry_inv _ _ _ _ _ _ E Q) as (_ & _ & _ & ->).
  cbn [immediate_entry gc_entry entry_duration]. rewrite Ea, Eb.
  rewrite !millis_of_nanos_whole by lia.
  apply f64_sub_exact; lia.
Qed.

(** X17.  The start time of an entry is never negative and never a NaN,
    whatever the stored mark and the time origin are.  A mark before the
    origin does not give a negative start time: the unsigned difference
    wraps, and the start time is [2 ^ 64] nanoseconds above the signed
    difference. *)
Theorem gc_start_time_sign env type flags now env2 task :
  is_u64 (performance_last_gc_start_mark (performance_state env)) ->
  is_u64 (time_origin env) ->
  MarkGarbageCollectionEnd env type flags now = Returns env2 ->
  native_immediates env2 = native_immediates env ++ [task] ->
  let mark := performance_last_gc_start_mark (performance_state env) in
  let origin := time_origin env in
  sign_clear (entry_start_time (immediate_entry task)) /\
  f64_leb (S754_zero false) (entry_start_time (immediate_entry task)) = true /\
  (mark < origin ->
   entry_start_time (immediate_entry task) = millis_of_nanos (2 ^ 64 + mark - origin) /\
   f64_leb (millis_of_nanos (2 ^ 64 - origin))
           (entry_start_time (immediate_entry task)) = true).
Proof.
  intros Hm Ho E Q mark origin.
  destruct (end_entry_inv _ _ _ _ _ _ E Q) as (_ & _ & _ & ->).
  cbn [immediate_entry gc_entry entry_start_time]. fold mark origin.
  fold (millis_of_nanos (u64_sub mark origin)).
  assert (Hu : is_u64 (u64_sub mark origin)).
  { unfold is_u64, u64_sub. apply Z.mod_pos_bound. lia. }
  pose proof (millis_of_nanos_sign _ Hu) as Hs.
  split; [exact Hs|]. split; [now apply sign_clear_leb|].
  intros Lt. unfold is_u64 in Hm, Ho. fold mark in Hm. fold origin in Ho.
  assert (W : u64_sub mark origin = 2 ^ 64 + mark - origin).
  { unfold u64_sub. symmetry. apply (Z.mod_unique _ _ (-1)); lia. }
  rewrite W. split; [reflexivity|].
  apply millis_of_nanos_leb; lia.
Qed.

(** The marks behind the entries that a sequence of signals queues:
    each the time of a prologue, in the order of the clock. *)
Lemma run_entry_marks sigs : forall env env1 lo,
  (current_gc_type (performance_state env) <> 0 ->
   performance_last_gc_start_mark (performance_state env) = lo) ->
  lo < 2 ^ 64 ->
  monotonic_from lo (map signal_clock sigs) ->
  Forall (fun s => signal_clock s < 2 ^ 64) sigs ->
  epilogue_kinds_nonzero sigs ->
  run env sigs = Returns env1 ->
  exists new marks,
    native_immediates env1 = native_immediates env ++ new /\
    map (fun t => entry_start_time (immediate_entry t)) new =
      map (fun m => f64_div (f64_of_u64 (u64_sub m (time_origin env))) NANOS_PER_MILLIS)
          marks /\
    monotonic_from lo marks /\
    Forall (fun m => m < 2 ^ 64) marks.
Proof.
  induction sigs as [|s sigs IH]; intros env env1 lo Hb Hlo Hmono Hclk Hk E.
  - injection E as <-. exists [], []. rewrite app_nil_r.
    repeat split; constructor.
  - cbn [run] in E. destruct (deliver env s) as [env0| |] eqn:Es; try discriminate E.
    cbn [mbind Outcome_bind] in E.
    cbn [map monotonic_from] in Hmono. destruct Hmono as [Hc Hmono].
    apply Forall_cons in Hclk as [Hs Hclk]. apply Forall_cons in Hk as [Hn Hk].
    pose proof (monotonic_from_weaken _ _ _ Hc Hmono) as Hmono'.
    destruct s as [type flags now|type flags now];
      cbn [deliver signal_clock is_epilogue_of] in *.
    + unfold MarkGarbageCollectionStart in Es.
      destruct (Z.eqb_spec (current_gc_type (performance_state env)) 0) as [Z0|N0];
        cbn [negb] in Es; injection Es as <-.
      * match type of E with run ?e0 _ = _ =>
          destruct (IH e0 env1 now ltac:(intros _; reflexivity) Hs Hmono Hclk Hk E)
            as (new & marks & Q & S & M & B) end.
        exists new, marks. repeat split; try assumption.
        now apply (monotonic_from_weaken lo now).
      * destruct (IH _ _ lo Hb Hlo Hmono' Hclk Hk E) as (new & marks & Q & S & M & B).
        exists new, marks. repeat split; assumption.
    + unfold MarkGarbageCollectionEnd in Es.
      destruct (Z.eqb_spec type (current_gc_type (performance_state env))) as [Em|Nm];
        cbn [negb] in Es.
      * destruct (aref _ _) as [n| |]; try discriminate Es.
        cbn [mbind Outcome_bind] in Es.
        destruct (n =? 0); injection Es as <-.
        -- match type of E with run ?e0 _ = _ =>
             destruct (IH e0 env1 now ltac:(intros C; now destruct C) Hs Hmono Hclk Hk E)
               as (new & marks & Q & S & M & B) end.
           exists new, marks. repeat split; try assumption.
           now apply (monotonic_from_weaken lo now).
        -- match type of E with run ?e0 _ = _ =>
             destruct (IH e0 env1 now ltac:(intros C; now destruct C) Hs Hmono Hclk Hk E)
               as (new & marks & Q & S & M & B) end.
           cbn in Q, S.
           eexists (_ :: new), (performance_last_gc_start_mark (performance_state env) :: marks).
           split; [rewrite Q, <- app_assoc; reflexivity|].
           split; [cbn; now rewrite S|].
           rewrite (Hb ltac:(congruence)).
           split; [split; [lia|now apply (monotonic_from_weaken lo now)]|].
           now constructor.
      * injection Es as <-.
        destruct (IH _ _ lo Hb Hlo Hmono' Hclk Hk E) as (new & marks & Q & S & M & B).
        exists new, marks. repeat split; assumption.
Qed.

Lemma monotonic_from_lookup l : forall lo i j a b,
  monotonic_from lo l -> (i <= j)%nat ->
  l !! i = Some a -> l !! j = Some b -> lo <= a <= b.
Proof.
  induction l as [|x l IH]; intros lo i j a b M Hij Ea Eb; [discriminate Ea|].
  destruct M as [Hx M]. destruct i as [|i].
  - injection Ea as <-. destruct j as [|j].
    + injection Eb as <-. lia.
    + destruct l as [|y l]; [discriminate Eb|].
      pose proof (IH x 0%nat j y b M ltac:(lia) eq_refl Eb). destruct M. lia.
  - destruct j as [|j]; [lia|].
    pose proof (IH x i j a b M ltac:(lia) Ea Eb). lia.
Qed.

(** X23.  Entries are queued in the order of their start times.  From
    an idle state, under a monotonic clock that is not behind the time
    origin and with no epilogue of kind zero, of any two entries that a
    sequence of signals queues the one queued first has the start time
    that is not after the other's. *)
Theorem gc_entries_in_start_order env sigs env1 t0 new i j a b :
  current_gc_type (performance_state env) = 0 ->
  epilogue_kinds_nonzero sigs ->
  0 <= time_origin env <= t0 -> t0 < 2 ^ 64 ->
  monotonic_from t0 (map signal_clock sigs) ->
  Forall (fun s => signal_clock s < 2 ^ 64) sigs ->
  run env sigs = Returns env1 ->
  native_immediates env1 = native_immediates env ++ new ->
  (i <= j)%nat -> new !! i = Some a -> new !! j = Some b ->
  f64_leb (entry_start_time (immediate_entry a))
          (entry_start_time (immediate_entry b)) = true.
Proof.
  intros Hi Hk Ho Ht Hmono Hclk E Q Hij Ea Eb.
  destruct (run_entry_marks sigs env env1 t0 ltac:(intros C; now destruct C)
              Ht Hmono Hclk Hk E) as (new' & marks & Q' & S & M & B).
  rewrite Q in Q'. apply app_inv_head in Q' as <-.
  assert (La : (map (fun t => entry_start_time (immediate_entry t)) new) !! i =
               Some (entry_start_time (immediate_entry a)))
    by (rewrite list_lookup_fmap, Ea; reflexivity).
  assert (Lb : (map (fun t => entry_start_time (immediate_entry t)) new) !! j =
               Some (entry_start_time (immediate_entry b)))
    by (rewrite list_lookup_fmap, Eb; reflexivity).
  rewrite S in La, Lb. rewrite list_lookup_fmap in La, Lb.
  destruct (marks !! i) as [ma|] eqn:Ma; [|discriminate La].
  destruct (marks !! j) as [mb|] eqn:Mb; [|discriminate Lb].
  cbn in La, Lb. injection La as <-. injection Lb as <-.
  pose proof (monotonic_from_lookup _ _ _ _ _ _ M Hij Ma Mb) as Hab.
  pose proof (proj1 (Forall_lookup _ _) B _ _ Mb) as Hb. cbn beta in Hb.
  unfold u64_sub. rewrite !Z.mod_small by lia.
  apply millis_of_nanos_leb; lia.
Qed.

End TrackerQueue.

(** ** Installing and removing the tracker *)

Section TrackerInstall.
Context `{PerformanceEnums} `{HostHooks}.

Implicit Types (env : Environment) (hooks : Hooks).

(** X18.  Installing and removing the tracker both start from a clean
    slate.  Whatever the engine and the host do with the callbacks, when
    [InstallGarbageCollectionTracking], [RemoveGarbageCollectionTracking]
    or the cleanup hook comes back, no kind is in progress and nothing
    else of the environment has changed: the stored mark, the buffers,
    and the tasks already in the host's queue stay.  A cycle cut short
    this way gives no entry: the epilogue of a nonzero kind that follows
    is ignored, and the next prologue is accepted. *)
Theorem tracker_install_remove_reset env hooks env' hooks' :
  InstallGarbageCollectionTracking env hooks = Returns (env', hooks') \/
  RemoveGarbageCollectionTracking env hooks = Returns (env', hooks') \/
  GarbageCollectionCleanupHook env hooks = Returns (env', hooks') ->
  env' = cleared env /\
  current_gc_type (performance_state env') = 0 /\
  native_immediates env' = native_immediates env /\
  (forall type flags now, type <> 0 ->
     MarkGarbageCollectionEnd env' type flags now = Returns env') /\
  (forall type flags now,
     MarkGarbageCollectionStart env' type flags now = Returns (started env' type now)).
Proof.
  intros E.
  assert (Ec : env' = cleared env).
  { destruct E as [E|[E|E]].
    - unfold InstallGarbageCollectionTracking in E.
      destruct (AddGCPrologueCallback hooks) as [h1| |]; try discriminate E.
      cbn [mbind Outcome_bind] in E.
      destruct (AddGCEpilogueCallback h1) as [h2| |]; try discriminate E.
      cbn [mbind Outcome_bind] in E.
      destruct (AddCleanupHook h2) as [h3| |]; try discriminate E.
      cbn in E. now injection E as <- <-.
    - unfold RemoveGarbageCollectionTracking, GarbageCollectionCleanupHook in E.
      destruct (RemoveCleanupHook hooks) as [h0| |]; try discriminate E.
      cbn [mbind Outcome_bind] in E.
      destruct (RemoveGCPrologueCallback h0) as [h1| |]; try discriminate E.
      cbn [mbind Outcome_bind] in E.
      destruct (RemoveGCEpilogueCallback h1) as [h2| |]; try discriminate E.
      cbn in E. now injection E as <- <-.
    - unfold GarbageCollectionCleanupHook in E.
      destruct (RemoveGCPrologueCallback hooks) as [h1| |]; try discriminate E.
      cbn [mbind Outcome_bind] in E.
      destruct (RemoveGCEpilogueCallback h1) as [h2| |]; try discriminate E.
      cbn in E. now injection E as <- <-. }
  subst env'. split; [reflexivity|]. split; [reflexivity|]. split; [reflexivity|].
  split.
  - intros type flags now N0. apply end_mismatch. exact N0.
  - intros type flags now. now apply start_idle.
Qed.

End TrackerInstall.

(** ** Readings in milliseconds *)

Section Readings.
Context `{PerformanceEnums}.

Implicit Types (env : Environment).

(** X19.  [GetTimeOrigin] changes nothing and reports the time origin
    in milliseconds: never negative, never a NaN, exact for an origin of
    whole milliseconds below [2 ^ 53] nanoseconds, and in the order of
    the origins: a later origin never reads as an earlier one. *)
Theorem get_time_origin_reading env1 env2 :
  is_u64 (time_origin env1) -> is_u64 (time_origin env2) ->
  time_origin env1 <= time_origin env2 ->
  exists r1 r2,
    GetTimeOrigin env1 = Returns (env1, r1) /\
    GetTimeOrigin env2 = Returns (env2, r2) /\
    sign_clear r1 /\
    f64_leb r1 r2 = true /\
    (forall k, 0 <= k -> k * 1000000 < 2 ^ 53 -> time_origin env1 = k * 1000000 ->
       r1 = f64_of_u64 k).
Proof.
  intros H1 H2 Hle. do 2 eexists. split; [reflexivity|]. split; [reflexivity|].
  fold (millis_of_nanos (time_origin env1)). fold (millis_of_nanos (time_origin env2)).
  split; [now apply millis_of_nanos_sign|].
  split; [apply millis_of_nanos_leb; unfold is_u64 in *; lia|].
  intros k Hk Hb ->. now apply millis_of_nanos_whole.
Qed.

(** X20.  [LoopIdleTime] keeps the order of the idle times: as the idle
    time of the loop grows, the readings never go down, and none of them
    is negative or a NaN. *)
Theorem loop_idle_time_order env1 env2 :
  is_u64 (idle_time env1) -> is_u64 (idle_time env2) ->
  idle_time env1 <= idle_time env2 ->
  exists r1 r2,
    LoopIdleTime env1 = Returns (env1, r1) /\
    LoopIdleTime env2 = Returns (env2, r2) /\
    sign_clear r1 /\
    f64_leb r1 r2 = true.
Proof.
  intros H1 H2 Hle. do 2 eexists. split; [reflexivity|]. split; [reflexivity|].
  rewrite !f64_mul_one_of_u64 by assumption.
  fold (millis_of_nanos (idle_time env1)). fold (millis_of_nanos (idle_time env2)).
  split; [now apply millis_of_nanos_sign|].
  apply millis_of_nanos_leb; unfold is_u64 in *; lia.
Qed.

End Readings.

(** ** The name of a function *)

(** X21.  [GetName] gives the first debug name, going from a function
    along the functions it is bound to, that is neither empty nor
    undefined; when there is none it gives the debug name of the
    innermost function.  So it gives a name exactly when some function
    of the chain has one. *)
Theorem get_name_first_named fn :
  match List.find is_name (bound_chain fn) with
  | Some n => GetName fn = n
  | None => Some (GetName fn) = last (bound_chain fn)
  end /\
  is_name (GetName fn) = existsb is_name (bound_chain fn).
Proof.
  induction fn as [val|val fn [IH1 IH2]].
  - cbn. destruct (is_name val); split; reflexivity.
  - cbn [bound_chain GetName List.find existsb].
    destruct (is_name val) eqn:Ev; cbn [negb orb].
    + split; [reflexivity|exact Ev].
    + split; [|exact IH2].
      destruct (List.find is_name (bound_chain fn)); [exact IH1|].
      rewrite IH1. destruct fn; reflexivity.
Qed.

(** ** The theorems at work on a sample instance *)

#[local] Existing Instance sample_enums.

Lemma sample_fresh_wf origin : wf_state (performance_state (fresh_env origin)).
Proof. split; reflexivity. Qed.

Lemma sample_observed_wf origin :
  wf_state (performance_state (with_observer_count (fresh_env origin) 0 1)).
Proof. split; reflexivity. Qed.

(** Two prologues and the epilogue of the second: kind 1 stays in
    progress. *)
Lemma gc_cycle_state_machine_witness :
  wf_state (performance_state (fresh_env 0)) /\
  current_gc_type (performance_state (fresh_env 0)) = 0 /\
  exists env',
    run (fresh_env 0) [Prologue 1 0 10; Prologue 2 0 20; Epilogue 2 0 30] = Returns env' /\
    current_gc_type (performance_state env') = 1.
Proof.
  split; [split; reflexivity|]. split; [reflexivity|].
  destruct (gc_cycle_state_machine (fresh_env 0)
              [Prologue 1 0 10; Prologue 2 0 20; Epilogue 2 0 30])
    as (env' & Hrun & _ & _ & _ & Hk); [split; reflexivity|reflexivity|].
  exists env'. split; [exact Hrun|].
  apply (Hk 1); [lia|].
  exists [], 0, 10, [Prologue 2 0 20; Epilogue 2 0 30], (fresh_env 0).
  split; [reflexivity|]. split; [reflexivity|]. split; [reflexivity|].
  repeat constructor; cbn; lia.
Defined.

(** A cycle of kind 1 from 10 ns to 60 ns, time origin 5 ns, with a
    nested cycle of kind 2 in between. *)
Lemma gc_entry_uses_matching_start_witness :
  let env := with_observer_count (fresh_env 5) 0 1 in
  let sigs := [Prologue 1 0 10; Prologue 2 0 20; Epilogue 2 0 30] in
  let env1 := started env 1 10 in
  let task := {| immediate_entry := gc_entry env1 1 4 60; immediate_flags := kUnrefed |} in
  let env2 := SetImmediate (cleared env1) (gc_entry env1 1 4 60) kUnrefed in
  current_gc_type (performance_state env) = 0 /\
  run env sigs = Returns env1 /\
  1 <> 0 /\
  MarkGarbageCollectionEnd env1 1 4 60 = Returns env2 /\
  native_immediates env2 = native_immediates env1 ++ [task] /\
  exists pre flags0 t0 post env_idle,
    sigs = pre ++ Prologue 1 flags0 t0 :: post /\
    run env pre = Returns env_idle /\
    current_gc_type (performance_state env_idle) = 0 /\
    Forall (fun s => ~ is_epilogue_of 1 s) post /\
    performance_last_gc_start_mark (performance_state env1) = t0 /\
    entry_start_time (immediate_entry task) =
      f64_div (f64_of_u64 (u64_sub t0 (time_origin env))) NANOS_PER_MILLIS /\
    entry_duration (immediate_entry task) =
      f64_sub (millis_of_nanos 60) (millis_of_nanos t0).
Proof.
  intros env sigs env1 task env2.
  split; [reflexivity|]. split; [reflexivity|]. split; [lia|].
  split; [reflexivity|]. split; [reflexivity|].
  apply (gc_entry_uses_matching_start env sigs env1 1 4 60 env2 task);
    [reflexivity|reflexivity|lia|reflexivity|reflexivity].
Defined.

(** The scenario of the specification: start at 0, end at 50 ms, one
    observer. *)
Lemma gc_end_delivery_witness :
  let env := with_observer_count (fresh_env 0) 0 1 in
  let sigs := [Prologue 1 0 0] in
  let env1 := started env 1 0 in
  wf_state (performance_state env) /\
  0 <= performance_last_gc_start_mark (performance_state env) /\
  monotonic_from (performance_last_gc_start_mark (performance_state env))
                 (map signal_clock sigs ++ [50000000]) /\
  50000000 < 2 ^ 64 /\
  run env sigs = Returns env1 /\
  1 = current_gc_type (performance_state env1) /\
  exists n env2,
    observers (performance_state env1) !! NODE_PERFORMANCE_ENTRY_TYPE_GC = Some n /\
    MarkGarbageCollectionEnd env1 1 0 50000000 = Returns env2 /\
    callback_calls env2 = callback_calls env1 /\
    immediate_ref_count env2 = immediate_ref_count env1 /\
    (n = 0 -> native_immediates env2 = native_immediates env1) /\
    (n <> 0 ->
     exists entry,
       native_immediates env2 =
         native_immediates env1 ++
           [{| immediate_entry := entry; immediate_flags := kUnrefed |}] /\
       entry_name entry = "gc" /\
       details_kind entry = 1 /\
       details_flags entry = 0 /\
       f64_leb (S754_zero false) (entry_duration entry) = true).
Proof.
  intros env sigs env1.
  split; [split; reflexivity|]. split; [cbn; lia|]. split; [cbn; lia|].
  split; [lia|]. split; [reflexivity|]. split; [reflexivity|].
  apply (gc_end_delivery env sigs env1 1 0 50000000);
    [split; reflexivity|cbn; lia|cbn; lia|lia|reflexivity|reflexivity].
Defined.

Lemma gc_entry_times_witness :
  let env := started (with_observer_count (fresh_env 5) 0 1) 1 10 in
  let task := {| immediate_entry := gc_entry env 1 4 60; immediate_flags := kUnrefed |} in
  let env2 := SetImmediate (cleared env) (gc_entry env 1 4 60) kUnrefed in
  is_u64 (performance_last_gc_start_mark (performance_state env)) /\
  is_u64 (time_origin env) /\
  MarkGarbageCollectionEnd env 1 4 60 = Returns env2 /\
  native_immediates env2 = native_immediates env ++ [task] /\
  entry_start_time (immediate_entry task) =
    f64_div (f64_of_u64 (u64_sub 10 5)) NANOS_PER_MILLIS /\
  (5 <= 10 -> entry_start_time (immediate_entry task) = millis_of_nanos (10 - 5)) /\
  entry_duration (immediate_entry task) =
    f64_sub (f64_div (f64_of_u64 60) NANOS_PER_MILLIS)
            (f64_div (f64_of_u64 10) NANOS_PER_MILLIS) /\
  NANOS_PER_MILLIS = f64_of_u64 1000000 /\
  (forall k, 0 <= k -> k * 1000000 < 2 ^ 53 -> 10 = 5 + k * 1000000 ->
     entry_start_time (immediate_entry task) = f64_of_u64 k).
Proof.
  intros env task env2.
  split; [cbn; unfold is_u64; lia|]. split; [cbn; unfold is_u64; lia|].
  split; [reflexivity|]. split; [reflexivity|].
  apply (gc_entry_times env 1 4 60 env2 task);
    [cbn; unfold is_u64; lia|cbn; unfold is_u64; lia|reflexivity|reflexivity].
Defined.

(** One observer of "gc" entries and a registered callback. *)
Lemma notify_dispatch_witness :
  let env := set_performance_entry_callback (with_observer_count (fresh_env 0) 0 1) 3 in
  wf_state (performance_state env) /\
  exists env',
    Notify env "gc" (Object 7) = Returns env' /\
    callback_calls env' = [(3%nat, Object 7)].
Proof.
  intros env. split; [split; reflexivity|].
  destruct (notify_dispatch env "gc" (Object 7)) as [Hsome _]; [split; reflexivity|].
  destruct (Hsome 3%nat eq_refl) as (env' & Hret & Hyes & _).
  exists env'. split; [exact Hret|].
  rewrite Hyes; [reflexivity|].
  split; [cbn; lia|]. exists 1. split; [reflexivity|lia].
Defined.

Lemma create_eld_histogram_check_witness :
  0 <= 0 /\ CreateELDHistogram (fresh_env 0) 0 = Faults CheckFailed.
Proof.
  split; [lia|]. apply (create_eld_histogram_check (fresh_env 0) 0). lia.
Defined.

Lemma loop_idle_time_millis_witness :
  is_u64 (idle_time (set_idle_time (fresh_env 0) 1000000000)) /\
  LoopIdleTime (set_idle_time (fresh_env 0) 1000000000) =
    Returns (set_idle_time (fresh_env 0) 1000000000, f64_of_u64 1000).
Proof.
  split; [cbn; unfold is_u64; lia|].
  apply (loop_idle_time_millis (set_idle_time (fresh_env 0) 1000000000));
    [cbn; unfold is_u64; lia|lia|lia|reflexivity].
Defined.

(** Milestone 2 marked at 100, then at 250. *)
Lemma mark_read_monotonic_witness :
  let st1 := set_milestones (PerformanceState_new None)
               (<[2%nat := f64_of_u64 100]> (milestones (PerformanceState_new None))) in
  monotonic_from 0 (map snd [(2, 100)] ++ [250]) /\
  250 < 2 ^ 64 /\
  0 <= 2 < Z.of_nat NODE_PERFORMANCE_MILESTONE_INVALID /\
  run_marks (PerformanceState_new None) [(2, 100)] = Returns st1 /\
  exists previous st2,
    milestones st1 !! Z.to_nat 2 = Some previous /\
    Mark st1 2 250 = Returns st2 /\
    milestones st2 !! Z.to_nat 2 = Some (f64_of_u64 250) /\
    f64_leb previous (f64_of_u64 250) = true /\
    f64_eqb (f64_of_u64 250) f64_minus_one = false.
Proof.
  intros st1.
  split; [cbn; lia|]. split; [lia|]. split; [cbn; lia|]. split; [reflexivity|].
  apply (mark_read_monotonic [(2, 100)] st1 2 250);
    [cbn; lia|lia|cbn; lia|reflexivity].
Defined.

(** ** Where the specification and the code part *)

(** Against C4 as stated.  A valid type with a nonzero counter and no
    callback registered: [Notify] is no safe no-op, it calls through the
    empty callback slot. *)
Lemma notify_without_callback_counterexample :
  let env := with_observer_count (fresh_env 0) 0 1 in
  performance_entry_callback env = None /\
  Notify env "gc" (Object 7) = Faults EmptyHandle /\
  Notify env "gc" (Object 7) <> Returns env.
Proof.
  intros env. split; [reflexivity|]. split; [reflexivity|]. discriminate.
Qed.

(** Against C5 as stated.  Eight milestones, identifier 9, and identifier
    -1: no silent no-op, the store is reached with an index outside the
    buffer. *)
Lemma mark_milestone_out_of_range_counterexample :
  MarkMilestone (fresh_env 0) kPrincipal 9 100 = Faults OutOfBounds /\
  MarkMilestone (fresh_env 0) kPrincipal (-1) 100 = Faults OutOfBounds /\
  MarkMilestone (fresh_env 0) kPrincipal 9 100 <> Returns (fresh_env 0).
Proof. split; [reflexivity|]. split; [reflexivity|]. discriminate. Qed.

(** Against C6 as stated.  Interval zero: the process is brought down;
    no error is thrown to the caller. *)
Lemma create_eld_histogram_counterexample :
  CreateELDHistogram (fresh_env 0) 0 = Faults CheckFailed /\
  ~ exists code, CreateELDHistogram (fresh_env 0) 0 = Throws code.
Proof. split; [reflexivity|]. intros [code E]. discriminate. Qed.

(** Against C7 as stated.  One second of idle time: the query answers
    1000, not 1. *)
Lemma loop_idle_time_seconds_counterexample :
  let env := set_idle_time (fresh_env 0) 1000000000 in
  LoopIdleTime env = Returns (env, f64_of_u64 1000) /\
  spec_idle_seconds (idle_time env) = f64_of_u64 1 /\
  LoopIdleTime env <> Returns (env, spec_idle_seconds (idle_time env)).
Proof.
  intros env. split; [vm_compute; reflexivity|]. split; [vm_compute; reflexivity|].
  vm_compute. discriminate.
Qed.

(** ** The scenarios of the specification *)

(** Start of kind 1 at 0, end of kind 1 at 50 ms, one observer: one
    deferred entry, of duration 50. *)
Example scenario_duration_50 :
  let env := with_observer_count (fresh_env 0) 0 1 in
  exists env2 entry,
    run env [Prologue 1 0 0; Epilogue 1 0 50000000] = Returns env2 /\
    native_immediates env2 = [{| immediate_entry := entry; immediate_flags := kUnrefed |}] /\
    entry_duration entry = f64_of_u64 50 /\
    callback_calls env2 = [] /\
    current_gc_type (performance_state env2) = 0.
Proof.
  intros env. eexists. eexists.
  split; [vm_compute; reflexivity|]. cbn. split; [reflexivity|].
  split; [vm_compute; reflexivity|]. split; reflexivity.
Qed.

(** Start of kind 1, then a start of kind 2: the second is ignored; the
    end of kind 1 clears; a stray end of kind 2 does nothing. *)
Example scenario_nested_start :
  let env := fresh_env 0 in
  exists env1 env2,
    run env [Prologue 1 0 10; Prologue 2 0 20] = Returns env1 /\
    current_gc_type (performance_state env1) = 1 /\
    performance_last_gc_start_mark (performance_state env1) = 10 /\
    MarkGarbageCollectionEnd env1 1 0 30 = Returns env2 /\
    current_gc_type (performance_state env2) = 0 /\
    MarkGarbageCollectionEnd env2 2 0 40 = Returns env2.
Proof.
  intros env. eexists. eexists.
  split; [reflexivity|]. cbn. split; [reflexivity|]. split; [reflexivity|].
  split; [reflexivity|]. split; reflexivity.
Qed.

(** One observer of "http" entries and a registered callback: an "http"
    entry reaches the callback once; a "gc" entry, whose counter is zero,
    does not; nor does an entry of an unknown type. *)
Example scenario_notify :
  let env := set_performance_entry_callback (with_observer_count (fresh_env 0) 1 1) 3 in
  exists env1,
    Notify env "http" (Object 7) = Returns env1 /\
    callback_calls env1 = [(3%nat, Object 7)] /\
    Notify env "gc" (Object 7) = Returns env /\
    Notify env "mark" (Object 7) = Returns env.
Proof.
  intros env. eexists. split; [reflexivity|]. cbn.
  split; [reflexivity|]. split; reflexivity.
Qed.

(** Milestone 2 marked at 100 in a fresh region: slot 2 reads 100, the
    others the sentinel. *)
Example scenario_mark_milestone_2 :
  exists env1,
    MarkMilestone (fresh_env 0) kPrincipal 2 100 = Returns env1 /\
    milestones (performance_state env1) =
      [f64_minus_one; f64_minus_one; f64_of_u64 100; f64_minus_one;
       f64_minus_one; f64_minus_one; f64_minus_one; f64_minus_one].
Proof. eexists. split; [reflexivity|]. vm_compute. reflexivity. Qed.

(** ** The further properties on the sample instance *)

#[local] Existing Instance sample_hooks.


Lemma mark_milestone_writes_one_slot_witness :
  wf_state (performance_state (fresh_env 0)) /\
  0 <= 3 < Z.of_nat NODE_PERFORMANCE_MILESTONE_INVALID /\
  exists env',
    MarkMilestone (fresh_env 0) kPrincipal 3 100 = Returns env' /\
    milestones (performance_state env') !! 3%nat = Some (f64_of_u64 100) /\
    milestones (performance_state env') !! 4%nat = Some f64_minus_one.
Proof.
  split; [split; reflexivity|]. split; [cbn; lia|].
  destruct (mark_milestone_writes_one_slot (fresh_env 0) 3 100
              ltac:(split; reflexivity) ltac:(cbn; lia))
    as (env' & Hret & Hslot & Hrest & _).
  exists env'. split; [exact Hret|]. split; [exact Hslot|].
  rewrite (Hrest 4%nat); [reflexivity|cbn; lia].
Defined.

(** Milestone 1 at 10 and milestone 2 at 20, in either order. *)
Lemma mark_overwrites_and_commutes_witness :
  let st := PerformanceState_new None in
  let s1 := set_milestones st (<[1%nat := f64_of_u64 10]> (milestones st)) in
  let s12 := set_milestones s1 (<[2%nat := f64_of_u64 20]> (milestones s1)) in
  Mark st 1 10 = Returns s1 /\
  Mark s1 2 20 = Returns s12 /\
  exists s2, Mark st 2 20 = Returns s2 /\ Mark s2 1 10 = Returns s12.
Proof.
  intros st s1 s12. split; [reflexivity|]. split; [reflexivity|].
  apply (mark_overwrites_and_commutes st 1 2 10 20 s1 s12);
    [reflexivity|reflexivity|lia].
Defined.

Lemma mark_bootstrap_complete_as_milestone_witness :
  wf_state (performance_state (fresh_env 0)) /\
  exists env',
    MarkBootstrapComplete (fresh_env 0) kPrincipal 500 = Returns env' /\
    milestones (performance_state env') !! 7%nat = Some (f64_of_u64 500).
Proof.
  split; [split; reflexivity|].
  destruct (mark_bootstrap_complete_as_milestone (fresh_env 0) kPrincipal 500
              ltac:(split; reflexivity)) as (_ & _ & Hret).
  destruct (Hret eq_refl) as (env' & Hr & Hslot & _).
  exists env'. split; [exact Hr|exact Hslot].
Defined.

Lemma mark_timestamp_exact_witness :
  let st := PerformanceState_new None in
  let s := set_milestones st (<[2%nat := f64_of_u64 100]> (milestones st)) in
  0 <= 100 < 2 ^ 53 /\
  Mark st 2 100 = Returns s /\
  milestones s !! Z.to_nat 2 = milestones s !! Z.to_nat 2 /\
  100 = 100.
Proof.
  intros st s. split; [lia|]. split; [reflexivity|]. split; [reflexivity|].
  apply (mark_timestamp_exact st 2 100 100 s s);
    [lia|lia|reflexivity|reflexivity|reflexivity].
Defined.

(** One observer of "gc" entries; function 3 registered, then
    function 4. *)
Lemma notify_calls_last_registered_witness :
  let env := with_observer_count (fresh_env 0) 0 1 in
  let env1 := set_performance_entry_callback env 3 in
  let env2 := set_performance_entry_callback env1 4 in
  SetupPerformanceObservers env kPrincipal (Function 3) = Returns env1 /\
  SetupPerformanceObservers env1 kPrincipal (Function 4) = Returns env2 /\
  interested env "gc" /\
  Notify env2 "gc" (Object 7) =
    Returns (set_callback_calls env2 [(4%nat, Object 7)]).
Proof.
  intros env env1 env2.
  assert (Hi : interested env "gc").
  { split; [cbn; lia|]. exists 1. split; [reflexivity|lia]. }
  split; [reflexivity|]. split; [reflexivity|]. split; [exact Hi|].
  apply (notify_calls_last_registered env 3 4 env1 env2 "gc" (Object 7));
    [reflexivity|reflexivity|exact Hi].
Defined.


Lemma calls_only_extend_witness :
  let env := with_observer_count (fresh_env 5) 0 1 in
  let calls :=
    [CallSetupPerformanceObservers kPrincipal (Function 3);
     CallSignal (Prologue 1 0 10);
     CallNotify "gc" (Object 7);
     CallSignal (Epilogue 1 0 60)] in
  exists env',
    perform_all env calls = Returns env' /\
    callback_calls env `prefix_of` callback_calls env' /\
    native_immediates env `prefix_of` native_immediates env' /\
    (is_Some (performance_entry_callback env) ->
     is_Some (performance_entry_callback env')).
Proof.
  intros env calls. eexists. split; [reflexivity|].
  apply (calls_only_extend env calls). reflexivity.
Defined.

Lemma notify_returns_once_registered_witness :
  let env := with_observer_count (fresh_env 5) 0 1 in
  let env0 := set_performance_entry_callback env 3 in
  let calls :=
    [CallMarkMilestone kPrincipal 2 100;
     CallSignal (Prologue 1 0 10);
     CallSignal (Epilogue 1 0 60)] in
  wf_state (performance_state env) /\
  SetupPerformanceObservers env kPrincipal (Function 3) = Returns env0 /\
  exists env1,
    perform_all env0 calls = Returns env1 /\
    exists env2, Notify env1 "gc" (Object 7) = Returns env2.
Proof.
  intros env env0 calls. split; [split; reflexivity|]. split; [reflexivity|].
  eexists. split; [reflexivity|].
  apply (notify_returns_once_registered env 3 env0 calls);
    [split; reflexivity|reflexivity|reflexivity].
Defined.

Lemma script_calls_do_not_disturb_tracker_witness :
  let env := with_observer_count (fresh_env 5) 0 1 in
  let calls :=
    [CallSignal (Prologue 1 0 10);
     CallMarkMilestone kPrincipal 2 100;
     CallSetupPerformanceObservers kPrincipal (Function 3);
     CallNotify "gc" (Object 7);
     CallSignal (Epilogue 1 0 60)] in
  signals_of calls = [Prologue 1 0 10; Epilogue 1 0 60] /\
  exists env1,
    perform_all env calls = Returns env1 /\
    exists env2,
      run env (signals_of calls) = Returns env2 /\
      current_gc_type (performance_state env1) =
        current_gc_type (performance_state env2) /\
      performance_last_gc_start_mark (performance_state env1) =
        performance_last_gc_start_mark (performance_state env2) /\
      native_immediates env1 = native_immediates env2 /\
      immediate_ref_count env1 = immediate_ref_count env2.
Proof.
  intros env calls. split; [reflexivity|].
  eexists. split; [reflexivity|].
  apply (script_calls_do_not_disturb_tracker env calls). reflexivity.
Defined.

(** A cycle of kind 1 around a nested cycle of kind 2. *)
Lemma gc_signals_reach_witness :
  let env := with_observer_count (fresh_env 5) 0 1 in
  let sigs := [Prologue 1 0 10; Prologue 2 0 20; Epilogue 2 0 30; Epilogue 1 0 60] in
  exists env1,
    run env sigs = Returns env1 /\
    callback_calls env1 = callback_calls env /\
    immediate_ref_count env1 = immediate_ref_count env /\
    milestones (performance_state env1) = milestones (performance_state env) /\
    observers (performance_state env1) = observers (performance_state env) /\
    performance_entry_callback env1 = performance_entry_callback env /\
    time_origin env1 = time_origin env /\
    histograms env1 = histograms env /\
    exists new,
      native_immediates env1 = native_immediates env ++ new /\
      Forall tracker_task new /\
      (length new <= length (filter (fun s => negb (is_prologue s)) sigs))%nat.
Proof.
  intros env sigs. eexists. split; [reflexivity|].
  apply (gc_signals_reach env sigs). reflexivity.
Defined.

Lemma gc_entries_bounded_by_prologues_witness :
  let env := with_observer_count (fresh_env 5) 0 1 in
  let sigs := [Prologue 1 0 10; Prologue 2 0 20; Epilogue 2 0 30; Epilogue 1 0 60] in
  epilogue_kinds_nonzero sigs /\
  exists env1,
    run env sigs = Returns env1 /\
    (length (native_immediates env1) + cycles_open env1 <=
     length (native_immediates env) + cycles_open env +
     length (filter (fun s => is_prologue s) sigs))%nat.
Proof.
  intros env sigs.
  assert (Hk : epilogue_kinds_nonzero sigs) by (repeat constructor; cbn; lia).
  split; [exact Hk|]. eexists. split; [reflexivity|].
  apply (gc_entries_bounded_by_prologues env sigs); [exact Hk|reflexivity].
Defined.

(** The epilogue of a cycle of kind 1, delivered twice. *)
Lemma duplicate_epilogue_ignored_witness :
  let env := started (with_observer_count (fresh_env 5) 0 1) 1 10 in
  let env1 := SetImmediate (cleared env) (gc_entry env 1 4 60) kUnrefed in
  1 <> 0 /\
  MarkGarbageCollectionEnd env 1 4 60 = Returns env1 /\
  MarkGarbageCollectionEnd env1 1 0 70 = Returns env1.
Proof.
  intros env env1. split; [lia|]. split; [reflexivity|].
  apply (duplicate_epilogue_ignored env 1 4 60 0 70 env1); [lia|reflexivity].
Defined.

Lemma cycle_ignores_what_is_nested_witness :
  let env := with_observer_count (fresh_env 5) 0 1 in
  let noise := [Prologue 2 0 20; Epilogue 2 0 30; Epilogue 3 0 40] in
  current_gc_type (performance_state env) = 0 /\
  1 <> 0 /\
  Forall (fun s => ~ is_epilogue_of 1 s) noise /\
  run env (Prologue 1 0 10 :: noise ++ [Epilogue 1 4 60]) =
  run env [Prologue 1 0 10; Epilogue 1 4 60].
Proof.
  intros env noise.
  assert (Hn : Forall (fun s => ~ is_epilogue_of 1 s) noise)
    by (repeat constructor; cbn; lia).
  split; [reflexivity|]. split; [lia|]. split; [exact Hn|].
  apply (cycle_ignores_what_is_nested env 1 0 10 noise 4 60); [reflexivity|lia|exact Hn].
Defined.

(** A cycle from 3 ms to 8 ms: the duration is 5. *)
Lemma gc_duration_whole_millis_witness :
  let env := started (with_observer_count (fresh_env 0) 0 1) 1 3000000 in
  let task :=
    {| immediate_entry := gc_entry env 1 4 8000000; immediate_flags := kUnrefed |} in
  let env2 := SetImmediate (cleared env) (gc_entry env 1 4 8000000) kUnrefed in
  MarkGarbageCollectionEnd env 1 4 8000000 = Returns env2 /\
  native_immediates env2 = native_immediates env ++ [task] /\
  performance_last_gc_start_mark (performance_state env) = 3 * 1000000 /\
  8000000 = 8 * 1000000 /\
  0 <= 3 <= 8 /\ 8 * 1000000 < 2 ^ 53 /\
  entry_duration (immediate_entry task) = f64_of_u64 (8 - 3).
Proof.
  intros env task env2.
  split; [reflexivity|]. split; [reflexivity|]. split; [reflexivity|].
  split; [reflexivity|]. split; [lia|]. split; [lia|].
  apply (gc_duration_whole_millis env 1 4 8000000 env2 task 3 8);
    [reflexivity|reflexivity|reflexivity|reflexivity|lia|lia].
Defined.

(** A mark of 10 ns against a time origin of 20 ns. *)
Lemma gc_start_time_sign_witness :
  let env := started (with_observer_count (fresh_env 20) 0 1) 1 10 in
  let task := {| immediate_entry := gc_entry env 1 4 60; immediate_flags := kUnrefed |} in
  let env2 := SetImmediate (cleared env) (gc_entry env 1 4 60) kUnrefed in
  is_u64 (performance_last_gc_start_mark (performance_state env)) /\
  is_u64 (time_origin env) /\
  MarkGarbageCollectionEnd env 1 4 60 = Returns env2 /\
  native_immediates env2 = native_immediates env ++ [task] /\
  sign_clear (entry_start_time (immediate_entry task)) /\
  entry_start_time (immediate_entry task) = millis_of_nanos (2 ^ 64 + 10 - 20).
Proof.
  intros env task env2.
  assert (H1 : is_u64 (performance_last_gc_start_mark (performance_state env)))
    by (cbn; unfold is_u64; lia).
  assert (H2 : is_u64 (time_origin env)) by (cbn; unfold is_u64; lia).
  assert (H3 : MarkGarbageCollectionEnd env 1 4 60 = Returns env2) by reflexivity.
  assert (H4 : native_immediates env2 = native_immediates env ++ [task]) by reflexivity.
  split; [exact H1|]. split; [exact H2|]. split; [exact H3|]. split; [exact H4|].
  destruct (gc_start_time_sign env 1 4 60 env2 task H1 H2 H3 H4) as (Hs & _ & Hw).
  split; [exact Hs|]. apply Hw. cbn. lia.
Defined.

(** A cycle of kind 1 around a nested cycle of kind 2. *)
Lemma gc_entries_in_start_order_witness :
  let env := with_observer_count (fresh_env 5) 0 1 in
  let sigs := [Prologue 1 0 10; Epilogue 1 0 20; Prologue 2 0 30; Epilogue 2 0 40] in
  let env_a := started env 1 10 in
  let env_b := SetImmediate (cleared env_a) (gc_entry env_a 1 0 20) kUnrefed in
  let env_c := started env_b 2 30 in
  let env_d := SetImmediate (cleared env_c) (gc_entry env_c 2 0 40) kUnrefed in
  let a := {| immediate_entry := gc_entry env_a 1 0 20; immediate_flags := kUnrefed |} in
  let b := {| immediate_entry := gc_entry env_c 2 0 40; immediate_flags := kUnrefed |} in
  current_gc_type (performance_state env) = 0 /\
  epilogue_kinds_nonzero sigs /\
  monotonic_from 5 (map signal_clock sigs) /\
  run env sigs = Returns env_d /\
  native_immediates env_d = native_immediates env ++ [a; b] /\
  f64_leb (entry_start_time (immediate_entry a))
          (entry_start_time (immediate_entry b)) = true.
Proof.
  intros env sigs env_a env_b env_c env_d a b.
  assert (Hk : epilogue_kinds_nonzero sigs) by (repeat constructor; cbn; lia).
  assert (Hm : monotonic_from 5 (map signal_clock sigs)) by (cbn; lia).
  split; [reflexivity|]. split; [exact Hk|]. split; [exact Hm|].
  split; [reflexivity|]. split; [reflexivity|].
  apply (gc_entries_in_start_order env sigs env_d 5 [a; b] 0 1 a b);
    [reflexivity|exact Hk|cbn; lia|lia|exact Hm|repeat constructor; cbn; lia
    |reflexivity|reflexivity|lia|reflexivity|reflexivity].
Defined.

(** The tracker installed while a cycle of kind 1 is in progress. *)
Lemma tracker_install_remove_reset_witness :
  let env := started (with_observer_count (fresh_env 5) 0 1) 1 10 in
  InstallGarbageCollectionTracking env (0, 0, 0)%nat =
    Returns (cleared env, (1, 1, 1)%nat) /\
  current_gc_type (performance_state (cleared env)) = 0 /\
  MarkGarbageCollectionEnd (cleared env) 1 0 60 = Returns (cleared env).
Proof.
  intros env.
  assert (Hi : InstallGarbageCollectionTracking env (0, 0, 0)%nat =
               Returns (cleared env, (1, 1, 1)%nat)) by reflexivity.
  split; [exact Hi|].
  destruct (@tracker_install_remove_reset sample_enums sample_hooks
              env (0, 0, 0)%nat (cleared env) (1, 1, 1)%nat (or_introl Hi))
    as (_ & Hidle & _ & Hend & _).
  split; [exact Hidle|]. apply Hend. lia.
Defined.

(** Time origins of 5 ms and 7 ms. *)
Lemma get_time_origin_reading_witness :
  is_u64 (time_origin (fresh_env 5000000)) /\
  is_u64 (time_origin (fresh_env 7000000)) /\
  time_origin (fresh_env 5000000) <= time_origin (fresh_env 7000000) /\
  exists r1 r2,
    GetTimeOrigin (fresh_env 5000000) = Returns (fresh_env 5000000, r1) /\
    GetTimeOrigin (fresh_env 7000000) = Returns (fresh_env 7000000, r2) /\
    f64_leb r1 r2 = true /\
    r1 = f64_of_u64 5.
Proof.
  assert (H1 : is_u64 (time_origin (fresh_env 5000000))) by (cbn; unfold is_u64; lia).
  assert (H2 : is_u64 (time_origin (fresh_env 7000000))) by (cbn; unfold is_u64; lia).
  split; [exact H1|]. split; [exact H2|]. split; [cbn; lia|].
  destruct (get_time_origin_reading (fresh_env 5000000) (fresh_env 7000000) H1 H2
              ltac:(cbn; lia)) as (r1 & r2 & E1 & E2 & _ & Hle & Hk).
  exists r1, r2. split; [exact E1|]. split; [exact E2|]. split; [exact Hle|].
  apply (Hk 5); [lia|lia|reflexivity].
Defined.

(** Idle times of one and two microseconds. *)
Lemma loop_idle_time_order_witness :
  let env1 := set_idle_time (fresh_env 0) 1000 in
  let env2 := set_idle_time (fresh_env 0) 2000 in
  is_u64 (idle_time env1) /\ is_u64 (idle_time env2) /\
  idle_time env1 <= idle_time env2 /\
  exists r1 r2,
    LoopIdleTime env1 = Returns (env1, r1) /\
    LoopIdleTime env2 = Returns (env2, r2) /\
    sign_clear r1 /\
    f64_leb r1 r2 = true.
Proof.
  intros env1 env2.
  assert (H1 : is_u64 (idle_time env1)) by (cbn; unfold is_u64; lia).
  assert (H2 : is_u64 (idle_time env2)) by (cbn; unfold is_u64; lia).
  split; [exact H1|]. split; [exact H2|]. split; [cbn; lia|].
  apply (loop_idle_time_order env1 env2 H1 H2). cbn. lia.
Defined.

(** ** Further scenarios *)

(** From [2 ^ 53] nanoseconds on, neighbouring timestamps are stored as
    the same double. *)
Example mark_timestamps_collide :
  f64_of_u64 (2 ^ 53) = f64_of_u64 (2 ^ 53 + 1).
Proof. vm_compute. reflexivity. Qed.

(** A function without a name bound twice over a function named "f". *)
Example get_name_through_bound_functions :
  GetName (BoundFunction NameUndefined
             (BoundFunction NameEmpty (PlainFunction (NameString "f")))) =
    NameString "f" /\
  GetName (BoundFunction (NameString "bound f") (PlainFunction (NameString "f"))) =
    NameString "bound f" /\
  GetName (BoundFunction NameEmpty (PlainFunction NameUndefined)) = NameUndefined.
Proof. repeat split. Qed.
